(** * ivory-operator: the upgrade reconciler, the pgBackRest configuration
      builders, the exporter reconciliation and the huge_pages parameter.

    Each Go function is embedded as a Rocq function of the same name.  Go maps
    are finite maps ([gmap]); a [range] over a Go map visits the entries in an
    order the language does not fix, so every such loop takes the order of
    the visit from a schedule.  What a function calls and is declared in
    another file of the repository (the API client, helpers, constants) is a
    field of a record that the function takes, and every call that changes
    the cluster is recorded in a list of calls. *)

From Stdlib Require Import Ascii.
From stdpp Require Import gmap strings list fin_maps pretty.

Local Open Scope string_scope.
Local Open Scope Z_scope.

(** ** Ranging over a Go map *)

Module GoMap.

(** The n-th [range] statement of a run, over a map whose entries are [l],
    visits them in the order [s _ n l]. *)
Definition Schedule : Type :=
  ∀ A : Type, nat → list (string * A) → list (string * A).

(** What the language guarantees: every entry is visited once. *)
Definition fair (s : Schedule) : Prop := ∀ A n (l : list (string * A)), s A n l ≡ₚ l.

Definition range {A : Type} (s : Schedule) (n : nat) (m : gmap string A)
  : list (string * A) :=
  s A n (map_to_list m).

(** The schedule that visits the entries as [map_to_list] lists them, and
    the one that visits them the other way round. *)
Definition inOrder : Schedule := λ _ _ l, l.
Definition backwards : Schedule := λ _ _ l, reverse l.

End GoMap.

(** ** k8s.io/apimachinery: object metadata and status conditions *)

Module Metav1.

Record ObjectMeta : Type := {
  Name : string;
  Namespace : string;
  UID : string;
  ResourceVersion : string;
  Generation : Z;
  Labels : gmap string string;
  Annotations : gmap string string
}.

(** Reading a Go map at a key it does not have gives the zero value. *)
Definition index (m : gmap string string) (key : string) : string :=
  default "" (m !! key).

Inductive ConditionStatus : Type :=
  ConditionTrue | ConditionFalse | ConditionUnknown.

(** metav1.Time; [None] is the zero time. *)
Definition Time : Type := option Z.

Record Condition : Type := {
  Type_ : string;
  Status : ConditionStatus;
  ObservedGeneration : Z;
  LastTransitionTime : Time;
  Reason : string;
  Message : string
}.

#[global] Instance ConditionStatus_eq_dec : EqDecision ConditionStatus.
Proof. solve_decision. Defined.

#[global] Instance Condition_eq_dec : EqDecision Condition.
Proof. solve_decision. Defined.

End Metav1.

(** ** k8s.io/apimachinery/pkg/api/meta: the condition helpers *)

Module Meta.
Import Metav1.

(** FindStatusCondition finds the conditionType in conditions. *)
Definition FindStatusCondition (conditions : list Condition)
    (conditionType : string) : option Condition :=
  find (λ c, bool_decide (Type_ c = conditionType)) conditions.

(** What SetStatusCondition writes into the condition it found. *)
Definition overwrite (now : Z) (existing new : Condition) : Condition :=
  {| Type_ := Type_ existing;
     Status := Status new;
     ObservedGeneration := ObservedGeneration new;
     LastTransitionTime :=
       if bool_decide (Status existing = Status new)
       then LastTransitionTime existing
       else match LastTransitionTime new with
            | Some t => Some t
            | None => Some now
            end;
     Reason := Reason new;
     Message := Message new |}.

Fixpoint overwriteFirst (now : Z) (conditions : list Condition)
    (new : Condition) : list Condition :=
  match conditions with
  | [] => []
  | c :: rest =>
      if bool_decide (Type_ c = Type_ new)
      then overwrite now c new :: rest
      else c :: overwriteFirst now rest new
  end.

(** SetStatusCondition sets the corresponding condition in conditions to
    newCondition: appended when the type is new (the transition time set
    to [now] when it is zero), written over the first of that type
    otherwise (the transition time moving only when the status changes). *)
Definition SetStatusCondition (now : Z) (conditions : list Condition)
    (newCondition : Condition) : list Condition :=
  match FindStatusCondition conditions (Type_ newCondition) with
  | None =>
      (conditions ++
        [ {| Type_ := Type_ newCondition;
             Status := Status newCondition;
             ObservedGeneration := ObservedGeneration newCondition;
             LastTransitionTime :=
               match LastTransitionTime newCondition with
               | Some t => Some t
               | None => Some now
               end;
             Reason := Reason newCondition;
             Message := Message newCondition |} ])%list
  | Some _ => overwriteFirst now conditions newCondition
  end.

End Meta.

(** ** pkg/apis/.../v1beta1: the custom resources *)

Module V1beta1.

(** v1beta1.PGBackRestRepo: one pointer per kind of storage, [None] for nil. *)
Record RepoAzure : Type := { Container : string }.
Record RepoGCS : Type := { GCSBucket : string }.
Record RepoS3 : Type := { Bucket : string; Endpoint : string; Region : string }.
Record RepoPVC : Type := { VolumeClaimSpec : string }.

Record PGBackRestRepo : Type := {
  Name : string;
  Azure : option RepoAzure;
  GCS : option RepoGCS;
  S3 : option RepoS3;
  Volume : option RepoPVC
}.


(** resource.Quantity, as far as Value() reads it. *)
Record Quantity : Type := { Value : Z }.

(** An instance set, as far as Resources.Limits. *)
Record IvoryInstanceSetSpec : Type := {
  InstanceName : string;
  Limits : gmap string Quantity
}.

Record RepoStatus : Type := { RepoName : string; StanzaCreated : bool }.

Record IvoryClusterSpec : Type := {
  PostgresVersion : Z;
  InstanceSets : list IvoryInstanceSetSpec;
  Repos : list PGBackRestRepo;
  Global : gmap string string
}.

Record IvoryClusterStatus : Type := {
  StatusPostgresVersion : Z;
  StatusRepos : list RepoStatus;
  ExporterConfiguration : string
}.

Record IvoryCluster : Type := {
  ClusterMeta : Metav1.ObjectMeta;
  ClusterSpec : IvoryClusterSpec;
  ClusterStatus : IvoryClusterStatus
}.

Record IvyUpgradeSpec : Type := {
  IvoryClusterName : string;
  FromIvoryVersion : Z;
  ToIvoryVersion : Z
}.

Record IvyUpgradeStatus : Type := {
  Conditions : list Metav1.Condition
}.

Record IvyUpgrade : Type := {
  UpgradeMeta : Metav1.ObjectMeta;
  UpgradeSpec : IvyUpgradeSpec;
  UpgradeStatus : IvyUpgradeStatus
}.

#[global] Instance IvyUpgradeStatus_eq_dec : EqDecision IvyUpgradeStatus.
Proof. solve_decision. Defined.

End V1beta1.

(** ** internal/pgbackrest: configuration synthesis *)

Module PGBackRest.
Import V1beta1.

(** defaultRepo1Path stores the default pgBackRest repo path *)
Definition defaultRepo1Path : string := "/pgbackrest/".

(** DefaultStanzaName is the name of the default pgBackRest stanza *)
Definition DefaultStanzaName : string := "db".

(** Names and paths that the builders read from the packages [naming] and
    [ivory] and from the certificate constants of this package.  Their
    declarations are outside the files modelled here, so the builders take
    them from this record. *)
Record Names : Type := {
  PGBackRestPGDataLogPath : string;
  (** [fmt.Sprintf(naming.PGBackRestRepoLogPath, name)] *)
  PGBackRestRepoLogPath : string → string;
  (** [naming.KubernetesClusterDomain(context.Background())] *)
  KubernetesClusterDomain : string;
  certAuthorityAbsolutePath : string;
  certClientAbsolutePath : string;
  certClientPrivateKeyAbsolutePath : string;
  certServerAbsolutePath : string;
  certServerPrivateKeyAbsolutePath : string;
  SocketDirectory : string;
  PGBackRestIPVersion : string;
  (** [clientCommonName(cluster)] *)
  clientCommonName : IvoryCluster → string
}.

(** Modelled from the spec: the section types [iniMultiSet] and
    [iniSectionSet], whose declarations are not in the files modelled
    here, by key.  The spec has them ordered ("insertion order
    preserved"); the module [PGBackRestOrdered] has them so, as lists, and
    this module has their content: a section maps an option name to its
    values (multi-valued: Add appends a value, keys may repeat) and Set
    replaces what the key had (last write replaces); a section set maps a
    section name to its section, as the keyed literals at the end of each
    builder build it.  The builders of this module return the content of
    what the builders over the ordered sections return
    ([populatePGInstanceConfigurationMap_contents],
    [populateRepoHostConfigurationMap_contents]).  The order of the options
    is not part of this view: it serves the statements on which options a
    section has and with which values (where one of them names the text
    of a file, String is a parameter), and the statements on the order of
    the options and on the bytes are over [PGBackRestOrdered]. *)
Abbreviation iniMultiSet := (gmap string (list string)).
Abbreviation iniSectionSet := (gmap string (gmap string (list string))).

Definition Set_ (key value : string) (ms : iniMultiSet) : iniMultiSet :=
  <[key := [value]]> ms.

Definition Add (key value : string) (ms : iniMultiSet) : iniMultiSet :=
  <[key := (default [] (ms !! key) ++ [value])%list]> ms.

(** [for option, val := range m { ms.Set(option, val) }], the entries
    visited in the order [order]. *)
Definition SetAll (order : list (string * string)) (ms : iniMultiSet)
  : iniMultiSet :=
  foldl (λ acc kv, Set_ kv.1 kv.2 acc) ms order.

(** getExternalRepoConfigs returns a map containing the configuration
    settings for an external pgBackRest repository *)
Definition getExternalRepoConfigs (repo : PGBackRestRepo)
  : gmap string string :=
  match Azure repo, GCS repo, S3 repo with
  | Some azure, _, _ =>
      <[Name repo +:+ "-azure-container" := Container azure]>
        (<[Name repo +:+ "-type" := "azure"]> ∅)
  | None, Some gcs, _ =>
      <[Name repo +:+ "-gcs-bucket" := GCSBucket gcs]>
        (<[Name repo +:+ "-type" := "gcs"]> ∅)
  | None, None, Some s3 =>
      <[Name repo +:+ "-s3-region" := Region s3]>
        (<[Name repo +:+ "-s3-endpoint" := Endpoint s3]>
          (<[Name repo +:+ "-s3-bucket" := Bucket s3]>
            (<[Name repo +:+ "-type" := "s3"]> ∅)))
  | None, None, None => ∅
  end.

Section Builders.
Context (K : Names).

(** The body of the loop over [repos] in
    populatePGInstanceConfigurationMap; [n] counts the map ranges. *)
Definition instanceRepo (sched : GoMap.Schedule) (n : nat)
    (repoHostName repoHostFQDN : string) (repo : PGBackRestRepo)
    (global : iniMultiSet) : iniMultiSet :=
  let global := Set_ (Name repo +:+ "-path")
                     (defaultRepo1Path +:+ Name repo) global in
  let global :=
    match Volume repo with
    | None => SetAll (GoMap.range sched n (getExternalRepoConfigs repo)) global
    | Some _ => global
    end in
  if bool_decide (repoHostName ≠ "") && bool_decide (is_Some (Volume repo))
  then
    Set_ (Name repo +:+ "-host-user") "ivory"
      (Set_ (Name repo +:+ "-host-key-file") (certClientPrivateKeyAbsolutePath K)
        (Set_ (Name repo +:+ "-host-cert-file") (certClientAbsolutePath K)
          (Set_ (Name repo +:+ "-host-ca-file") (certAuthorityAbsolutePath K)
            (Set_ (Name repo +:+ "-host-type") "tls"
              (Set_ (Name repo +:+ "-host") repoHostFQDN global)))))
  else global.

Fixpoint instanceRepos (sched : GoMap.Schedule) (n : nat)
    (repoHostName repoHostFQDN : string) (repos : list PGBackRestRepo)
    (global : iniMultiSet) : iniMultiSet :=
  match repos with
  | [] => global
  | repo :: rest =>
      instanceRepos sched (S n) repoHostName repoHostFQDN rest
        (instanceRepo sched n repoHostName repoHostFQDN repo global)
  end.

(** populatePGInstanceConfigurationMap returns options representing the
    pgBackRest configuration for a IvorySQL instance *)
Definition populatePGInstanceConfigurationMap (sched : GoMap.Schedule)
    (serviceName serviceNamespace repoHostName pgdataDir : string)
    (pgPort : Z) (repos : list PGBackRestRepo)
    (globalConfig : gmap string string) : iniSectionSet :=
  let repoHostFQDN := repoHostName +:+ "-0." +:+
    serviceName +:+ "." +:+ serviceNamespace +:+ ".svc." +:+
    KubernetesClusterDomain K in
  let global := Set_ "log-path" (PGBackRestPGDataLogPath K) ∅ in
  let global := instanceRepos sched 0 repoHostName repoHostFQDN repos global in
  let global :=
    SetAll (GoMap.range sched (length repos) globalConfig) global in
  let stanza := Set_ "pg1-path" pgdataDir ∅ in
  let stanza := Set_ "pg1-port" (pretty pgPort) stanza in
  let stanza := Set_ "pg1-socket-path" (SocketDirectory K) stanza in
  <[DefaultStanzaName := stanza]> (<["global" := global]> ∅).

(** The body of the loop over [repos] in
    populateRepoHostConfigurationMap; the state is the section and the
    flag pgBackRestLogPathSet. *)
Definition repoHostRepo (sched : GoMap.Schedule) (n : nat)
    (repo : PGBackRestRepo) (st : iniMultiSet * bool) : iniMultiSet * bool :=
  let '(global, pgBackRestLogPathSet) := st in
  let global := Set_ (Name repo +:+ "-path")
                     (defaultRepo1Path +:+ Name repo) global in
  let global :=
    match Volume repo with
    | None => SetAll (GoMap.range sched n (getExternalRepoConfigs repo)) global
    | Some _ => global
    end in
  if negb pgBackRestLogPathSet && bool_decide (is_Some (Volume repo))
  then (Set_ "log-path" (PGBackRestRepoLogPath K (Name repo)) global, true)
  else (global, pgBackRestLogPathSet).

Fixpoint repoHostRepos (sched : GoMap.Schedule) (n : nat)
    (repos : list PGBackRestRepo) (st : iniMultiSet * bool)
  : iniMultiSet * bool :=
  match repos with
  | [] => st
  | repo :: rest =>
      repoHostRepos sched (S n) rest (repoHostRepo sched n repo st)
  end.

(** The body of the loop over [pgHosts], for the host at index [i]. *)
Definition repoHostStanza (serviceName serviceNamespace pgdataDir : string)
    (pgPort : Z) (i : nat) (pgHost : string) (stanza : iniMultiSet)
  : iniMultiSet :=
  let pgHostFQDN := pgHost +:+ "-0." +:+
    serviceName +:+ "." +:+ serviceNamespace +:+ ".svc." +:+
    KubernetesClusterDomain K in
  let pg := "pg" +:+ pretty (S i) in
  Set_ (pg +:+ "-socket-path") (SocketDirectory K)
    (Set_ (pg +:+ "-port") (pretty pgPort)
      (Set_ (pg +:+ "-path") pgdataDir
        (Set_ (pg +:+ "-host-key-file") (certClientPrivateKeyAbsolutePath K)
          (Set_ (pg +:+ "-host-cert-file") (certClientAbsolutePath K)
            (Set_ (pg +:+ "-host-ca-file") (certAuthorityAbsolutePath K)
              (Set_ (pg +:+ "-host-type") "tls"
                (Set_ (pg +:+ "-host") pgHostFQDN stanza))))))).

Fixpoint repoHostStanzas (serviceName serviceNamespace pgdataDir : string)
    (pgPort : Z) (i : nat) (pgHosts : list string) (stanza : iniMultiSet)
  : iniMultiSet :=
  match pgHosts with
  | [] => stanza
  | pgHost :: rest =>
      repoHostStanzas serviceName serviceNamespace pgdataDir pgPort (S i) rest
        (repoHostStanza serviceName serviceNamespace pgdataDir pgPort
           i pgHost stanza)
  end.

(** populateRepoHostConfigurationMap returns options representing the
    pgBackRest configuration for a pgBackRest dedicated repository host *)
Definition populateRepoHostConfigurationMap (sched : GoMap.Schedule)
    (serviceName serviceNamespace pgdataDir : string)
    (pgPort : Z) (pgHosts : list string) (repos : list PGBackRestRepo)
    (globalConfig : gmap string string) : iniSectionSet :=
  let global := (repoHostRepos sched 0 repos (∅, false)).1 in
  let global :=
    SetAll (GoMap.range sched (length repos) globalConfig) global in
  let stanza :=
    repoHostStanzas serviceName serviceNamespace pgdataDir pgPort
      0 pgHosts ∅ in
  <[DefaultStanzaName := stanza]> (<["global" := global]> ∅).

(** strings.EqualFold on ASCII letters, which is all of it when one side
    is "ipv6": none of its letters folds to a letter outside ASCII. *)
Definition toLower (c : ascii) : ascii :=
  let n := nat_of_ascii c in
  if ((65 <=? n) && (n <=? 90))%nat then ascii_of_nat (n + 32) else c.

Fixpoint lower (s : string) : string :=
  match s with
  | EmptyString => EmptyString
  | String c rest => String (toLower c) (lower rest)
  end.

Definition EqualFold (s t : string) : bool :=
  bool_decide (lower s = lower t).

(** serverConfig returns the options needed to run the TLS server for
    cluster. *)
Definition serverConfig (cluster : IvoryCluster) : iniSectionSet :=
  let global := Set_ "tls-server-address" "0.0.0.0" ∅ in
  let global :=
    if EqualFold
         (Metav1.index (Metav1.Annotations (ClusterMeta cluster))
            (PGBackRestIPVersion K))
         "ipv6"
    then Set_ "tls-server-address" "::" global
    else global in
  let global := Add "tls-server-auth" (clientCommonName K cluster +:+ "=*") global in
  let global := Set_ "tls-server-ca-file" (certAuthorityAbsolutePath K) global in
  let global := Set_ "tls-server-cert-file" (certServerAbsolutePath K) global in
  let global := Set_ "tls-server-key-file" (certServerPrivateKeyAbsolutePath K) global in
  let server := Set_ "log-level-console" "detail" ∅ in
  let server := Set_ "log-level-stderr" "error" server in
  let server := Set_ "log-level-file" "off" server in
  let server := Set_ "log-timestamp" "n" server in
  <["global:server" := server]> (<["global" := global]> ∅).

End Builders.

(** *** What the log settings of the server section let through

    pgBackRest orders its levels off < error < warn < info < detail <
    debug < trace.  A message goes to stderr when its level is within
    log-level-stderr, and otherwise to stdout when its level is within
    log-level-console; this is the reading the comment in serverConfig
    gives ("stderr has ERROR messages, stdout has WARN, INFO, and DETAIL
    messages"). *)
Inductive LogLevel : Type :=
  LevelOff | LevelError | LevelWarn | LevelInfo | LevelDetail | LevelDebug
| LevelTrace.

#[global] Instance LogLevel_eq_dec : EqDecision LogLevel.
Proof. solve_decision. Defined.

Definition rank (l : LogLevel) : nat :=
  match l with
  | LevelOff => 0 | LevelError => 1 | LevelWarn => 2 | LevelInfo => 3
  | LevelDetail => 4 | LevelDebug => 5 | LevelTrace => 6
  end.

Definition parseLevel (s : string) : option LogLevel :=
  if bool_decide (s = "off") then Some LevelOff
  else if bool_decide (s = "error") then Some LevelError
  else if bool_decide (s = "warn") then Some LevelWarn
  else if bool_decide (s = "info") then Some LevelInfo
  else if bool_decide (s = "detail") then Some LevelDetail
  else if bool_decide (s = "debug") then Some LevelDebug
  else if bool_decide (s = "trace") then Some LevelTrace
  else None.

(** The level an option of a section is set to; [LevelOff] when the
    section does not set it to one level. *)
Definition levelOf (section : iniMultiSet) (key : string) : LogLevel :=
  match section !! key with
  | Some [v] => default LevelOff (parseLevel v)
  | _ => LevelOff
  end.

Definition within (message limit : LogLevel) : bool :=
  (rank message <=? rank limit)%nat.

(** Messages are never of level off. *)
Definition reachesStderr (section : iniMultiSet) (message : LogLevel) : bool :=
  negb (bool_decide (message = LevelOff)) &&
  within message (levelOf section "log-level-stderr").

Definition reachesStdout (section : iniMultiSet) (message : LogLevel) : bool :=
  negb (bool_decide (message = LevelOff)) &&
  negb (within message (levelOf section "log-level-stderr")) &&
  within message (levelOf section "log-level-console").

(** The section of the TLS server in what serverConfig returns. *)
Definition serverSection (sections : iniSectionSet) : iniMultiSet :=
  default ∅ (sections !! "global:server").

End PGBackRest.

(** ** internal/ivory: huge pages *)

Module Ivory.
Import V1beta1.

(** corev1.ResourceHugePagesPrefix *)
Definition ResourceHugePagesPrefix : string := "hugepages-".

(** ResourceList.Name: the quantity of the named resource, a zero quantity
    when the list does not have it. *)
Definition LimitsName (limits : gmap string Quantity) (name : string)
  : Quantity :=
  default {| Value := 0 |} (limits !! name).

(** The inner loop of hugePagesRequested, over the names of one instance
    set's limits in the order of the visit. *)
Definition limitRequestsHugePages (limits : gmap string Quantity)
    (resourceName : string) : bool :=
  String.prefix ResourceHugePagesPrefix resourceName &&
  bool_decide (0 < Value (LimitsName limits resourceName)).

Fixpoint instancesRequestHugePages (sched : GoMap.Schedule) (n : nat)
    (instances : list IvoryInstanceSetSpec) : bool :=
  match instances with
  | [] => false
  | instance :: rest =>
      if existsb (λ entry, limitRequestsHugePages (Limits instance) entry.1)
           (GoMap.range sched n (Limits instance))
      then true
      else instancesRequestHugePages sched (S n) rest
  end.

(** This helper function checks to see if a huge_pages value greater than
    zero has been set in any of the IvoryCluster's instances' resource
    specs *)
Definition hugePagesRequested (sched : GoMap.Schedule)
    (cluster : IvoryCluster) : bool :=
  instancesRequestHugePages sched 0 (InstanceSets (ClusterSpec cluster)).

(** An instance set has a limit on huge pages above zero. *)
Definition limitsHugePages (instance : IvoryInstanceSetSpec) : Prop :=
  ∃ name quantity,
    Limits instance !! name = Some quantity ∧
    String.prefix ResourceHugePagesPrefix name = true ∧
    0 < Value quantity.

Section HugePages.
(** The type ParameterSet and its method Add are declared outside the
    files modelled here; SetHugePages is stated over any such pair. *)
Context {ParameterSet : Type}.
Context (ParameterSetAdd : string → string → ParameterSet → ParameterSet).

Record Parameters : Type := {
  Mandatory : ParameterSet;
  Default : ParameterSet
}.

(** This function looks for a valid huge_pages resource request. If it
    finds one, it sets the IvorySQL parameter "huge_pages" to "try". If
    it doesn't find one, it sets "huge_pages" to "off". *)
Definition SetHugePages (sched : GoMap.Schedule) (cluster : IvoryCluster)
    (pgParameters : Parameters) : Parameters :=
  if hugePagesRequested sched cluster
  then {| Mandatory := Mandatory pgParameters;
          Default := ParameterSetAdd "huge_pages" "try" (Default pgParameters) |}
  else {| Mandatory := Mandatory pgParameters;
          Default := ParameterSetAdd "huge_pages" "off" (Default pgParameters) |}.

End HugePages.

End Ivory.

(** ** internal/controller/postgrescluster: the exporter of pgMonitor *)

Module PGMonitor.
Import V1beta1.

Definition Error : Type := string.

Record ContainerStatus : Type := {
  ContainerName : string;
  ImageID : string
}.

Record Pod : Type := {
  PodNamespace : string;
  PodName : string;
  ContainerStatuses : list ContainerStatus
}.

(** One call of a postgres.Executor: what it is given on stdin and the
    command; it answers with an error or nil and what the command wrote. *)
Record ExecCall : Type := {
  Stdin : string;
  Command : list string
}.

Record ExecAnswer : Type := {
  ExecErr : option Error;
  Stdout : string;
  Stderr : string
}.

(** An executor changes some state [S]: the bytes hashed so far for the
    executor that only hashes, the calls made so far for PodExec. *)
Definition Executor (S : Type) : Type := ExecCall → S → ExecAnswer * S.

(** A function that drives an executor and returns an error or nil, such
    as pgmonitor.EnableExporterInPostgreSQL once its other arguments are
    given. *)
Definition Action : Type := ∀ S : Type, Executor S → S → option Error * S.

(** One call of r.PodExec. *)
Record PodExecCall : Type := {
  ExecNamespace : string;
  ExecPod : string;
  ExecContainer : string;
  ExecCallOf : ExecCall
}.

Definition exporterDB : string := "postgres".

Section Reconciler.
Context {Instance Secret : Type}.

(** What reconcilePGMonitorExporter calls and is declared outside the
    files modelled here. *)
Record Collaborators : Type := {
  ContainerDatabase : string;
  ContainerPGMonitorExporter : string;
  ExporterEnabled : IvoryCluster → bool;
  (** [instance.IsRunning(container)]: running, known *)
  IsRunning : Instance → string → bool * bool;
  EnableExporterInPostgreSQL : Secret → string → string → Action;
  DisableExporterInPostgreSQL : Action;
  (** [GetExporterSetupSQL(ctx, version)]: the script and an error *)
  GetExporterSetupSQL :
    Z → ∀ S : Type, Executor S → S → (string * option Error) * S;
  (** safeHash32, on the bytes its argument wrote *)
  hash32 : string → string;
  (** [fmt.Sprint(command, pgImageSHA, exporterImageSHA)] *)
  Sprint : list string → string → string → string;
  (** what the pod answers to the calls made so far and this one *)
  PodExec : list PodExecCall → PodExecCall → ExecAnswer
}.

Context (r : Collaborators).

(** The executor that reconcilePGMonitorExporter hands to safeHash32:
    it copies stdin and the command with the image identifiers into the
    hasher and runs nothing. *)
Definition hashing (pgImageSHA exporterImageSHA : string) : Executor string :=
  λ call written,
    ({| ExecErr := None; Stdout := ""; Stderr := "" |},
     written +:+ Stdin call +:+
       Sprint r (Command call) pgImageSHA exporterImageSHA).

(** The executor that runs in a container of the writable pod. *)
Definition inPod (writablePod : Pod) (container : string)
  : Executor (list PodExecCall) :=
  λ call calls,
    let this := {| ExecNamespace := PodNamespace writablePod;
                   ExecPod := PodName writablePod;
                   ExecContainer := container;
                   ExecCallOf := call |} in
    (PodExec r calls this, (calls ++ [this])%list).

(** The loop over writablePod.Status.ContainerStatuses. *)
Fixpoint imageIDs (statuses : list ContainerStatus)
    (exporterImageSHA pgImageSHA : string) : string * string :=
  match statuses with
  | [] => (exporterImageSHA, pgImageSHA)
  | containerStatus :: rest =>
      let exporterImageSHA :=
        if bool_decide (ContainerName containerStatus = ContainerPGMonitorExporter r)
        then ImageID containerStatus else exporterImageSHA in
      let pgImageSHA :=
        if bool_decide (ContainerName containerStatus = ContainerDatabase r)
        then ImageID containerStatus else pgImageSHA in
      imageIDs rest exporterImageSHA pgImageSHA
  end.

Record Outcome : Type := {
  Returned : option Error;
  ClusterAfter : IvoryCluster;
  PodExecs : list PodExecCall
}.

Definition recordRevision (cluster : IvoryCluster) (revision : string)
  : IvoryCluster :=
  {| ClusterMeta := ClusterMeta cluster;
     ClusterSpec := ClusterSpec cluster;
     ClusterStatus :=
       {| StatusPostgresVersion := StatusPostgresVersion (ClusterStatus cluster);
          StatusRepos := StatusRepos (ClusterStatus cluster);
          ExporterConfiguration := revision |} |}.

(** [action]: enable with the script in [setup], or disable. *)
Definition action (cluster : IvoryCluster) (monitoringSecret : Secret)
    (setup : string) : Action :=
  if ExporterEnabled r cluster
  then EnableExporterInPostgreSQL r monitoringSecret exporterDB setup
  else DisableExporterInPostgreSQL r.

(** The part of reconcilePGMonitorExporter after the revision is
    computed and found to differ. *)
Definition applyExporter (cluster : IvoryCluster) (writablePod : Pod)
    (monitoringSecret : Secret) (revision : string) : Outcome :=
  let '(setup, err, calls) :=
    if ExporterEnabled r cluster
    then
      let '((setup, err), calls) :=
        GetExporterSetupSQL r (PostgresVersion (ClusterSpec cluster)) _
          (inPod writablePod (ContainerPGMonitorExporter r)) [] in
      (setup, err, calls)
    else ("", None, []) in
  let '(err, calls) :=
    match err with
    | None =>
        action cluster monitoringSecret setup _
          (inPod writablePod (ContainerDatabase r)) calls
    | Some e => (Some e, calls)
    end in
  {| Returned := err;
     ClusterAfter :=
       match err with
       | None => recordRevision cluster revision
       | Some _ => cluster
       end;
     PodExecs := calls |}.

(** safeHash32 runs [content] on a fresh hasher and returns the hash of
    what was written, or the error of [content]. *)
Definition safeHash32 (content : string → option Error * string)
  : string * option Error :=
  match content "" with
  | (Some err, _) => ("", Some err)
  | (None, written) => (hash32 r written, None)
  end.

(** The image identifiers of the exporter and of the database in the
    writable pod; both empty when the exporter is disabled. *)
Definition images (cluster : IvoryCluster) (writablePod : Pod) : string * string :=
  if ExporterEnabled r cluster
  then imageIDs (ContainerStatuses writablePod) "" ""
  else ("", "").

(** [revision, err := safeHash32(...)]: the hash of what the action gives
    the executor, with the command and the two image identifiers. *)
Definition revision (cluster : IvoryCluster) (writablePod : Pod)
    (monitoringSecret : Secret) : string * option Error :=
  let '(exporterImageSHA, pgImageSHA) := images cluster writablePod in
  safeHash32
    (action cluster monitoringSecret "" _ (hashing pgImageSHA exporterImageSHA)).

(** reconcilePGMonitorExporter performs setup the postgres_exporter
    sidecar.  Status.Monitoring.ExporterConfiguration is used to
    determine when the pgMonitor postgres_exporter configuration should
    be added/changed to limit how often PodExec is used *)
Definition reconcilePGMonitorExporter (cluster : IvoryCluster)
    (writablePod : option Pod) (writableInstance : option Instance)
    (monitoringSecret : Secret) : Outcome :=
  let quiet := {| Returned := None; ClusterAfter := cluster; PodExecs := [] |} in
  match writableInstance, writablePod with
  | Some writableInstance, Some writablePod =>
      let enabled := ExporterEnabled r cluster in
      let '(running, known) :=
        IsRunning r writableInstance (ContainerPGMonitorExporter r) in
      if enabled && (negb running || negb known) then quiet
      else
        let '(exporterImageSHA, pgImageSHA) := images cluster writablePod in
        if enabled &&
           (bool_decide (exporterImageSHA = "") || bool_decide (pgImageSHA = ""))
        then quiet
        else
          match revision cluster writablePod monitoringSecret with
          | (_, Some err) =>
              {| Returned := Some err; ClusterAfter := cluster; PodExecs := [] |}
          | (revision, None) =>
              if bool_decide
                   (revision ≠ ExporterConfiguration (ClusterStatus cluster))
              then applyExporter cluster writablePod monitoringSecret revision
              else quiet
          end
  | _, _ => quiet
  end.

End Reconciler.

End PGMonitor.

(** ** internal/controller/ivyupgrade: the upgrade reconciler *)

Module IvyUpgrade.
Import Metav1 V1beta1.

Definition AnnotationAllowUpgrade : string :=
  "ivory-operator.highgo.com/allow-upgrade".

(** Modelled from the spec: the two condition types of an upgrade
    request, [Progressing] and [Succeeded]; the constants
    ConditionIvyUpgradeProgressing and ConditionIvyUpgradeSucceeded are
    declared outside the files modelled here. *)
Definition ConditionIvyUpgradeProgressing : string := "Progressing".
Definition ConditionIvyUpgradeSucceeded : string := "Succeeded".

(** An error of the API, as far as client.IgnoreNotFound reads it. *)
Record Error : Type := {
  ErrorMessage : string;
  IsNotFound : bool
}.

Definition IgnoreNotFound (err : option Error) : option Error :=
  match err with
  | Some e => if IsNotFound e then None else Some e
  | None => None
  end.

Record Job : Type := {
  JobMeta : ObjectMeta;
  JobConditions : list Condition
}.

Record StatefulSet : Type := { StatefulSetMeta : ObjectMeta }.
Record Endpoints : Type := { EndpointsMeta : ObjectMeta }.

(** The observed state that observeWorld returns. *)
Record World : Type := {
  Cluster : IvoryCluster;
  ClusterNotFound : option Error;
  Jobs : gmap string Job;
  ClusterShutdown : bool;
  ClusterPrimary : option StatefulSet;
  ClusterReplicas : list StatefulSet;
  PatroniEndpoints : list Endpoints;
  ReplicasExpected : Z
}.

(** ctrl.Result *)
Record Result : Type := {
  Requeue : bool;
  RequeueAfter : Z
}.

Definition noRequeue : Result := {| Requeue := false; RequeueAfter := 0 |}.

(** The calls of Reconcile that change something in the cluster. *)
Inductive Call : Type :=
| ApplyJob (job : Job)
| DeleteJob (job : Job) (uid resourceVersion : string)
| DeleteEndpoints (object : Endpoints) (uid resourceVersion : string)
| PatchClusterStatus (patch : IvoryCluster)
| PatchUpgradeStatus (upgrade : IvyUpgrade).

Definition createsJob (call : Call) : bool :=
  match call with ApplyJob _ => true | _ => false end.

Definition deletes (call : Call) : bool :=
  match call with
  | DeleteJob _ _ _ | DeleteEndpoints _ _ _ => true
  | _ => false
  end.

(** What Reconcile calls and is declared outside the files modelled here:
    the API behind r.Client, and the helpers of the package. *)
Record Reconciler : Type := {
  (** [r.Get(ctx, req.NamespacedName, upgrade)] *)
  Get : string * string → IvyUpgrade + Error;
  (** what the API answers to a call, given the calls made before it *)
  answer : list Call → Call → option Error;
  observeWorld : IvyUpgrade → World + Error;
  (** [pgUpgradeJob(upgrade).Name] *)
  pgUpgradeJobName : IvyUpgrade → string;
  jobCompleted : Job → bool;
  jobFailed : Job → bool;
  generateUpgradeJob : IvyUpgrade → option StatefulSet → Job;
  generateRemoveDataJob : IvyUpgrade → StatefulSet → Job;
  LabelRole : string;
  removeData : string;
  LabelPGBackRestBackup : string;
  ReplicaCreate : string;
  (** [time.Now()] *)
  now : Z
}.

Definition withConditions (upgrade : IvyUpgrade)
    (conditions : list Condition) : IvyUpgrade :=
  {| UpgradeMeta := UpgradeMeta upgrade;
     UpgradeSpec := UpgradeSpec upgrade;
     UpgradeStatus := {| Conditions := conditions |} |}.

Section Reconcile.
Context (r : Reconciler).

(** What the body of Reconcile leaves when it returns, before the
    deferred function runs: the upgrade as changed in memory, the two
    results, and the calls made. *)
Record Exit : Type := {
  ExitUpgrade : IvyUpgrade;
  ExitResult : Result;
  ExitErr : option Error;
  ExitCalls : list Call
}.

(** [meta.SetStatusCondition(&upgrade.Status.Conditions, condition)] *)
Definition setCondition (upgrade : IvyUpgrade) (condition : Condition)
  : IvyUpgrade :=
  withConditions upgrade
    (Meta.SetStatusCondition (now r)
       (Conditions (UpgradeStatus upgrade)) condition).

Definition progressing (upgrade : IvyUpgrade) (status : ConditionStatus)
    (reason message : string) : Condition :=
  {| Type_ := ConditionIvyUpgradeProgressing;
     Status := status;
     ObservedGeneration := Generation (UpgradeMeta upgrade);
     LastTransitionTime := None;
     Reason := reason;
     Message := message |}.

Definition succeeded (upgrade : IvyUpgrade) (status : ConditionStatus)
    (reason message : string) : Condition :=
  {| Type_ := ConditionIvyUpgradeSucceeded;
     Status := status;
     ObservedGeneration := Generation (UpgradeMeta upgrade);
     LastTransitionTime := None;
     Reason := reason;
     Message := message |}.

Definition setStatusToProgressingIfReasonWas (reason : string)
    (upgrade : IvyUpgrade) : IvyUpgrade :=
  let set :=
    setCondition upgrade
      (progressing upgrade ConditionTrue "IvyUpgradeProgressing"
         ("Upgrade progressing for cluster " +:+
            IvoryClusterName (UpgradeSpec upgrade))) in
  match Meta.FindStatusCondition (Conditions (UpgradeStatus upgrade))
          ConditionIvyUpgradeProgressing with
  | None => set
  | Some found => if bool_decide (Reason found = reason) then set else upgrade
  end.

(** The loop that counts the remove-data jobs: it stops at the first one
    that failed without having completed. *)
Fixpoint removeDataJobs (jobs : list (string * Job))
    (completed : list Job) : list Job * bool :=
  match jobs with
  | [] => (completed, false)
  | (_, job) :: rest =>
      if bool_decide (index (Labels (JobMeta job)) (LabelRole r) = removeData r)
      then
        if jobCompleted r job
        then removeDataJobs rest (completed ++ [job])%list
        else if jobFailed r job then (completed, true)
        else removeDataJobs rest completed
      else removeDataJobs rest completed
  end.

(** The loop that deletes the replica-create jobs. *)
Fixpoint deleteReplicaCreate (jobs : list (string * Job))
    (err : option Error) (calls : list Call) : option Error * list Call :=
  match jobs with
  | [] => (err, calls)
  | (_, object) :: rest =>
      if bool_decide (err = None) &&
         bool_decide (index (Labels (JobMeta object)) (LabelPGBackRestBackup r)
                      = ReplicaCreate r)
      then
        let call := DeleteJob object (UID (JobMeta object))
                      (ResourceVersion (JobMeta object)) in
        deleteReplicaCreate rest (IgnoreNotFound (answer r calls call))
          (calls ++ [call])%list
      else deleteReplicaCreate rest err calls
  end.

(** The loop that creates the remove-data jobs. *)
Fixpoint applyRemoveData (upgrade : IvyUpgrade) (replicas : list StatefulSet)
    (err : option Error) (calls : list Call) : option Error * list Call :=
  match replicas with
  | [] => (err, calls)
  | sts :: rest =>
      match err with
      | None =>
          let call := ApplyJob (generateRemoveDataJob r upgrade sts) in
          applyRemoveData upgrade rest (answer r calls call) (calls ++ [call])%list
      | Some _ => applyRemoveData upgrade rest err calls
      end
  end.

(** The loop that deletes the endpoints of Patroni. *)
Fixpoint deleteEndpoints (objects : list Endpoints)
    (err : option Error) (calls : list Call) : option Error * list Call :=
  match objects with
  | [] => (err, calls)
  | object :: rest =>
      let call := DeleteEndpoints object (UID (EndpointsMeta object))
                    (ResourceVersion (EndpointsMeta object)) in
      deleteEndpoints rest (IgnoreNotFound (answer r calls call))
        (calls ++ [call])%list
  end.

(** [return ctrl.Result{}, nil] after a change of the conditions. *)
Definition stop (upgrade : IvyUpgrade) : Exit :=
  {| ExitUpgrade := upgrade; ExitResult := noRequeue;
     ExitErr := None; ExitCalls := [] |}.

Definition withStatus (cluster : IvoryCluster) (version : Z)
    (repos : list RepoStatus) : IvoryCluster :=
  {| ClusterMeta := ClusterMeta cluster;
     ClusterSpec := ClusterSpec cluster;
     ClusterStatus :=
       {| StatusPostgresVersion := version;
          StatusRepos := repos;
          ExporterConfiguration := ExporterConfiguration (ClusterStatus cluster) |} |}.

(** Reconcile from "If we have reached this point, all preconditions for
    upgrade are satisfied" to its end. *)
Definition drive (sched : GoMap.Schedule) (upgrade : IvyUpgrade) (world : World)
    (upgradeJobComplete removeDataJobsComplete : bool) : Exit :=
  let statusVersion := StatusPostgresVersion (ClusterStatus (Cluster world)) in
  if upgradeJobComplete && removeDataJobsComplete &&
     bool_decide (statusVersion ≠ ToIvoryVersion (UpgradeSpec upgrade))
  then
    let '(err, calls) :=
      deleteReplicaCreate (GoMap.range sched 1 (Jobs world)) None [] in
    let '(err, calls) :=
      match err with
      | None =>
          let call := PatchClusterStatus
            (withStatus (Cluster world) (ToIvoryVersion (UpgradeSpec upgrade)) []) in
          (answer r calls call, (calls ++ [call])%list)
      | Some _ => (err, calls)
      end in
    {| ExitUpgrade := upgrade; ExitResult := noRequeue;
       ExitErr := err; ExitCalls := calls |}
  else
    let '(err, calls) :=
      if negb upgradeJobComplete
      then
        let call := ApplyJob (generateUpgradeJob r upgrade (ClusterPrimary world)) in
        (answer r [] call, [call])
      else (None, []) in
    let '(err, calls) :=
      if bool_decide (err = None) && upgradeJobComplete &&
         negb removeDataJobsComplete
      then applyRemoveData upgrade (ClusterReplicas world) err calls
      else (err, calls) in
    match PatroniEndpoints world with
    | _ :: _ =>
        let '(err, calls) := deleteEndpoints (PatroniEndpoints world) err calls in
        {| ExitUpgrade := upgrade;
           ExitResult := {| Requeue := true; RequeueAfter := 0 |};
           ExitErr := err; ExitCalls := calls |}
    | [] =>
        {| ExitUpgrade := upgrade; ExitResult := noRequeue;
           ExitErr := err; ExitCalls := calls |}
    end.

(** [upgradeJob != nil && jobCompleted(upgradeJob)], and the same for
    jobFailed, where upgradeJob is the job of [world.Jobs] under the name
    of the upgrade job. *)
Definition upgradeJobComplete (upgrade : IvyUpgrade) (world : World) : bool :=
  match Jobs world !! pgUpgradeJobName r upgrade with
  | Some job => jobCompleted r job
  | None => false
  end.

Definition upgradeJobFailed (upgrade : IvyUpgrade) (world : World) : bool :=
  match Jobs world !! pgUpgradeJobName r upgrade with
  | Some job => jobFailed r job
  | None => false
  end.

(** Reconcile from "ClusterNotFound cannot be fixed by requeuing" to the
    check of the jobs that failed: the gates on the observed world. *)
Definition gates (sched : GoMap.Schedule) (upgrade : IvyUpgrade) (world : World)
  : Exit :=
  match ClusterNotFound world with
  | Some notFound =>
      stop (setCondition upgrade
              (progressing upgrade ConditionFalse "PGClusterNotFound"
                 (ErrorMessage notFound)))
  | None =>
  let upgrade := setStatusToProgressingIfReasonWas "PGClusterNotFound" upgrade in
  let version := PostgresVersion (ClusterSpec (Cluster world)) in
  let statusVersion := StatusPostgresVersion (ClusterStatus (Cluster world)) in
  let upgradeJobComplete := upgradeJobComplete upgrade world in
  let upgradeJobFailed := upgradeJobFailed upgrade world in
  let '(removeDataJobsCompleted, removeDataJobsFailed) :=
    removeDataJobs (GoMap.range sched 0 (Jobs world)) [] in
  let removeDataJobsComplete :=
    bool_decide (Z.of_nat (length removeDataJobsCompleted) = ReplicasExpected world) in
  let from := FromIvoryVersion (UpgradeSpec upgrade) in
  let to := ToIvoryVersion (UpgradeSpec upgrade) in
  let cluster := IvoryClusterName (UpgradeSpec upgrade) in
  if bool_decide (version = to) && negb upgradeJobComplete then
    stop (setCondition upgrade
            (progressing upgrade ConditionFalse "IvyUpgradeResolved"
               ("IvoryCluster " +:+ cluster +:+
                " is already running version " +:+ pretty to)))
  else
  let upgrade := setStatusToProgressingIfReasonWas "IvyUpgradeResolved" upgrade in
  if bool_decide (statusVersion = to) then
    let upgrade :=
      setCondition upgrade
        (progressing upgrade ConditionFalse "IvyUpgradeCompleted"
           ("IvoryCluster " +:+ cluster +:+
            " is running version " +:+ pretty to)) in
    let upgrade :=
      if upgradeJobComplete && removeDataJobsComplete
      then setCondition upgrade
             (succeeded upgrade ConditionTrue "IvyUpgradeSucceeded"
                ("IvoryCluster " +:+ cluster +:+
                 " is ready to complete upgrade to version " +:+ pretty to))
      else upgrade in
    stop upgrade
  else
  if negb (ClusterShutdown world) ||
     bool_decide (ClusterPrimary world = None) then
    stop (setCondition upgrade
            (progressing upgrade ConditionFalse "PGClusterNotShutdown"
               "IvoryCluster instances still running"))
  else
  let upgrade := setStatusToProgressingIfReasonWas "PGClusterNotShutdown" upgrade in
  if bool_decide (version ≠ from) && bool_decide (statusVersion ≠ to) then
    stop (setCondition upgrade
            (progressing upgrade ConditionFalse "IvyUpgradeInvalidForCluster"
               ("Current ivory version is " +:+ pretty version +:+
                ", but upgrade expected " +:+ pretty from)))
  else
  let upgrade :=
    setStatusToProgressingIfReasonWas "IvyUpgradeInvalidForCluster" upgrade in
  if negb (bool_decide
             (index (Annotations (ClusterMeta (Cluster world)))
                AnnotationAllowUpgrade
              = Metav1.Name (UpgradeMeta upgrade))) then
    stop (setCondition upgrade
            (progressing upgrade ConditionFalse "PGClusterMissingRequiredAnnotation"
               ("IvoryCluster " +:+ cluster +:+
                " lacks annotation for upgrade " +:+ Metav1.Name (UpgradeMeta upgrade))))
  else
  let upgrade :=
    setStatusToProgressingIfReasonWas "PGClusterMissingRequiredAnnotation" upgrade in
  if upgradeJobFailed || removeDataJobsFailed then
    stop (setCondition upgrade
            (succeeded upgrade ConditionFalse "IvyUpgradeFailed"
               "Upgrade jobs failed, please check individual pod logs"))
  else drive sched upgrade world upgradeJobComplete removeDataJobsComplete
  end.

(** [succeeded != nil && succeeded.Reason == "IvyUpgradeSucceeded"] *)
Definition successReached (upgrade : IvyUpgrade) : bool :=
  match Meta.FindStatusCondition (Conditions (UpgradeStatus upgrade))
          ConditionIvyUpgradeSucceeded with
  | Some found => bool_decide (Reason found = "IvyUpgradeSucceeded")
  | None => false
  end.

(** The upgrade as Reconcile has it in memory when it calls observeWorld,
    and when it reads the world that observeWorld returned. *)
Definition whenObserving (upgrade : IvyUpgrade) : IvyUpgrade :=
  setStatusToProgressingIfReasonWas "IvyUpgradeInvalid"
    (setStatusToProgressingIfReasonWas "" upgrade).

Definition whenObserved (upgrade : IvyUpgrade) : IvyUpgrade :=
  setStatusToProgressingIfReasonWas "PGClusterNotFound"
    (setStatusToProgressingIfReasonWas "PGClusterErrorWhenObservingWorld"
       (whenObserving upgrade)).

(** Reconcile after the upgrade is read and the deferred function is
    registered: the check of the conditions reached, the check of the
    versions, and the observation of the world. *)
Definition body (sched : GoMap.Schedule) (upgrade : IvyUpgrade) : Exit :=
  let unchanged :=
    {| ExitUpgrade := upgrade; ExitResult := noRequeue;
       ExitErr := None; ExitCalls := [] |} in
  if successReached upgrade then unchanged
  else
  let upgrade := setStatusToProgressingIfReasonWas "" upgrade in
  let from := FromIvoryVersion (UpgradeSpec upgrade) in
  let to := ToIvoryVersion (UpgradeSpec upgrade) in
  if bool_decide (to ≤ from) then
    stop (setCondition upgrade
            (progressing upgrade ConditionFalse "IvyUpgradeInvalid"
               ("Cannot upgrade from ivory version " +:+ pretty from +:+
                " to " +:+ pretty to)))
  else
  let upgrade := setStatusToProgressingIfReasonWas "IvyUpgradeInvalid" upgrade in
  match observeWorld r upgrade with
  | inr err =>
      {| ExitUpgrade :=
           setCondition upgrade
             (progressing upgrade ConditionFalse
                "PGClusterErrorWhenObservingWorld" (ErrorMessage err));
         ExitResult := noRequeue;
         ExitErr := Some err;
         ExitCalls := [] |}
  | inl world =>
      gates sched
        (setStatusToProgressingIfReasonWas "PGClusterErrorWhenObservingWorld" upgrade)
        world
  end.

(** What one call of Reconcile comes to: the two results, the upgrade as
    it is in memory at the end ([None] when it could not be read), and
    the calls made, the patch of the status last. *)
Record Outcome : Type := {
  Returned : Result;
  ReturnedErr : option Error;
  UpgradeAfter : option IvyUpgrade;
  Calls : list Call
}.

(** Reconcile does the work to move the current state of the world
    toward the desired state described in a [v1beta1.IvyUpgrade]
    identified by req. *)
Definition Reconcile (sched : GoMap.Schedule) (req : string * string)
  : Outcome :=
  match Get r req with
  | inr err =>
      {| Returned := noRequeue;
         ReturnedErr := IgnoreNotFound (Some err);
         UpgradeAfter := None;
         Calls := [] |}
  | inl before =>
      let exit := body sched before in
      let upgrade := ExitUpgrade exit in
      if bool_decide (UpgradeStatus before = UpgradeStatus upgrade)
      then
        {| Returned := ExitResult exit;
           ReturnedErr := ExitErr exit;
           UpgradeAfter := Some upgrade;
           Calls := ExitCalls exit |}
      else
        let call := PatchUpgradeStatus upgrade in
        let status := answer r (ExitCalls exit) call in
        {| Returned := ExitResult exit;
           ReturnedErr :=
             match ExitErr exit with
             | None => status
             | Some err => Some err
             end;
           UpgradeAfter := Some upgrade;
           Calls := (ExitCalls exit ++ [call])%list |}
  end.

(** The Progressing condition of an upgrade has this status and reason. *)
Definition progressingIs (upgrade : IvyUpgrade) (status : ConditionStatus)
    (reason : string) : Prop :=
  ∃ found,
    Meta.FindStatusCondition (Conditions (UpgradeStatus upgrade))
      ConditionIvyUpgradeProgressing = Some found ∧
    Status found = status ∧ Reason found = reason.

(** The Succeeded condition of an upgrade, when it has one. *)
Definition succeededOf (upgrade : IvyUpgrade) : option Condition :=
  Meta.FindStatusCondition (Conditions (UpgradeStatus upgrade))
    ConditionIvyUpgradeSucceeded.

(** The calls of an outcome create no job. *)
Definition createsNoJob (calls : list Call) : Prop :=
  ∀ call, call ∈ calls → createsJob call = false.

End Reconcile.

End IvyUpgrade.


(** ** The keys of the stanza section *)

Module Keys.
Import V1beta1 PGBackRest.

(** [fmt.Sprintf("pg%d" + suffix, i)] *)
Definition pgKey (i : nat) (suffix : string) : string :=
  "pg" +:+ pretty i +:+ suffix.

(** The suffixes of the keys that the repository host builder sets for each
    host. *)
Definition hostSuffixes : list string :=
  ["-host"; "-host-type"; "-host-ca-file"; "-host-cert-file"; "-host-key-file";
   "-path"; "-port"; "-socket-path"].

(** What the repository host builder sets the key of a host to, by suffix. *)
Definition hostValue (K : Names)
    (serviceName serviceNamespace pgdataDir : string) (pgPort : Z)
    (pgHost suffix : string) : string :=
  if bool_decide (suffix = "-host") then
    pgHost +:+ "-0." +:+ serviceName +:+ "." +:+ serviceNamespace +:+
      ".svc." +:+ KubernetesClusterDomain K
  else if bool_decide (suffix = "-host-type") then "tls"
  else if bool_decide (suffix = "-host-ca-file") then certAuthorityAbsolutePath K
  else if bool_decide (suffix = "-host-cert-file") then certClientAbsolutePath K
  else if bool_decide (suffix = "-host-key-file") then certClientPrivateKeyAbsolutePath K
  else if bool_decide (suffix = "-path") then pgdataDir
  else if bool_decide (suffix = "-port") then pretty pgPort
  else SocketDirectory K.

Definition isDigit (c : ascii) : bool :=
  match Ascii.is_nat c with Some _ => true | None => false end.

Fixpoint digitsOnly (s : string) : bool :=
  match s with
  | EmptyString => true
  | String c rest => isDigit c && digitsOnly rest
  end.

(** The digits a string starts with, and what follows them. *)
Fixpoint takeDigits (s : string) : string :=
  match s with
  | EmptyString => EmptyString
  | String c rest => if isDigit c then String c (takeDigits rest) else EmptyString
  end.

Fixpoint dropDigits (s : string) : string :=
  match s with
  | EmptyString => EmptyString
  | String c rest => if isDigit c then dropDigits rest else s
  end.

(** The first repository of a list that is backed by a volume. *)
Definition firstVolume (repos : list PGBackRestRepo) : option PGBackRestRepo :=
  find (λ repo, bool_decide (is_Some (Volume repo))) repos.

(** The sections of a section set. *)
Definition globalSection (sections : gmap string (gmap string (list string)))
  : gmap string (list string) :=
  default ∅ (sections !! "global").

Definition stanzaSection (sections : gmap string (gmap string (list string)))
  : gmap string (list string) :=
  default ∅ (sections !! DefaultStanzaName).

End Keys.


(** ** Sample inputs *)

Module Samples.
Import Metav1 V1beta1.

Definition names : PGBackRest.Names :=
  {| PGBackRest.PGBackRestPGDataLogPath := "/pgdata/pgbackrest/log";
     PGBackRest.PGBackRestRepoLogPath := λ name, "/pgbackrest/" +:+ name +:+ "/log";
     PGBackRest.KubernetesClusterDomain := "cluster.local";
     PGBackRest.certAuthorityAbsolutePath := "/etc/pgbackrest/conf.d/~ivory-operator/tls-ca.crt";
     PGBackRest.certClientAbsolutePath := "/etc/pgbackrest/conf.d/~ivory-operator/client-tls.crt";
     PGBackRest.certClientPrivateKeyAbsolutePath := "/etc/pgbackrest/conf.d/~ivory-operator/client-tls.key";
     PGBackRest.certServerAbsolutePath := "/etc/pgbackrest/server/server-tls.crt";
     PGBackRest.certServerPrivateKeyAbsolutePath := "/etc/pgbackrest/server/server-tls.key";
     PGBackRest.SocketDirectory := "/tmp/ivory";
     PGBackRest.PGBackRestIPVersion := "ivory-operator.highgo.com/pgbackrest-ip-version";
     PGBackRest.clientCommonName := λ cluster, "pgbackrest@" +:+ UID (ClusterMeta cluster) |}.

Definition s3 (name : string) : PGBackRestRepo :=
  {| Name := name; Azure := None; GCS := None;
     S3 := Some {| Bucket := "bucket"; Endpoint := "s3.example.com"; Region := "eu" |};
     Volume := None |}.

Definition volume (name : string) : PGBackRestRepo :=
  {| Name := name; Azure := None; GCS := None; S3 := None;
     Volume := Some {| VolumeClaimSpec := "1Gi" |} |}.


Definition meta (name : string) : ObjectMeta :=
  {| Metav1.Name := name; Namespace := "ivory"; UID := "uid-" +:+ name;
     ResourceVersion := "1"; Generation := 1;
     Labels := ∅; Annotations := ∅ |}.

(** A cluster at version [version], declared and running, without
    annotations. *)
Definition cluster (version : Z) : IvoryCluster :=
  {| ClusterMeta := meta "hippo";
     ClusterSpec := {| PostgresVersion := version; InstanceSets := [];
                       Repos := []; Global := ∅ |};
     ClusterStatus := {| StatusPostgresVersion := version; StatusRepos := [];
                         ExporterConfiguration := "" |} |}.

Definition condition (type : string) (status : ConditionStatus)
    (reason : string) : Condition :=
  {| Type_ := type; Status := status; ObservedGeneration := 1;
     LastTransitionTime := Some 1700000000; Reason := reason; Message := "" |}.

(** The conditions that a successful upgrade ends with. *)
Definition conditionsOfSuccess : list Condition :=
  [condition "Progressing" ConditionFalse "IvyUpgradeCompleted";
   condition "Succeeded" ConditionTrue "IvyUpgradeSucceeded"].

(** The upgrade "hippo-upgrade" of the cluster "hippo". *)
Definition upgrade (from to : Z) (conditions : list Condition) : IvyUpgrade :=
  {| UpgradeMeta := meta "hippo-upgrade";
     UpgradeSpec := {| IvoryClusterName := "hippo";
                       FromIvoryVersion := from; ToIvoryVersion := to |};
     UpgradeStatus := {| Conditions := conditions |} |}.

(** A world with the cluster found, no job and no endpoints. *)
Definition world (cluster : IvoryCluster) (shutdown : bool) : IvyUpgrade.World :=
  {| IvyUpgrade.Cluster := cluster;
     IvyUpgrade.ClusterNotFound := None;
     IvyUpgrade.Jobs := ∅;
     IvyUpgrade.ClusterShutdown := shutdown;
     IvyUpgrade.ClusterPrimary :=
       if shutdown
       then Some {| IvyUpgrade.StatefulSetMeta := meta "hippo-instance1" |}
       else None;
     IvyUpgrade.ClusterReplicas := [];
     IvyUpgrade.PatroniEndpoints := [];
     IvyUpgrade.ReplicasExpected := 0 |}.

Definition hasCondition (type : string) (job : IvyUpgrade.Job) : bool :=
  match Meta.FindStatusCondition (IvyUpgrade.JobConditions job) type with
  | Some found => bool_decide (Status found = ConditionTrue)
  | None => false
  end.

(** A reconciler whose API returns [stored] for every request, observes
    [observed] and answers the calls with [answer]. *)
Definition reconcilerAnswering
    (answer : list IvyUpgrade.Call → IvyUpgrade.Call → option IvyUpgrade.Error)
    (stored : IvyUpgrade) (observed : IvyUpgrade.World)
  : IvyUpgrade.Reconciler :=
  {| IvyUpgrade.Get := λ _, inl stored;
     IvyUpgrade.answer := answer;
     IvyUpgrade.observeWorld := λ _, inl observed;
     IvyUpgrade.pgUpgradeJobName := λ upgrade,
       Metav1.Name (UpgradeMeta upgrade) +:+ "-pgdata";
     IvyUpgrade.jobCompleted := hasCondition "Complete";
     IvyUpgrade.jobFailed := hasCondition "Failed";
     IvyUpgrade.generateUpgradeJob := λ upgrade _,
       {| IvyUpgrade.JobMeta := meta (Metav1.Name (UpgradeMeta upgrade) +:+ "-pgdata");
          IvyUpgrade.JobConditions := [] |};
     IvyUpgrade.generateRemoveDataJob := λ upgrade sts,
       {| IvyUpgrade.JobMeta :=
            meta (Metav1.Name (IvyUpgrade.StatefulSetMeta sts) +:+ "-pgdata");
          IvyUpgrade.JobConditions := [] |};
     IvyUpgrade.LabelRole := "ivory-operator.highgo.com/role";
     IvyUpgrade.removeData := "removedata";
     IvyUpgrade.LabelPGBackRestBackup := "ivory-operator.highgo.com/pgbackrest-backup";
     IvyUpgrade.ReplicaCreate := "replica-create";
     IvyUpgrade.now := 1700000001 |}.

(** The API accepts every call; the API refuses to patch the status of an
    upgrade. *)
Definition reconciler : IvyUpgrade → IvyUpgrade.World → IvyUpgrade.Reconciler :=
  reconcilerAnswering (λ _ _, None).

Definition conflict : IvyUpgrade.Error :=
  {| IvyUpgrade.ErrorMessage := "the object has been modified";
     IvyUpgrade.IsNotFound := false |}.

Definition refusingPatches : IvyUpgrade → IvyUpgrade.World → IvyUpgrade.Reconciler :=
  reconcilerAnswering
    (λ _ call, match call with
               | IvyUpgrade.PatchUpgradeStatus _ => Some conflict
               | _ => None
               end).

Definition request : string * string := ("ivory", "hippo-upgrade").

(** An upgrade from 14 to 15 that has succeeded, and one that has not run;
    an upgrade from 15 to 14. *)
Definition succeededUpgrade : IvyUpgrade := upgrade 14 15 conditionsOfSuccess.
Definition newUpgrade : IvyUpgrade := upgrade 14 15 [].
Definition backwardsUpgrade : IvyUpgrade := upgrade 15 14 [].

(** The cluster at 14, shut down, without the annotation; the cluster
    already declared at 15. *)
Definition shutdownAt14 : IvyUpgrade.World := world (cluster 14) true.

(** The same cluster, with the annotation that allows "hippo-upgrade". *)
Definition allowedAt14 : IvyUpgrade.World :=
  world
    {| ClusterMeta :=
         {| Metav1.Name := "hippo"; Namespace := "ivory"; UID := "uid-hippo";
            ResourceVersion := "1"; Generation := 1; Labels := ∅;
            Annotations :=
              {[ "ivory-operator.highgo.com/allow-upgrade" := "hippo-upgrade" ]} |};
       ClusterSpec := ClusterSpec (cluster 14);
       ClusterStatus := ClusterStatus (cluster 14) |}
    true.
Definition declaredAt15 : IvyUpgrade.World := world (cluster 15) true.

(** A cluster with one instance set that limits hugepages-2Mi to 16. *)
Definition hugePagesCluster : IvoryCluster :=
  {| ClusterMeta := meta "hippo";
     ClusterSpec :=
       {| PostgresVersion := 15;
          InstanceSets :=
            [ {| InstanceName := "instance1";
                 Limits := {[ "cpu" := {| Value := 2 |};
                              "hugepages-2Mi" := {| Value := 16 |} ]} |} ];
          Repos := []; Global := ∅ |};
     ClusterStatus := {| StatusPostgresVersion := 15; StatusRepos := [];
                         ExporterConfiguration := "" |} |}.

(** The repositories S3("a"), Volume("b"), Volume("c"). *)
Definition repos_a_b_c : list PGBackRestRepo := [s3 "a"; volume "b"; volume "c"].

End Samples.


(** ** One pass of the upgrade reconciler, gate by gate *)

Module UpgradePass.
Import Metav1 V1beta1 IvyUpgrade.

Section Pass.
Context (r : Reconciler).

(** [removeDataJobsFailed] and [removeDataJobsComplete], as Reconcile
    computes them from the first range over [world.Jobs]. *)
Definition removeDataJobsFailed (sched : GoMap.Schedule) (world : World) : bool :=
  (removeDataJobs r (GoMap.range sched 0 (Jobs world)) []).2.

Definition removeDataJobsComplete (sched : GoMap.Schedule) (world : World) : bool :=
  bool_decide
    (Z.of_nat (length (removeDataJobs r (GoMap.range sched 0 (Jobs world)) []).1)
     = ReplicasExpected world).

(** The upgrade as Reconcile has it in memory after the gate of the
    annotation, when it looks at the jobs. *)
Definition whenDriving (upgrade : IvyUpgrade) : IvyUpgrade :=
  setStatusToProgressingIfReasonWas r "PGClusterMissingRequiredAnnotation"
    (setStatusToProgressingIfReasonWas r "IvyUpgradeInvalidForCluster"
       (setStatusToProgressingIfReasonWas r "PGClusterNotShutdown"
          (setStatusToProgressingIfReasonWas r "IvyUpgradeResolved"
             (whenObserved r upgrade)))).

(** Every gate of Reconcile is open: "all preconditions for upgrade are
    satisfied". *)
Definition preconditions (sched : GoMap.Schedule) (upgrade : IvyUpgrade)
    (world : World) : Prop :=
  successReached upgrade = false ∧
  FromIvoryVersion (UpgradeSpec upgrade) < ToIvoryVersion (UpgradeSpec upgrade) ∧
  observeWorld r (whenObserving r upgrade) = inl world ∧
  ClusterNotFound world = None ∧
  StatusPostgresVersion (ClusterStatus (Cluster world))
    ≠ ToIvoryVersion (UpgradeSpec upgrade) ∧
  PostgresVersion (ClusterSpec (Cluster world))
    = FromIvoryVersion (UpgradeSpec upgrade) ∧
  ClusterShutdown world = true ∧
  is_Some (ClusterPrimary world) ∧
  index (Annotations (ClusterMeta (Cluster world))) AnnotationAllowUpgrade
    = Metav1.Name (UpgradeMeta upgrade) ∧
  upgradeJobFailed r (whenObserved r upgrade) world = false ∧
  removeDataJobsFailed sched world = false.

(** The upgrade on the right is the one on the left after some conditions
    of the types Progressing and Succeeded were set. *)
Inductive conditionsSet : IvyUpgrade → IvyUpgrade → Prop :=
| conditionsSet_none upgrade : conditionsSet upgrade upgrade
| conditionsSet_more upgrade after condition :
    conditionsSet upgrade after →
    Type_ condition = ConditionIvyUpgradeProgressing ∨
    Type_ condition = ConditionIvyUpgradeSucceeded →
    conditionsSet upgrade (setCondition r after condition).

(** An entry of [world.Jobs] that the first range over the jobs counts: a
    remove-data job that is complete. *)
Definition removed (entry : string * Job) : bool :=
  bool_decide (index (Labels (JobMeta entry.2)) (LabelRole r) = removeData r)
  && jobCompleted r entry.2.

End Pass.

(** The kind of a call. *)
Definition patchesUpgrade (call : Call) : bool :=
  match call with PatchUpgradeStatus _ => true | _ => false end.

End UpgradePass.

(** ** The calls that Reconcile can make once the gates are open *)

Module UpgradeCalls.
Import Metav1 V1beta1 IvyUpgrade.

Section Calls.
Context (r : Reconciler).

(** [upgradeJobComplete && removeDataJobsComplete && statusVersion != to]:
    the jobs have run and the status of the cluster does not say so yet. *)
Definition jobsDone (upgrade : IvyUpgrade) (world : World)
    (upgradeJobComplete removeDataJobsComplete : bool) : bool :=
  upgradeJobComplete && removeDataJobsComplete &&
  bool_decide (StatusPostgresVersion (ClusterStatus (Cluster world))
               ≠ ToIvoryVersion (UpgradeSpec upgrade)).

(** What a call made after the gates can be: the upgrade job while it is
    not complete, a remove-data job of a replica once it is, the deletion of
    an endpoint of Patroni under its own UID and resource version; or, when
    the jobs are done, the deletion of a replica-create job under its own
    UID and resource version, and the patch of the status of the cluster. *)
Definition driven (sched : GoMap.Schedule) (upgrade : IvyUpgrade) (world : World)
    (upgradeJobComplete removeDataJobsComplete : bool) (call : Call) : Prop :=
  let done := jobsDone upgrade world upgradeJobComplete removeDataJobsComplete in
  match call with
  | ApplyJob job =>
      done = false ∧
      ((upgradeJobComplete = false ∧
        job = generateUpgradeJob r upgrade (ClusterPrimary world)) ∨
       (upgradeJobComplete = true ∧ removeDataJobsComplete = false ∧
        ∃ sts, sts ∈ ClusterReplicas world ∧
               job = generateRemoveDataJob r upgrade sts))
  | DeleteEndpoints object uid resourceVersion =>
      done = false ∧ object ∈ PatroniEndpoints world ∧
      uid = UID (EndpointsMeta object) ∧
      resourceVersion = ResourceVersion (EndpointsMeta object)
  | DeleteJob job uid resourceVersion =>
      done = true ∧
      (∃ name, (name, job) ∈ GoMap.range sched 1 (Jobs world)) ∧
      index (Labels (JobMeta job)) (LabelPGBackRestBackup r) = ReplicaCreate r ∧
      uid = UID (JobMeta job) ∧
      resourceVersion = ResourceVersion (JobMeta job)
  | PatchClusterStatus patch =>
      done = true ∧
      patch = withStatus (Cluster world) (ToIvoryVersion (UpgradeSpec upgrade)) []
  | PatchUpgradeStatus _ => False
  end.

End Calls.

End UpgradeCalls.

(** ** More sample inputs for the upgrade reconciler *)

Module UpgradeSamples.
Import Metav1 V1beta1.

Definition job (name : string) (labels : gmap string string)
    (conditions : list Condition) : IvyUpgrade.Job :=
  {| IvyUpgrade.JobMeta :=
       {| Metav1.Name := name; Namespace := "ivory"; UID := "uid-" +:+ name;
          ResourceVersion := "7"; Generation := 1;
          Labels := labels; Annotations := ∅ |};
     IvyUpgrade.JobConditions := conditions |}.

Definition complete : list Condition :=
  [Samples.condition "Complete" ConditionTrue "Completed"].
Definition failed : list Condition :=
  [Samples.condition "Failed" ConditionTrue "BackoffLimitExceeded"].

Definition removeDataLabels : gmap string string :=
  {[ "ivory-operator.highgo.com/role" := "removedata" ]}.
Definition replicaCreateLabels : gmap string string :=
  {[ "ivory-operator.highgo.com/pgbackrest-backup" := "replica-create" ]}.

(** The world of the annotated cluster at [version] in its specification
    and [statusVersion] in its status, shut down, with these jobs, replicas
    and endpoints. *)
Definition world (version statusVersion : Z) (jobs : gmap string IvyUpgrade.Job)
    (replicas : list string) (endpoints : list string) : IvyUpgrade.World :=
  {| IvyUpgrade.Cluster :=
       {| ClusterMeta := ClusterMeta (IvyUpgrade.Cluster Samples.allowedAt14);
          ClusterSpec := {| PostgresVersion := version; InstanceSets := [];
                            Repos := []; Global := ∅ |};
          ClusterStatus := {| StatusPostgresVersion := statusVersion;
                              StatusRepos := [ {| RepoName := "repo1";
                                                  StanzaCreated := true |} ];
                              ExporterConfiguration := "" |} |};
     IvyUpgrade.ClusterNotFound := None;
     IvyUpgrade.Jobs := jobs;
     IvyUpgrade.ClusterShutdown := true;
     IvyUpgrade.ClusterPrimary :=
       Some {| IvyUpgrade.StatefulSetMeta := Samples.meta "hippo-instance1" |};
     IvyUpgrade.ClusterReplicas :=
       (λ name, {| IvyUpgrade.StatefulSetMeta := Samples.meta name |}) <$> replicas;
     IvyUpgrade.PatroniEndpoints :=
       (λ name, {| IvyUpgrade.EndpointsMeta := Samples.meta name |}) <$> endpoints;
     IvyUpgrade.ReplicasExpected := Z.of_nat (length replicas) |}.

Definition upgradeJobName : string := "hippo-upgrade-pgdata".

(** Nothing has run yet, and Patroni still has its endpoints. *)
Definition beforeTheJob : IvyUpgrade.World :=
  world 14 14 ∅ ["hippo-instance2"] ["hippo-ha"; "hippo-ha-config"].

(** The upgrade job and the remove-data job of the one replica are
    complete, and a replica-create job is there. *)
Definition jobsDone : IvyUpgrade.World :=
  world 14 14
    {[ upgradeJobName := job upgradeJobName ∅ complete;
       "hippo-instance2-pgdata" := job "hippo-instance2-pgdata" removeDataLabels complete;
       "hippo-backup-x" := job "hippo-backup-x" replicaCreateLabels complete ]}
    ["hippo-instance2"] [].

(** The same, after the status of the cluster has been patched to 15. *)
Definition statusAt15 : IvyUpgrade.World :=
  world 14 15
    {[ upgradeJobName := job upgradeJobName ∅ complete;
       "hippo-instance2-pgdata" := job "hippo-instance2-pgdata" removeDataLabels complete ]}
    ["hippo-instance2"] [].

(** The upgrade job has failed. *)
Definition jobFailed : IvyUpgrade.World :=
  world 14 14 {[ upgradeJobName := job upgradeJobName ∅ failed ]}
    ["hippo-instance2"] [].

(** The status of the cluster is at 15, the upgrade job is complete, one
    replica is expected; of two remove-data jobs one is complete and one has
    failed. *)
Definition oneOfTwoFailed : IvyUpgrade.World :=
  world 14 15
    {[ upgradeJobName := job upgradeJobName ∅ complete;
       "a-pgdata" := job "a-pgdata" removeDataLabels complete;
       "b-pgdata" := job "b-pgdata" removeDataLabels failed ]}
    ["hippo-instance2"] [].

(** The same, but the second remove-data job is still running: it has
    neither completed nor failed. *)
Definition oneOfTwoRunning : IvyUpgrade.World :=
  world 14 15
    {[ upgradeJobName := job upgradeJobName ∅ complete;
       "a-pgdata" := job "a-pgdata" removeDataLabels complete;
       "b-pgdata" := job "b-pgdata" removeDataLabels [] ]}
    ["hippo-instance2"] [].

(** A reconciler that cannot observe the world. *)
Definition blind : IvyUpgrade.Reconciler :=
  let seeing := Samples.reconciler Samples.newUpgrade Samples.shutdownAt14 in
  {| IvyUpgrade.Get := IvyUpgrade.Get seeing;
     IvyUpgrade.answer := IvyUpgrade.answer seeing;
     IvyUpgrade.observeWorld := λ _,
       inr {| IvyUpgrade.ErrorMessage := "connection refused";
              IvyUpgrade.IsNotFound := false |};
     IvyUpgrade.pgUpgradeJobName := IvyUpgrade.pgUpgradeJobName seeing;
     IvyUpgrade.jobCompleted := IvyUpgrade.jobCompleted seeing;
     IvyUpgrade.jobFailed := IvyUpgrade.jobFailed seeing;
     IvyUpgrade.generateUpgradeJob := IvyUpgrade.generateUpgradeJob seeing;
     IvyUpgrade.generateRemoveDataJob := IvyUpgrade.generateRemoveDataJob seeing;
     IvyUpgrade.LabelRole := IvyUpgrade.LabelRole seeing;
     IvyUpgrade.removeData := IvyUpgrade.removeData seeing;
     IvyUpgrade.LabelPGBackRestBackup := IvyUpgrade.LabelPGBackRestBackup seeing;
     IvyUpgrade.ReplicaCreate := IvyUpgrade.ReplicaCreate seeing;
     IvyUpgrade.now := IvyUpgrade.now seeing |}.

End UpgradeSamples.


(** ** An API that refuses to create jobs *)

Module UpgradeRefusals.

Definition refusingJobs
  : V1beta1.IvyUpgrade → IvyUpgrade.World → IvyUpgrade.Reconciler :=
  Samples.reconcilerAnswering
    (λ _ call, match call with
               | IvyUpgrade.ApplyJob _ => Some Samples.conflict
               | _ => None
               end).

End UpgradeRefusals.


(** ** k8s.io/api/core/v1: what the operator sets in a pod template *)

Module Corev1.

(** corev1.ResourceRequirements; the zero value has no limits and no
    requests. *)
Record ResourceRequirements : Type := {
  ResourceLimits : gmap string V1beta1.Quantity;
  ResourceRequests : gmap string V1beta1.Quantity
}.

Definition noResources : ResourceRequirements :=
  {| ResourceLimits := ∅; ResourceRequests := ∅ |}.

Record SecretKeySelector : Type := {
  SelectorName : string;
  SelectorKey : string
}.

Record EnvVar : Type := {
  EnvName : string;
  EnvValue : string;
  SecretKeyRef : option SecretKeySelector
}.

Record ContainerPort : Type := {
  PortNumber : Z;
  PortName : string;
  Protocol : string
}.

Record VolumeMount : Type := {
  MountName : string;
  MountPath : string
}.

Record SecretProjection : Type := {
  SecretProjectionName : string;
  SecretProjectionItems : list (string * string)
}.

Record VolumeProjection : Type := {
  ProjectionSecret : option SecretProjection;
  ProjectionConfigMap : option string
}.

(** A volume with the two sources of corev1.VolumeSource that the operator
    sets here: a projection, or a config map by name. *)
Record Volume : Type := {
  VolumeName : string;
  Projected : option (list VolumeProjection);
  ConfigMapSource : option string
}.

Section Pods.
(** corev1.SecurityContext is read nowhere in the files modelled here. *)
Context {SecurityContext : Type}.

Record Container : Type := {
  ContainerName : string;
  Image : string;
  ImagePullPolicy : string;
  Resources : ResourceRequirements;
  Command : list string;
  Env : list EnvVar;
  ContainerSecurityContext : option SecurityContext;
  Ports : list ContainerPort;
  VolumeMounts : list VolumeMount
}.

(** A pod template: its labels (a nil map reads as the empty map) and, of
    its Spec, the containers, the init containers and the volumes. *)
Record PodTemplateSpec : Type := {
  TemplateLabels : gmap string string;
  Containers : list Container;
  InitContainers : list Container;
  Volumes : list Volume
}.

End Pods.

Arguments Container : clear implicits.
Arguments PodTemplateSpec : clear implicits.

End Corev1.

(** ** internal/pgbackrest: the init container of the log directory *)

Module PGBackRestPod.
Import V1beta1 Corev1.

Section LogDir.
Context {SecurityContext : Type}.

(** What MakePGBackrestLogDir reads outside the files modelled here. *)
Record PodNames : Type := {
  (** [config.PGBackRestContainerImage(cluster)] *)
  PGBackRestContainerImage : IvoryCluster → string;
  (** [cluster.Spec.ImagePullPolicy] *)
  SpecImagePullPolicy : IvoryCluster → string;
  ContainerPGBackRestLogDirInit : string;
  PGBackRestRepoContainerName : string;
  (** [initialize.RestrictedSecurityContext()] *)
  RestrictedSecurityContext : SecurityContext
}.

Context (K : PGBackRest.Names) (P : PodNames).

(** The loop over the repositories: the log path of the first one that has
    a volume. *)
Fixpoint logPath (repos : list PGBackRestRepo) (pgBackRestLogPath : string)
  : string :=
  match repos with
  | [] => pgBackRestLogPath
  | repo :: rest =>
      match V1beta1.Volume repo with
      | Some _ => PGBackRest.PGBackRestRepoLogPath K (Name repo)
      | None => logPath rest pgBackRestLogPath
      end
  end.

(** The loop over the containers of the template: the resources of the
    first one named [pgbackrest]. *)
Fixpoint repoResources (containers : list (Container SecurityContext))
    (resources : ResourceRequirements) : ResourceRequirements :=
  match containers with
  | [] => resources
  | c :: rest =>
      if bool_decide (ContainerName c = PGBackRestRepoContainerName P)
      then Resources c
      else repoResources rest resources
  end.

(** MakePGBackrestLogDir creates the pgBackRest default log path directory
    used when a dedicated repo host is configured. *)
Definition MakePGBackrestLogDir (template : PodTemplateSpec SecurityContext)
    (cluster : IvoryCluster) : PodTemplateSpec SecurityContext :=
  let pgBackRestLogPath := logPath (Repos (ClusterSpec cluster)) "" in
  let container :=
    {| ContainerName := ContainerPGBackRestLogDirInit P;
       Image := PGBackRestContainerImage P cluster;
       ImagePullPolicy := SpecImagePullPolicy P cluster;
       Resources := repoResources (Containers template) noResources;
       Command := ["bash"; "-c"; "mkdir -p " +:+ pgBackRestLogPath];
       Env := [];
       ContainerSecurityContext := Some (RestrictedSecurityContext P);
       Ports := [];
       VolumeMounts := [] |} in
  {| TemplateLabels := TemplateLabels template;
     Containers := Containers template;
     InitContainers := (InitContainers template ++ [container])%list;
     Volumes := Volumes template |}.

End LogDir.

Arguments PodNames : clear implicits.

End PGBackRestPod.


(** ** Sample collaborators of the exporter *)

Module MonitorSamples.
Import V1beta1 PGMonitor.

(** An action that sends one script to the executor. *)
Definition run (script : string) : Action :=
  λ S exec state,
    let '(answered, state) :=
      exec {| Stdin := script; Command := ["psql"; "-Xw"; "--file=-"] |} state in
    (ExecErr answered, state).

(** The exporter is enabled for a cluster that declares version 12 or
    above; the pod answers every command with [answered]. *)
Definition collaborators (answered : ExecAnswer) : @Collaborators unit string :=
  {| ContainerDatabase := "database";
     ContainerPGMonitorExporter := "exporter";
     ExporterEnabled := λ cluster,
       bool_decide (12 ≤ PostgresVersion (ClusterSpec cluster));
     IsRunning := λ _ _, (true, true);
     EnableExporterInPostgreSQL := λ secret database setup,
       run ("\c " +:+ database +:+ " " +:+ secret +:+ " " +:+ setup);
     DisableExporterInPostgreSQL := run "DROP ROLE ccp_monitoring";
     GetExporterSetupSQL := λ version S exec state,
       let '(answered, state) :=
         exec {| Stdin := ""; Command := ["cat"; "/opt/cpm/conf/pg" +:+ pretty version +:+ "/setup.sql"] |}
           state in
       ((Stdout answered, ExecErr answered), state);
     hash32 := λ written, pretty (String.length written);
     Sprint := λ command pgImageSHA exporterImageSHA,
       String.concat " " command +:+ pgImageSHA +:+ exporterImageSHA;
     PodExec := λ _ _, answered |}.

Definition fine : ExecAnswer :=
  {| ExecErr := None; Stdout := "CREATE ROLE ccp_monitoring"; Stderr := "" |}.

Definition pod (statuses : list ContainerStatus) : Pod :=
  {| PodNamespace := "ivory"; PodName := "hippo-instance1-0";
     ContainerStatuses := statuses |}.

(** The pod with both containers, and the pod before the kubelet has
    reported the database container. *)
Definition ready : Pod :=
  pod [ {| ContainerName := "database"; ImageID := "sha256:db" |};
        {| ContainerName := "exporter"; ImageID := "sha256:ex" |} ].
Definition starting : Pod :=
  pod [ {| ContainerName := "exporter"; ImageID := "sha256:ex" |} ].

End MonitorSamples.


(** ** What a pass over the exporter can change *)

Module MonitorPass.
Import V1beta1.

(** The cluster on the right is the one on the left but for the revision
    of the exporter in its status. *)
Definition sameButRevision (before after : IvoryCluster) : Prop :=
  ClusterMeta after = ClusterMeta before ∧
  ClusterSpec after = ClusterSpec before ∧
  StatusPostgresVersion (ClusterStatus after)
    = StatusPostgresVersion (ClusterStatus before) ∧
  StatusRepos (ClusterStatus after) = StatusRepos (ClusterStatus before).

End MonitorPass.


(** ** internal/controller/postgrescluster: the exporter in the pod of an
    instance *)

Module PGMonitorPod.
Import V1beta1 Corev1.

Definition exporterPort : Z := 9187.
Definition exporterHost : string := "localhost".

(** [cluster.Spec.Monitoring.PGMonitor.Exporter], as far as the functions
    below read it. *)
Record ExporterSpec : Type := {
  ExporterResources : ResourceRequirements;
  Configuration : list VolumeProjection;
  CustomTLSSecret : option SecretProjection
}.

(** A config map, as far as its name. *)
Record ConfigMap : Type := {
  ConfigMapMeta : Metav1.ObjectMeta;
  Data : gmap string string
}.

Section Pod.
Context {SecurityContext : Type}.

(** What the functions below read outside the files modelled here: the
    fields of the specification of the cluster that [V1beta1] leaves out,
    and the names of the packages [naming], [config], [pgmonitor] and
    [initialize]. *)
Record ExporterNames : Type := {
  (** [pgmonitor.ExporterEnabled(cluster)] *)
  ExporterEnabled : IvoryCluster → bool;
  ContainerPGMonitorExporter : string;
  (** [config.PGExporterContainerImage(cluster)] *)
  PGExporterContainerImage : IvoryCluster → string;
  (** [cluster.Spec.ImagePullPolicy] *)
  SpecImagePullPolicy : IvoryCluster → string;
  (** [cluster.Spec.Monitoring.PGMonitor.Exporter] *)
  SpecExporter : IvoryCluster → ExporterSpec;
  (** [*cluster.Spec.Port] *)
  SpecPort : IvoryCluster → Z;
  MonitoringUser : string;
  (** [naming.MonitoringUserSecret(cluster).Name] *)
  MonitoringUserSecretName : IvoryCluster → string;
  PortExporter : string;
  ProtocolTCP : string;
  LabelPGMonitorDiscovery : string;
  (** [initialize.RestrictedSecurityContext()] *)
  RestrictedSecurityContext : SecurityContext
}.

Context (N : ExporterNames).

(** getExporterCertSecret retrieves the custom tls cert secret projection
    from the exporter spec *)
Definition getExporterCertSecret (cluster : IvoryCluster)
  : option SecretProjection :=
  match CustomTLSSecret (SpecExporter N cluster) with
  | Some secret => Some secret
  | None => None
  end.

(** The loop of configureExporterTLS over the containers of the template,
    from the index [i] on: the index of the container that
    [exporterContainer] points to at the end, the last one named as the
    exporter. *)
Fixpoint exporterContainer (containers : list (Container SecurityContext))
    (i : nat) (found : option nat) : option nat :=
  match containers with
  | [] => found
  | container :: rest =>
      exporterContainer rest (S i)
        (if bool_decide (ContainerName container = ContainerPGMonitorExporter N)
         then Some i else found)
  end.

(** What configureExporterTLS appends to the mounts and to the environment
    of the exporter container. *)
Definition withTLS (container : Container SecurityContext)
  : Container SecurityContext :=
  {| ContainerName := ContainerName container;
     Image := Image container;
     ImagePullPolicy := ImagePullPolicy container;
     Resources := Resources container;
     Command := Command container;
     Env := (Env container ++
             [ {| EnvName := "WEB_CONFIG_DIR"; EnvValue := "web-config/";
                  SecretKeyRef := None |} ])%list;
     ContainerSecurityContext := ContainerSecurityContext container;
     Ports := Ports container;
     VolumeMounts :=
       (VolumeMounts container ++
        [ {| MountName := "exporter-certs"; MountPath := "/certs" |};
          {| MountName := "web-config"; MountPath := "/web-config" |} ])%list |}.

(** configureExporterTLS takes a cluster and pod template spec. If enabled,
    the pod template spec will be updated with exporter tls configuration *)
Definition configureExporterTLS (cluster : IvoryCluster)
    (template : PodTemplateSpec SecurityContext) (exporterWebConfig : ConfigMap)
  : PodTemplateSpec SecurityContext :=
  match exporterContainer (Containers template) 0 None with
  | Some i =>
      if ExporterEnabled N cluster &&
         bool_decide (is_Some (CustomTLSSecret (SpecExporter N cluster)))
      then
        let certVolume :=
          {| VolumeName := "exporter-certs";
             Projected :=
               Some [ {| ProjectionSecret := getExporterCertSecret cluster;
                         ProjectionConfigMap := None |} ];
             ConfigMapSource := None |} in
        let webConfigVolume :=
          {| VolumeName := "web-config";
             Projected := None;
             ConfigMapSource :=
               Some (Metav1.Name (ConfigMapMeta exporterWebConfig)) |} in
        {| TemplateLabels := TemplateLabels template;
           Containers := alter withTLS i (Containers template);
           InitContainers := InitContainers template;
           Volumes := (Volumes template ++ [certVolume; webConfigVolume])%list |}
      else template
  | None => template
  end.

(** The container that addPGMonitorExporterToInstancePodSpec appends. *)
Definition exporter (cluster : IvoryCluster) : Container SecurityContext :=
  let plain name value :=
    {| EnvName := name; EnvValue := value; SecretKeyRef := None |} in
  {| ContainerName := ContainerPGMonitorExporter N;
     Image := PGExporterContainerImage N cluster;
     ImagePullPolicy := SpecImagePullPolicy N cluster;
     Resources := ExporterResources (SpecExporter N cluster);
     Command := ["/opt/cpm/bin/start.sh"];
     Env :=
       [ plain "CONFIG_DIR" "/opt/cpm/conf";
         plain "POSTGRES_EXPORTER_PORT" (pretty exporterPort);
         plain "PGBACKREST_INFO_THROTTLE_MINUTES" "10";
         plain "PG_STAT_STATEMENTS_LIMIT" "20";
         plain "PG_STAT_STATEMENTS_THROTTLE_MINUTES" "-1";
         plain "EXPORTER_PG_HOST" exporterHost;
         plain "EXPORTER_PG_PORT" (pretty (SpecPort N cluster));
         plain "EXPORTER_PG_DATABASE" PGMonitor.exporterDB;
         plain "EXPORTER_PG_USER" (MonitoringUser N);
         {| EnvName := "EXPORTER_PG_PASSWORD"; EnvValue := "";
            SecretKeyRef :=
              Some {| SelectorName := MonitoringUserSecretName N cluster;
                      SelectorKey := "password" |} |} ];
     ContainerSecurityContext := Some (RestrictedSecurityContext N);
     Ports := [ {| PortNumber := exporterPort; PortName := PortExporter N;
                   Protocol := ProtocolTCP N |} ];
     VolumeMounts := [ {| MountName := "exporter-config"; MountPath := "/conf" |} ] |}.

(** addPGMonitorExporterToInstancePodSpec performs the necessary setup to
    add pgMonitor exporter resources to a PodTemplateSpec.  The error it
    returns is nil on every path; the function here returns the template as
    it leaves it. *)
Definition addPGMonitorExporterToInstancePodSpec (cluster : IvoryCluster)
    (template : PodTemplateSpec SecurityContext) (exporterWebConfig : ConfigMap)
  : PodTemplateSpec SecurityContext :=
  if negb (ExporterEnabled N cluster) then template
  else
    let configVolume :=
      {| VolumeName := "exporter-config";
         Projected := Some (Configuration (SpecExporter N cluster));
         ConfigMapSource := None |} in
    let template :=
      {| TemplateLabels := TemplateLabels template;
         Containers := (Containers template ++ [exporter cluster])%list;
         InitContainers := InitContainers template;
         Volumes := (Volumes template ++ [configVolume])%list |} in
    let template :=
      match CustomTLSSecret (SpecExporter N cluster) with
      | Some _ => configureExporterTLS cluster template exporterWebConfig
      | None => template
      end in
    {| TemplateLabels :=
         <[LabelPGMonitorDiscovery N := "true"]> (TemplateLabels template);
       Containers := Containers template;
       InitContainers := InitContainers template;
       Volumes := Volumes template |}.

(** addPGMonitorToInstancePodSpec performs the necessary setup to add
    pgMonitor resources on a PodTemplateSpec *)
Definition addPGMonitorToInstancePodSpec (cluster : IvoryCluster)
    (template : PodTemplateSpec SecurityContext) (exporterWebConfig : ConfigMap)
  : PodTemplateSpec SecurityContext :=
  addPGMonitorExporterToInstancePodSpec cluster template exporterWebConfig.

End Pod.

Arguments ExporterNames : clear implicits.

End PGMonitorPod.


(** ** internal/controller/postgrescluster: the secret of the monitoring
    user and the web configuration of the exporter *)

Module PGMonitorSecret.
Import V1beta1.

Abbreviation Error := IvyUpgrade.Error.
Abbreviation IgnoreNotFound := IvyUpgrade.IgnoreNotFound.

(** A secret and a config map: their kind, their metadata and their data,
    the bytes of a secret as a string. *)
Record Secret : Type := {
  SecretKind : string;
  SecretMeta : Metav1.ObjectMeta;
  SecretData : gmap string string
}.

Record ConfigMap : Type := {
  ConfigMapKind : string;
  ConfigMapMeta : Metav1.ObjectMeta;
  ConfigMapData : gmap string string
}.

(** The calls that change something in the cluster. *)
Inductive Call : Type :=
| DeleteSecret (existing : Secret)
| ApplySecret (intent : Secret)
| DeleteConfigMap (existing : ConfigMap)
| ApplyConfigMap (intent : ConfigMap).

(** What the two functions call and read outside the files modelled here. *)
Record Client : Type := {
  (** [pgmonitor.ExporterEnabled(cluster)] *)
  ExporterEnabled : IvoryCluster → bool;
  (** [cluster.Spec.Monitoring.PGMonitor.Exporter.CustomTLSSecret != nil] *)
  HasCustomTLSSecret : IvoryCluster → bool;
  (** [naming.MonitoringUserSecret(cluster)], [naming.ExporterWebConfigMap(cluster)] *)
  MonitoringUserSecret : IvoryCluster → Metav1.ObjectMeta;
  ExporterWebConfigMap : IvoryCluster → Metav1.ObjectMeta;
  (** [r.Client.Get], by namespace and name: the object, or an error *)
  GetSecret : string * string → Secret + Error;
  GetConfigMap : string * string → ConfigMap + Error;
  (** what the API answers to [r.deleteControlled] and to [r.apply] *)
  answer : Call → option Error;
  (** [r.setControllerReference(cluster, intent)]: the metadata with the
      reference, or an error *)
  setControllerReference : IvoryCluster → Metav1.ObjectMeta → Metav1.ObjectMeta + Error;
  (** [util.GenerateASCIIPassword(util.DefaultGeneratedPasswordLength)],
      as it answers in this pass *)
  GenerateASCIIPassword : string + Error;
  (** [pgpassword.NewSCRAMPassword(password).Build()] *)
  Build : string → string + Error;
  (** [naming.Merge] *)
  Merge : list (gmap string string) → gmap string string;
  (** [cluster.Spec.Metadata.GetAnnotationsOrNil()], [...GetLabelsOrNil()] *)
  GetAnnotationsOrNil : IvoryCluster → gmap string string;
  GetLabelsOrNil : IvoryCluster → gmap string string;
  LabelCluster : string;
  LabelRole : string;
  RoleMonitoring : string
}.

(** What a call of one of the two functions comes to: the object and the
    error it returns, and the calls it made. *)
Record Outcome (A : Type) : Type := {
  Returned : option A;
  ReturnedErr : option Error;
  Calls : list Call
}.
Arguments Returned {A}.
Arguments ReturnedErr {A}.
Arguments Calls {A}.

Section Reconcile.
Context (r : Client).

Definition ObjectKeyFromObject (meta : Metav1.ObjectMeta) : string * string :=
  (Metav1.Namespace meta, Metav1.Name meta).

Definition withMetadata (cluster : IvoryCluster) (meta : Metav1.ObjectMeta)
  : Metav1.ObjectMeta :=
  {| Metav1.Name := Metav1.Name meta;
     Metav1.Namespace := Metav1.Namespace meta;
     Metav1.UID := Metav1.UID meta;
     Metav1.ResourceVersion := Metav1.ResourceVersion meta;
     Metav1.Generation := Metav1.Generation meta;
     Metav1.Labels :=
       Merge r [ GetLabelsOrNil r cluster;
                 <[LabelRole r := RoleMonitoring r]>
                   (<[LabelCluster r := Metav1.Name (ClusterMeta cluster)]> ∅) ];
     Metav1.Annotations := Merge r [ GetAnnotationsOrNil r cluster ] |}.

(** [len(existing.Data[key]) == 0] *)
Definition missing (data : gmap string string) (key : string) : bool :=
  bool_decide (String.length (Metav1.index data key) = 0%nat).

(** reconcileMonitoringSecret reconciles the secret containing
    authentication for monitoring tools *)
Definition reconcileMonitoringSecret (cluster : IvoryCluster) : Outcome Secret :=
  let blank := {| SecretKind := ""; SecretMeta := MonitoringUserSecret r cluster;
                  SecretData := ∅ |} in
  let '(existing, err) :=
    match GetSecret r (ObjectKeyFromObject (SecretMeta blank)) with
    | inl found => (found, None)
    | inr err => (blank, Some err)
    end in
  match IgnoreNotFound err with
  | Some _ => {| Returned := None; ReturnedErr := err; Calls := [] |}
  | None =>
  if negb (ExporterEnabled r cluster) then
    match err with
    | None =>
        let call := DeleteSecret existing in
        {| Returned := None; ReturnedErr := IgnoreNotFound (answer r call);
           Calls := [call] |}
    | Some _ =>
        {| Returned := None; ReturnedErr := IgnoreNotFound err; Calls := [] |}
    end
  else
  let meta := withMetadata cluster (MonitoringUserSecret r cluster) in
  let data : gmap string string + Error :=
    if missing (SecretData existing) "password" ||
       missing (SecretData existing) "verifier"
    then
      match GenerateASCIIPassword r with
      | inr err => inr err
      | inl password =>
          match Build r password with
          | inr err => inr err
          | inl verifier =>
              inl (<["verifier" := verifier]> (<["password" := password]> ∅))
          end
      end
    else
      inl (<["verifier" := Metav1.index (SecretData existing) "verifier"]>
             (<["password" := Metav1.index (SecretData existing) "password"]> ∅)) in
  match data with
  | inr err => {| Returned := None; ReturnedErr := Some err; Calls := [] |}
  | inl data =>
      match setControllerReference r cluster meta with
      | inr err => {| Returned := None; ReturnedErr := Some err; Calls := [] |}
      | inl meta =>
          let intent := {| SecretKind := "Secret"; SecretMeta := meta;
                           SecretData := data |} in
          let call := ApplySecret intent in
          match answer r call with
          | None => {| Returned := Some intent; ReturnedErr := None; Calls := [call] |}
          | Some err => {| Returned := None; ReturnedErr := Some err; Calls := [call] |}
          end
      end
  end
  end.

Definition newline : string := String "010"%char "".

Definition webConfig : string :=
  String.concat newline
    [ "";
      "# Generated by postgres-operator. DO NOT EDIT.";
      "# Your changes will not be saved.";
      "";
      "";
      "# A certificate and a key file are needed to enable TLS.";
      "tls_server_config:";
      "  cert_file: /certs/tls.crt";
      "  key_file: /certs/tls.key" ].

(** reconcileExporterWebConfig reconciles the configmap containing the
    webconfig for exporter tls *)
Definition reconcileExporterWebConfig (cluster : IvoryCluster) : Outcome ConfigMap :=
  let blank := {| ConfigMapKind := ""; ConfigMapMeta := ExporterWebConfigMap r cluster;
                  ConfigMapData := ∅ |} in
  let '(existing, err) :=
    match GetConfigMap r (ObjectKeyFromObject (ConfigMapMeta blank)) with
    | inl found => (found, None)
    | inr err => (blank, Some err)
    end in
  match IgnoreNotFound err with
  | Some _ => {| Returned := None; ReturnedErr := err; Calls := [] |}
  | None =>
  if negb (ExporterEnabled r cluster) || negb (HasCustomTLSSecret r cluster) then
    match err with
    | None =>
        let call := DeleteConfigMap existing in
        {| Returned := None; ReturnedErr := IgnoreNotFound (answer r call);
           Calls := [call] |}
    | Some _ =>
        {| Returned := None; ReturnedErr := IgnoreNotFound err; Calls := [] |}
    end
  else
  let meta := withMetadata cluster (ExporterWebConfigMap r cluster) in
  match setControllerReference r cluster meta with
  | inr err => {| Returned := None; ReturnedErr := Some err; Calls := [] |}
  | inl meta =>
      let intent := {| ConfigMapKind := "ConfigMap"; ConfigMapMeta := meta;
                       ConfigMapData := {[ "web-config.yml" := webConfig ]} |} in
      let call := ApplyConfigMap intent in
      match answer r call with
      | None => {| Returned := Some intent; ReturnedErr := None; Calls := [call] |}
      | Some err => {| Returned := None; ReturnedErr := Some err; Calls := [call] |}
      end
  end
  end.

(** A call that creates or changes an object. *)
Definition applies (call : Call) : bool :=
  match call with ApplySecret _ | ApplyConfigMap _ => true | _ => false end.

End Reconcile.

End PGMonitorSecret.

(** ** Sample clients of the secret of the monitoring user *)

Module SecretSamples.
Import V1beta1 PGMonitorSecret.

(** A client for which the exporter is enabled or not, whose store has
    [stored] under the name of the secret, and whose generator gives
    [generated]; the API accepts every call. *)
Definition client (enabled : bool) (stored : Secret + Error)
    (generated : string) : Client :=
  {| ExporterEnabled := λ _, enabled;
     HasCustomTLSSecret := λ _, false;
     MonitoringUserSecret := λ cluster,
       Samples.meta (Metav1.Name (ClusterMeta cluster) +:+ "-monitoring");
     ExporterWebConfigMap := λ cluster,
       Samples.meta (Metav1.Name (ClusterMeta cluster) +:+ "-exporter-web-config");
     GetSecret := λ _, stored;
     GetConfigMap := λ _,
       inr {| IvyUpgrade.ErrorMessage := "not found"; IvyUpgrade.IsNotFound := true |};
     answer := λ _, None;
     setControllerReference := λ _ meta, inl meta;
     GenerateASCIIPassword := inl generated;
     Build := λ password, inl ("SCRAM-SHA-256$4096:" +:+ password);
     Merge := λ maps, foldl (λ merged m, m ∪ merged) ∅ maps;
     GetAnnotationsOrNil := λ _, ∅;
     GetLabelsOrNil := λ _, ∅;
     LabelCluster := "ivory-operator.highgo.com/cluster";
     LabelRole := "ivory-operator.highgo.com/role";
     RoleMonitoring := "monitoring" |}.

Definition notFound : Error :=
  {| IvyUpgrade.ErrorMessage := "not found"; IvyUpgrade.IsNotFound := true |}.

(** The secret that a first pass creates when the store has none. *)
Definition created : Secret :=
  default {| SecretKind := ""; SecretMeta := Samples.meta ""; SecretData := ∅ |}
    (Returned (reconcileMonitoringSecret (client true (inr notFound) "first")
                 (Samples.cluster 14))).

End SecretSamples.


(** ** internal/controller/ivyupgrade: the watch on the clusters *)

Module UpgradeWatch.
Import Metav1 V1beta1.

(** ctrl.Request, by namespace and name. *)
Definition Request : Type := string * string.

Definition ObjectKeyFromObject (meta : ObjectMeta) : string * string :=
  (Namespace meta, Metav1.Name meta).

(** The events on a cluster that the watch receives. *)
Inductive Event : Type :=
| CreateEvent (object : IvoryCluster)
| UpdateEvent (objectOld objectNew : IvoryCluster)
| DeleteEvent (object : IvoryCluster)
| GenericEvent (object : IvoryCluster).

Section Watch.
(** [r.List(ctx, &upgrades, &client.ListOptions{Namespace: ...})]: the
    items, or an error. *)
Context (List : string → list IvyUpgrade + IvyUpgrade.Error).

(** The loop over [upgrades.Items]. *)
Fixpoint matchingItems (items : list IvyUpgrade) (cluster : string * string)
    (matching : list IvyUpgrade) : list IvyUpgrade :=
  match items with
  | [] => matching
  | item :: rest =>
      matchingItems rest cluster
        (if bool_decide (IvoryClusterName (UpgradeSpec item) = cluster.2)
         then (matching ++ [item])%list else matching)
  end.

(** findUpgradesForIvoryCluster returns IvyUpgrades that target cluster. *)
Definition findUpgradesForIvoryCluster (cluster : string * string)
  : list IvyUpgrade :=
  match List cluster.1 with
  | inl items => matchingItems items cluster []
  | inr _ => []
  end.

(** [handle]: the queue as the list of the requests added to it. *)
Definition handle (cluster : IvoryCluster) (q : list Request) : list Request :=
  foldl (λ q upgrade, (q ++ [ObjectKeyFromObject (UpgradeMeta upgrade)])%list) q
    (findUpgradesForIvoryCluster (ObjectKeyFromObject (ClusterMeta cluster))).

(** watchIvoryClusters returns a [handler.EventHandler] for IvoryClusters:
    it has functions for the events of creation, update and deletion, and
    none for the others. *)
Definition watchIvoryClusters (event : Event) (q : list Request) : list Request :=
  match event with
  | CreateEvent object => handle object q
  | UpdateEvent _ objectNew => handle objectNew q
  | DeleteEvent object => handle object q
  | GenericEvent _ => q
  end.

End Watch.

(** The cluster that an event is handled for. *)
Definition handled (event : Event) : option IvoryCluster :=
  match event with
  | CreateEvent object | DeleteEvent object => Some object
  | UpdateEvent _ objectNew => Some objectNew
  | GenericEvent _ => None
  end.

End UpgradeWatch.

(** ** internal/pgbackrest: the config map of the configuration files *)

Module PGBackRestIntent.
Import V1beta1 PGBackRest.

Definition CMInstanceKey : string := "pgbackrest_instance.conf".
Definition CMRepoKey : string := "pgbackrest_repo.conf".
Definition ConfigHashKey : string := "config-hash".
Definition serverConfigMapKey : string := "pgbackrest-server.conf".

Definition iniGeneratedWarning : string :=
  "# Generated by ivory-operator. DO NOT EDIT." +:+ PGMonitorSecret.newline +:+
  "# Your changes will not be saved." +:+ PGMonitorSecret.newline.

(** What CreatePGBackRestConfigMapIntent calls and reads outside the files
    modelled here. *)
Record IntentNames : Type := {
  (** [naming.PGBackRestConfig(ivoryCluster)] *)
  PGBackRestConfig : IvoryCluster → Metav1.ObjectMeta;
  (** [naming.Merge] *)
  Merge : list (gmap string string) → gmap string string;
  (** [ivoryCluster.Spec.Metadata.GetAnnotationsOrNil()] and the like *)
  SpecAnnotationsOrNil : IvoryCluster → gmap string string;
  SpecLabelsOrNil : IvoryCluster → gmap string string;
  BackupsAnnotationsOrNil : IvoryCluster → gmap string string;
  BackupsLabelsOrNil : IvoryCluster → gmap string string;
  (** [naming.PGBackRestConfigLabels(name)] *)
  PGBackRestConfigLabels : string → gmap string string;
  DedicatedRepoHostEnabled : IvoryCluster → bool;
  (** [ivory.DataDirectory(ivoryCluster)] *)
  DataDirectory : IvoryCluster → string;
  (** [*ivoryCluster.Spec.Port] *)
  SpecPort : IvoryCluster → Z;
  (** the String method of iniSectionSet *)
  String_ : iniSectionSet → string
}.

Section Intent.
Context (K : Names) (I : IntentNames).

(** CreatePGBackRestConfigMapIntent creates a configmap struct with
    pgBackRest pgbackrest.conf settings in the data field.  The two
    builders range over Go maps, each with its own schedule. *)
Definition CreatePGBackRestConfigMapIntent (instance repoHost : GoMap.Schedule)
    (ivoryCluster : IvoryCluster)
    (repoHostName configHash serviceName serviceNamespace : string)
    (instanceNames : list string) : PGMonitorSecret.ConfigMap :=
  let meta := PGBackRestConfig I ivoryCluster in
  let meta :=
    {| Metav1.Name := Metav1.Name meta;
       Metav1.Namespace := Metav1.Namespace meta;
       Metav1.UID := Metav1.UID meta;
       Metav1.ResourceVersion := Metav1.ResourceVersion meta;
       Metav1.Generation := Metav1.Generation meta;
       Metav1.Labels :=
         Merge I [ SpecLabelsOrNil I ivoryCluster;
                   BackupsLabelsOrNil I ivoryCluster;
                   PGBackRestConfigLabels I (Metav1.Name (ClusterMeta ivoryCluster)) ];
       Metav1.Annotations :=
         Merge I [ SpecAnnotationsOrNil I ivoryCluster;
                   BackupsAnnotationsOrNil I ivoryCluster ] |} in
  let addDedicatedHost := DedicatedRepoHostEnabled I ivoryCluster in
  let pgdataDir := DataDirectory I ivoryCluster in
  let pgPort := SpecPort I ivoryCluster in
  let data : gmap string string :=
    <[CMInstanceKey :=
        iniGeneratedWarning +:+
        String_ I (populatePGInstanceConfigurationMap K instance
                    serviceName serviceNamespace repoHostName pgdataDir pgPort
                    (Repos (ClusterSpec ivoryCluster))
                    (Global (ClusterSpec ivoryCluster)))]> ∅ in
  let data := <[serverConfigMapKey := ""]> data in
  let data :=
    if addDedicatedHost && bool_decide (repoHostName ≠ "")
    then
      <[CMRepoKey :=
          iniGeneratedWarning +:+
          String_ I (populateRepoHostConfigurationMap K repoHost
                      serviceName serviceNamespace pgdataDir pgPort instanceNames
                      (Repos (ClusterSpec ivoryCluster))
                      (Global (ClusterSpec ivoryCluster)))]>
        (<[serverConfigMapKey :=
             iniGeneratedWarning +:+ String_ I (serverConfig K ivoryCluster)]> data)
    else data in
  let data := <[ConfigHashKey := configHash]> data in
  {| PGMonitorSecret.ConfigMapKind := "ConfigMap";
     PGMonitorSecret.ConfigMapMeta := meta;
     PGMonitorSecret.ConfigMapData := data |}.

End Intent.

End PGBackRestIntent.

(** ** Sample upgrades to list *)

Module WatchSamples.
Import Metav1 V1beta1.

Definition upgradeOf (name cluster : string) : IvyUpgrade :=
  {| UpgradeMeta := Samples.meta name;
     UpgradeSpec := {| IvoryClusterName := cluster;
                       FromIvoryVersion := 14; ToIvoryVersion := 15 |};
     UpgradeStatus := {| Conditions := [] |} |}.

(** The namespace "ivory" has two upgrades of the cluster "hippo" and one
    of the cluster "rhino"; the API cannot list any other namespace. *)
Definition List (namespace : string) : list IvyUpgrade + IvyUpgrade.Error :=
  if bool_decide (namespace = "ivory")
  then inl [ upgradeOf "hippo-upgrade" "hippo"; upgradeOf "rhino-upgrade" "rhino";
             upgradeOf "hippo-again" "hippo" ]
  else inr {| IvyUpgrade.ErrorMessage := "forbidden"; IvyUpgrade.IsNotFound := false |}.

End WatchSamples.


(** ** A sample pod template *)

Module PodSamples.
Import V1beta1 Corev1.

Definition names : PGBackRestPod.PodNames string :=
  {| PGBackRestPod.PGBackRestContainerImage := λ _, "pgbackrest:2.41";
     PGBackRestPod.SpecImagePullPolicy := λ _, "IfNotPresent";
     PGBackRestPod.ContainerPGBackRestLogDirInit := "pgbackrest-log-dir";
     PGBackRestPod.PGBackRestRepoContainerName := "pgbackrest";
     PGBackRestPod.RestrictedSecurityContext := "restricted" |}.

Definition container (name : string) : Container string :=
  {| ContainerName := name; Image := name +:+ ":latest";
     ImagePullPolicy := "IfNotPresent"; Resources := noResources;
     Command := []; Env := []; ContainerSecurityContext := None;
     Ports := []; VolumeMounts := [] |}.

(** The template of a repository host, with its two containers. *)
Definition template : PodTemplateSpec string :=
  {| TemplateLabels := ∅;
     Containers := [container "pgbackrest"; container "pgbackrest-config"];
     InitContainers := [];
     Volumes := [] |}.

(** The cluster "hippo" with the repositories S3("a"), Volume("b"),
    Volume("c") and the global setting [archive-async]. *)
Definition cluster : IvoryCluster :=
  {| ClusterMeta := Samples.meta "hippo";
     ClusterSpec := {| PostgresVersion := 15; InstanceSets := [];
                       Repos := Samples.repos_a_b_c;
                       Global := {[ "archive-async" := "y" ]} |};
     ClusterStatus := {| StatusPostgresVersion := 15; StatusRepos := [];
                         ExporterConfiguration := "" |} |}.

End PodSamples.


(** ** The reasons that the gates of Reconcile give *)

Module UpgradeReasons.

(** The reasons that Reconcile passes to setStatusToProgressingIfReasonWas,
    in the order of the calls. *)
Definition gateReasons : list string :=
  [ ""; "IvyUpgradeInvalid"; "PGClusterErrorWhenObservingWorld";
    "PGClusterNotFound"; "IvyUpgradeResolved"; "PGClusterNotShutdown";
    "IvyUpgradeInvalidForCluster"; "PGClusterMissingRequiredAnnotation" ].

End UpgradeReasons.


(** ** internal/pgbackrest: the sections as ordered lists *)

Module PGBackRestOrdered.
Import V1beta1.

(** Modelled from the spec: the section types [iniMultiSet] and
    [iniSectionSet], whose declarations are not in the files modelled
    here, as the spec words them: "an ordered mapping of section-name →
    multi-valued key/value list (keys may repeat; insertion order
    preserved)", "an explicit ordered list of (key, value) pairs per
    section".  A section is the list of its pairs in the order of their
    insertion; a section set is the list of its sections in the order in
    which the literal at the end of a builder names them. *)
Abbreviation iniMultiSet := (list (string * string)).
Abbreviation iniSectionSet := (list (string * list (string * string))).

(** Modelled from the spec: Add appends a value to a key (keys may
    repeat). *)
Definition Add (key value : string) (ms : iniMultiSet) : iniMultiSet :=
  (ms ++ [(key, value)])%list.

(** Modelled from the spec: Set replaces what the key had.  As in an
    ordered mapping, a key that the section has keeps its place, with the
    new value as its one value; a new key goes to the end. *)
Fixpoint Set_ (key value : string) (ms : iniMultiSet) : iniMultiSet :=
  match ms with
  | [] => [(key, value)]
  | (k, v) :: rest =>
      if bool_decide (k = key)
      then (key, value) :: filter (λ pair, pair.1 ≠ key) rest
      else (k, v) :: Set_ key value rest
  end.

(** [for option, val := range m { ms.Set(option, val) }], the entries
    visited in the order [order]. *)
Definition SetAll (order : list (string * string)) (ms : iniMultiSet)
  : iniMultiSet :=
  foldl (λ acc kv, Set_ kv.1 kv.2 acc) ms order.

(** The values that a section has at a key, in their order. *)
Definition values (ms : iniMultiSet) (key : string) : list string :=
  (filter (λ pair, pair.1 = key) ms).*2.

(** A section by key: each key of the section with its values. *)
Fixpoint content (ms : iniMultiSet) : gmap string (list string) :=
  match ms with
  | [] => ∅
  | (k, v) :: rest =>
      <[k := v :: default [] (content rest !! k)]> (content rest)
  end.

(** A section set by name: each section by key; of two sections of one
    name the later one counts, as in a map literal. *)
Definition contents (sections : iniSectionSet)
  : gmap string (gmap string (list string)) :=
  foldl (λ acc section, <[section.1 := content section.2]> acc) ∅ sections.

Definition newline : string := String "010"%char "".

(** Modelled from the spec: the String method, which writes the
    "INI-like" text, "section headers [name], repeated keys permitted
    within a section": the sections in their order, each with its header
    and one line per pair, in the order of the section. *)
Definition line (pair : string * string) : string :=
  pair.1 +:+ "=" +:+ pair.2 +:+ newline.

Definition String_ (sections : iniSectionSet) : string :=
  String.concat ""
    ((λ section,
        newline +:+ "[" +:+ section.1 +:+ "]" +:+ newline +:+
        String.concat "" (line <$> section.2)) <$> sections).



Section Builders.
Context (K : PGBackRest.Names).

(** The body of the loop over [repos] in
    populatePGInstanceConfigurationMap; [n] counts the map ranges. *)
Definition instanceRepo (sched : GoMap.Schedule) (n : nat)
    (repoHostName repoHostFQDN : string) (repo : PGBackRestRepo)
    (global : iniMultiSet) : iniMultiSet :=
  let global := Set_ (Name repo +:+ "-path")
                     (PGBackRest.defaultRepo1Path +:+ Name repo) global in
  let global :=
    match Volume repo with
    | None =>
        SetAll (GoMap.range sched n (PGBackRest.getExternalRepoConfigs repo)) global
    | Some _ => global
    end in
  if bool_decide (repoHostName ≠ "") && bool_decide (is_Some (Volume repo))
  then
    Set_ (Name repo +:+ "-host-user") "ivory"
      (Set_ (Name repo +:+ "-host-key-file")
         (PGBackRest.certClientPrivateKeyAbsolutePath K)
        (Set_ (Name repo +:+ "-host-cert-file") (PGBackRest.certClientAbsolutePath K)
          (Set_ (Name repo +:+ "-host-ca-file") (PGBackRest.certAuthorityAbsolutePath K)
            (Set_ (Name repo +:+ "-host-type") "tls"
              (Set_ (Name repo +:+ "-host") repoHostFQDN global)))))
  else global.

Fixpoint instanceRepos (sched : GoMap.Schedule) (n : nat)
    (repoHostName repoHostFQDN : string) (repos : list PGBackRestRepo)
    (global : iniMultiSet) : iniMultiSet :=
  match repos with
  | [] => global
  | repo :: rest =>
      instanceRepos sched (S n) repoHostName repoHostFQDN rest
        (instanceRepo sched n repoHostName repoHostFQDN repo global)
  end.

(** populatePGInstanceConfigurationMap returns options representing the
    pgBackRest configuration for a IvorySQL instance *)
Definition populatePGInstanceConfigurationMap (sched : GoMap.Schedule)
    (serviceName serviceNamespace repoHostName pgdataDir : string)
    (pgPort : Z) (repos : list PGBackRestRepo)
    (globalConfig : gmap string string) : iniSectionSet :=
  let repoHostFQDN := repoHostName +:+ "-0." +:+
    serviceName +:+ "." +:+ serviceNamespace +:+ ".svc." +:+
    PGBackRest.KubernetesClusterDomain K in
  let global := Set_ "log-path" (PGBackRest.PGBackRestPGDataLogPath K) [] in
  let global := instanceRepos sched 0 repoHostName repoHostFQDN repos global in
  let global :=
    SetAll (GoMap.range sched (length repos) globalConfig) global in
  let stanza := Set_ "pg1-path" pgdataDir [] in
  let stanza := Set_ "pg1-port" (pretty pgPort) stanza in
  let stanza := Set_ "pg1-socket-path" (PGBackRest.SocketDirectory K) stanza in
  [ ("global", global); (PGBackRest.DefaultStanzaName, stanza) ].

(** The body of the loop over [repos] in
    populateRepoHostConfigurationMap; the state is the section and the
    flag pgBackRestLogPathSet. *)
Definition repoHostRepo (sched : GoMap.Schedule) (n : nat)
    (repo : PGBackRestRepo) (st : iniMultiSet * bool) : iniMultiSet * bool :=
  let '(global, pgBackRestLogPathSet) := st in
  let global := Set_ (Name repo +:+ "-path")
                     (PGBackRest.defaultRepo1Path +:+ Name repo) global in
  let global :=
    match Volume repo with
    | None =>
        SetAll (GoMap.range sched n (PGBackRest.getExternalRepoConfigs repo)) global
    | Some _ => global
    end in
  if negb pgBackRestLogPathSet && bool_decide (is_Some (Volume repo))
  then (Set_ "log-path" (PGBackRest.PGBackRestRepoLogPath K (Name repo)) global, true)
  else (global, pgBackRestLogPathSet).

Fixpoint repoHostRepos (sched : GoMap.Schedule) (n : nat)
    (repos : list PGBackRestRepo) (st : iniMultiSet * bool)
  : iniMultiSet * bool :=
  match repos with
  | [] => st
  | repo :: rest =>
      repoHostRepos sched (S n) rest (repoHostRepo sched n repo st)
  end.

(** The body of the loop over [pgHosts], for the host at index [i]. *)
Definition repoHostStanza (serviceName serviceNamespace pgdataDir : string)
    (pgPort : Z) (i : nat) (pgHost : string) (stanza : iniMultiSet)
  : iniMultiSet :=
  let pgHostFQDN := pgHost +:+ "-0." +:+
    serviceName +:+ "." +:+ serviceNamespace +:+ ".svc." +:+
    PGBackRest.KubernetesClusterDomain K in
  let pg := "pg" +:+ pretty (S i) in
  Set_ (pg +:+ "-socket-path") (PGBackRest.SocketDirectory K)
    (Set_ (pg +:+ "-port") (pretty pgPort)
      (Set_ (pg +:+ "-path") pgdataDir
        (Set_ (pg +:+ "-host-key-file") (PGBackRest.certClientPrivateKeyAbsolutePath K)
          (Set_ (pg +:+ "-host-cert-file") (PGBackRest.certClientAbsolutePath K)
            (Set_ (pg +:+ "-host-ca-file") (PGBackRest.certAuthorityAbsolutePath K)
              (Set_ (pg +:+ "-host-type") "tls"
                (Set_ (pg +:+ "-host") pgHostFQDN stanza))))))).

Fixpoint repoHostStanzas (serviceName serviceNamespace pgdataDir : string)
    (pgPort : Z) (i : nat) (pgHosts : list string) (stanza : iniMultiSet)
  : iniMultiSet :=
  match pgHosts with
  | [] => stanza
  | pgHost :: rest =>
      repoHostStanzas serviceName serviceNamespace pgdataDir pgPort (S i) rest
        (repoHostStanza serviceName serviceNamespace pgdataDir pgPort
           i pgHost stanza)
  end.

(** populateRepoHostConfigurationMap returns options representing the
    pgBackRest configuration for a pgBackRest dedicated repository host *)
Definition populateRepoHostConfigurationMap (sched : GoMap.Schedule)
    (serviceName serviceNamespace pgdataDir : string)
    (pgPort : Z) (pgHosts : list string) (repos : list PGBackRestRepo)
    (globalConfig : gmap string string) : iniSectionSet :=
  let global := (repoHostRepos sched 0 repos ([], false)).1 in
  let global :=
    SetAll (GoMap.range sched (length repos) globalConfig) global in
  let stanza :=
    repoHostStanzas serviceName serviceNamespace pgdataDir pgPort
      0 pgHosts [] in
  [ ("global", global); (PGBackRest.DefaultStanzaName, stanza) ].

End Builders.

End PGBackRestOrdered.

(** * Properties *)

(** ** Appending strings *)

Lemma append_nil_l (s : string) : "" +:+ s = s.
Proof. reflexivity. Qed.

Lemma append_cons (c : ascii) (s t : string) :
  String c s +:+ t = String c (s +:+ t).
Proof. reflexivity. Qed.

Lemma append_length (s t : string) :
  String.length (s +:+ t) = (String.length s + String.length t)%nat.
Proof. induction s as [|c s IH]; [done|]. rewrite append_cons. simpl. by rewrite IH. Qed.

(** ** Ranging over a Go map: both sample schedules are fair *)

Lemma inOrder_fair : GoMap.fair GoMap.inOrder.
Proof. by intros A n l. Qed.

Lemma backwards_fair : GoMap.fair GoMap.backwards.
Proof. intros A n l. apply reverse_Permutation. Qed.

Lemma range_NoDup {A} (s : GoMap.Schedule) n (m : gmap string A) :
  GoMap.fair s → NoDup (GoMap.range s n m).*1.
Proof.
  intros Hs. unfold GoMap.range.
  rewrite (Hs A n (map_to_list m)). apply NoDup_fst_map_to_list.
Qed.

Lemma range_elem_of {A} (s : GoMap.Schedule) n (m : gmap string A) k v :
  GoMap.fair s → (k, v) ∈ GoMap.range s n m ↔ m !! k = Some v.
Proof.
  intros Hs. unfold GoMap.range.
  rewrite (Hs A n (map_to_list m)). apply elem_of_map_to_list.
Qed.

(** ** Sections by key: what setting the entries of a map leaves at a key *)

Section SetAll.
Import PGBackRest.

Lemma Set_lookup key value (ms : gmap string (list string)) k :
  Set_ key value ms !! k = if decide (key = k) then Some [value] else ms !! k.
Proof. unfold Set_. apply lookup_insert. Qed.

Lemma SetAll_lookup_notin order (ms : gmap string (list string)) k :
  k ∉ order.*1 → SetAll order ms !! k = ms !! k.
Proof.
  unfold SetAll. revert ms.
  induction order as [|[k' v'] order IH]; intros ms Hk; simpl; [done|].
  rewrite fmap_cons, not_elem_of_cons in Hk. destruct Hk as [Hne Hk].
  rewrite IH by done. rewrite Set_lookup. simpl in *.
  by destruct (decide (k' = k)) as [->|].
Qed.

Lemma SetAll_lookup_in order (ms : gmap string (list string)) k v :
  NoDup order.*1 → (k, v) ∈ order → SetAll order ms !! k = Some [v].
Proof.
  unfold SetAll. revert ms.
  induction order as [|[k' v'] order IH]; intros ms Hnd Hin; simpl.
  { by apply elem_of_nil in Hin. }
  rewrite fmap_cons in Hnd. apply NoDup_cons in Hnd as [Hk' Hnd].
  apply elem_of_cons in Hin as [Heq|Hin].
  - injection Heq as <- <-.
    change (SetAll order (Set_ k v ms) !! k = Some [v]).
    rewrite SetAll_lookup_notin by done.
    rewrite Set_lookup. by rewrite decide_True.
  - by apply IH.
Qed.

(** What a visit of a map leaves at a key. *)
Lemma SetAll_range_lookup (s : GoMap.Schedule) n
    (m : gmap string string) (ms : gmap string (list string)) k :
  GoMap.fair s →
  SetAll (GoMap.range s n m) ms !! k =
    match m !! k with Some v => Some [v] | None => ms !! k end.
Proof.
  intros Hs. destruct (m !! k) as [v|] eqn:Hk.
  - apply SetAll_lookup_in; [by apply range_NoDup|]. by apply range_elem_of.
  - apply SetAll_lookup_notin. intros Hin.
    apply list_elem_of_fmap in Hin as [[k' v] [-> Hin]].
    apply range_elem_of in Hin; [|done]. simpl in Hk. congruence.
Qed.

End SetAll.

(** ** Sections as ordered lists: what the order of a range changes *)

Section OrderedSections.
Import PGBackRestOrdered.

Lemma values_cons k v ms key :
  values ((k, v) :: ms) key = if decide (k = key) then v :: values ms key else values ms key.
Proof.
  unfold values. rewrite filter_cons. cbn [fst].
  by destruct (decide (k = key)).
Qed.

Lemma values_filter_other ms k key :
  k ≠ key → values (filter (λ pair, pair.1 ≠ k) ms) key = values ms key.
Proof.
  intros Hne. unfold values. rewrite list_filter_filter. f_equal.
  apply list_filter_iff. intros [k' v']. cbn [fst]. split; [by intros [? ?]|].
  intros ->. by split.
Qed.

Lemma values_filter_same ms k :
  values (filter (λ pair, pair.1 ≠ k) ms) k = [].
Proof.
  unfold values. rewrite list_filter_filter.
  induction ms as [|[k' v'] ms IH]; [done|].
  rewrite filter_cons. cbn [fst].
  destruct (decide (k' = k ∧ k' ≠ k)) as [[? ?]|_]; [done|exact IH].
Qed.

(** Set leaves one value at its key and the other keys as they are. *)
Lemma values_Set k v ms key :
  values (Set_ k v ms) key = if decide (k = key) then [v] else values ms key.
Proof.
  induction ms as [|[k' v'] ms IH]; cbn [Set_].
  - rewrite values_cons. by destruct (decide (k = key)).
  - case_bool_decide as Hk.
    + subst k'. rewrite !values_cons. destruct (decide (k = key)) as [->|Hne].
      * by rewrite values_filter_same.
      * by rewrite values_filter_other.
    + rewrite !values_cons, IH.
      destruct (decide (k' = key)) as [->|]; [|done].
      by destruct (decide (k = key)); [congruence|].
Qed.










End OrderedSections.

(** ** The sections by key are the content of the ordered sections *)

Section OrderedContent.
Import V1beta1 PGBackRestOrdered.
Context (K : PGBackRest.Names).

Lemma content_lookup (ms : iniMultiSet) (key : string) :
  content ms !! key =
  match values ms key with [] => None | vs => Some vs end.
Proof.
  induction ms as [|[k v] rest IH]; [done|].
  cbn [content]. rewrite values_cons. cbn [fst snd].
  destruct (decide (k = key)) as [->|Hne].
  - rewrite lookup_insert_eq. rewrite IH. by destruct (values rest key).
  - by rewrite lookup_insert_ne.
Qed.

Lemma content_Set (k v : string) (ms : iniMultiSet) :
  content (Set_ k v ms) = PGBackRest.Set_ k v (content ms).
Proof.
  apply map_eq. intros key. unfold PGBackRest.Set_.
  rewrite content_lookup, values_Set.
  destruct (decide (k = key)) as [->|Hne].
  - by rewrite lookup_insert_eq.
  - by rewrite lookup_insert_ne, content_lookup.
Qed.

Lemma content_SetAll (order : list (string * string)) (ms : iniMultiSet) :
  content (SetAll order ms) = PGBackRest.SetAll order (content ms).
Proof.
  revert ms. induction order as [|[k v] order IH]; intros ms; [done|].
  unfold SetAll, PGBackRest.SetAll in *. cbn [foldl fst snd].
  by rewrite IH, content_Set.
Qed.

Lemma content_instanceRepo (s : GoMap.Schedule) n host fqdn repo ms :
  content (instanceRepo K s n host fqdn repo ms) =
  PGBackRest.instanceRepo K s n host fqdn repo (content ms).
Proof.
  unfold instanceRepo, PGBackRest.instanceRepo. cbv zeta.
  destruct (bool_decide (host ≠ "") && _); destruct (Volume repo);
    by rewrite ?content_Set, ?content_SetAll, ?content_Set.
Qed.

Lemma content_instanceRepos (s : GoMap.Schedule) n host fqdn repos ms :
  content (instanceRepos K s n host fqdn repos ms) =
  PGBackRest.instanceRepos K s n host fqdn repos (content ms).
Proof.
  revert n ms. induction repos as [|repo repos IH]; intros n ms; [done|].
  cbn [instanceRepos PGBackRest.instanceRepos].
  by rewrite IH, content_instanceRepo.
Qed.

Lemma content_repoHostRepo (s : GoMap.Schedule) n repo ms set :
  content (repoHostRepo K s n repo (ms, set)).1 =
  (PGBackRest.repoHostRepo K s n repo (content ms, set)).1 ∧
  (repoHostRepo K s n repo (ms, set)).2 =
  (PGBackRest.repoHostRepo K s n repo (content ms, set)).2.
Proof.
  unfold repoHostRepo, PGBackRest.repoHostRepo. cbv zeta.
  destruct (negb set && _); destruct (Volume repo); cbn [fst snd];
    by rewrite ?content_Set, ?content_SetAll, ?content_Set.
Qed.

Lemma content_repoHostRepos (s : GoMap.Schedule) n repos ms set :
  content (repoHostRepos K s n repos (ms, set)).1 =
  (PGBackRest.repoHostRepos K s n repos (content ms, set)).1.
Proof.
  revert n ms set. induction repos as [|repo repos IH]; intros n ms set; [done|].
  cbn [repoHostRepos PGBackRest.repoHostRepos].
  destruct (content_repoHostRepo s n repo ms set) as [Hstep Hset].
  destruct (repoHostRepo K s n repo (ms, set)) as [ms' set1].
  destruct (PGBackRest.repoHostRepo K s n repo (content ms, set)) as [m' set2].
  cbn [fst snd] in Hstep, Hset. subst set2 m'. apply IH.
Qed.

Lemma content_repoHostStanzas serviceName serviceNamespace pgdataDir pgPort i
    pgHosts ms :
  content (repoHostStanzas K serviceName serviceNamespace pgdataDir pgPort i
             pgHosts ms) =
  PGBackRest.repoHostStanzas K serviceName serviceNamespace pgdataDir pgPort i
    pgHosts (content ms).
Proof.
  revert i ms. induction pgHosts as [|pgHost pgHosts IH]; intros i ms; [done|].
  cbn [repoHostStanzas PGBackRest.repoHostStanzas]. rewrite IH.
  unfold repoHostStanza, PGBackRest.repoHostStanza. cbv zeta.
  by rewrite !content_Set.
Qed.

(** The builders over sections by key return the content of what the
    builders over ordered sections return. *)
Lemma populatePGInstanceConfigurationMap_contents (s : GoMap.Schedule)
    serviceName serviceNamespace repoHostName pgdataDir pgPort repos globalConfig :
  contents (populatePGInstanceConfigurationMap K s serviceName serviceNamespace
              repoHostName pgdataDir pgPort repos globalConfig) =
  PGBackRest.populatePGInstanceConfigurationMap K s serviceName serviceNamespace
    repoHostName pgdataDir pgPort repos globalConfig.
Proof.
  unfold populatePGInstanceConfigurationMap,
    PGBackRest.populatePGInstanceConfigurationMap, contents.
  cbv zeta. cbn [foldl fst snd].
  by rewrite content_SetAll, content_instanceRepos, !content_Set.
Qed.

Lemma populateRepoHostConfigurationMap_contents (s : GoMap.Schedule)
    serviceName serviceNamespace pgdataDir pgPort pgHosts repos globalConfig :
  contents (populateRepoHostConfigurationMap K s serviceName serviceNamespace
              pgdataDir pgPort pgHosts repos globalConfig) =
  PGBackRest.populateRepoHostConfigurationMap K s serviceName serviceNamespace
    pgdataDir pgPort pgHosts repos globalConfig.
Proof.
  unfold populateRepoHostConfigurationMap,
    PGBackRest.populateRepoHostConfigurationMap, contents.
  cbv zeta. cbn [foldl fst snd].
  by rewrite content_SetAll, content_repoHostRepos, content_repoHostStanzas.
Qed.

End OrderedContent.

(** ** The builders over ordered sections *)

Section OrderedBuilders.
Import V1beta1 PGBackRestOrdered.
Context (K : PGBackRest.Names).











End OrderedBuilders.




(** ** Keys of the stanza: a number printed in decimal is made of digits *)

Section Digits.
Import Keys.

Lemma pretty_N_char_digit x : isDigit (pretty_N_char x) = true.
Proof. unfold pretty_N_char. by repeat case_match. Qed.

Lemma pretty_N_go_digits x s :
  digitsOnly s = true → digitsOnly (pretty_N_go x s) = true.
Proof.
  revert s. induction (N.lt_wf_0 x) as [x _ IH]; intros s Hs.
  assert (x = 0 ∨ 0 < x)%N as [->|Hpos] by lia.
  - by rewrite pretty_N_go_0.
  - rewrite pretty_N_go_step by done. apply IH.
    + by apply N.div_lt.
    + simpl. by rewrite pretty_N_char_digit.
Qed.

Lemma pretty_nat_digits (n : nat) : digitsOnly (pretty n) = true.
Proof.
  unfold pretty, pretty_nat, pretty, pretty_N.
  case_decide; [done|]. by apply pretty_N_go_digits.
Qed.

Lemma takeDigits_app d rest :
  digitsOnly d = true → takeDigits (d +:+ String "-" rest) = d.
Proof.
  induction d as [|c d IH]; simpl; [done|].
  intros [Hc Hd]%andb_true_iff. rewrite Hc. by rewrite IH.
Qed.

Lemma dropDigits_app d rest :
  digitsOnly d = true → dropDigits (d +:+ String "-" rest) = String "-" rest.
Proof.
  induction d as [|c d IH]; simpl; [done|].
  intros [Hc Hd]%andb_true_iff. rewrite Hc. by rewrite IH.
Qed.

(** Two keys are the same only for the same index and the same suffix. *)
Lemma pgKey_inj i j s t :
  pgKey i (String "-" s) = pgKey j (String "-" t) → i = j ∧ s = t.
Proof.
  unfold pgKey. rewrite !append_cons, !append_nil_l. intros [= Heq].
  pose proof (f_equal takeDigits Heq) as Htake.
  pose proof (f_equal dropDigits Heq) as Hdrop.
  rewrite !takeDigits_app in Htake by apply pretty_nat_digits.
  rewrite !dropDigits_app in Hdrop by apply pretty_nat_digits.
  split; [by apply (inj pretty)|congruence].
Qed.

Lemma hostSuffix_dash suffix :
  suffix ∈ hostSuffixes → ∃ s, suffix = String "-" s.
Proof.
  unfold hostSuffixes. intros H.
  repeat (apply elem_of_cons in H as [->|H]; [eauto|]).
  by apply elem_of_nil in H.
Qed.

Lemma pgKey_host_inj i j s t :
  s ∈ hostSuffixes → t ∈ hostSuffixes → pgKey i s = pgKey j t → i = j ∧ s = t.
Proof.
  intros [s' ->]%hostSuffix_dash [t' ->]%hostSuffix_dash Heq.
  apply pgKey_inj in Heq as [-> ->]. done.
Qed.

End Digits.

(** ** The stanza of the repository host: one group of keys per host *)

Section Stanza.
Import V1beta1 PGBackRest Keys.
Context (K : Names) (serviceName serviceNamespace pgdataDir : string) (pgPort : Z).

Local Abbreviation step := (repoHostStanza K serviceName serviceNamespace pgdataDir pgPort).
Local Abbreviation steps := (repoHostStanzas K serviceName serviceNamespace pgdataDir pgPort).
Local Abbreviation value := (hostValue K serviceName serviceNamespace pgdataDir pgPort).

Lemma repoHostStanza_keys i pgHost stanza :
  step i pgHost stanza =
  Set_ (pgKey (S i) "-socket-path") (value pgHost "-socket-path")
    (Set_ (pgKey (S i) "-port") (value pgHost "-port")
      (Set_ (pgKey (S i) "-path") (value pgHost "-path")
        (Set_ (pgKey (S i) "-host-key-file") (value pgHost "-host-key-file")
          (Set_ (pgKey (S i) "-host-cert-file") (value pgHost "-host-cert-file")
            (Set_ (pgKey (S i) "-host-ca-file") (value pgHost "-host-ca-file")
              (Set_ (pgKey (S i) "-host-type") (value pgHost "-host-type")
                (Set_ (pgKey (S i) "-host") (value pgHost "-host") stanza))))))).
Proof. reflexivity. Qed.

(** Reads a key through the eight writes of one step. *)
Local Ltac same_suffix :=
  repeat (rewrite Set_lookup;
          let Hd := fresh "Hd" in
          case_decide as Hd;
          [first [reflexivity | by apply pgKey_inj in Hd as [_ Hd]]
          |try (by destruct Hd)]).

Lemma repoHostStanza_same i pgHost stanza suffix :
  suffix ∈ hostSuffixes →
  step i pgHost stanza !! pgKey (S i) suffix = Some [value pgHost suffix].
Proof.
  intros Hin. rewrite repoHostStanza_keys. unfold hostSuffixes in Hin.
  repeat (apply elem_of_cons in Hin as [->|Hin]; [same_suffix|]).
  by apply elem_of_nil in Hin.
Qed.

Lemma repoHostStanza_other i pgHost stanza key :
  (∀ suffix, suffix ∈ hostSuffixes → key ≠ pgKey (S i) suffix) →
  step i pgHost stanza !! key = stanza !! key.
Proof.
  intros Hne. rewrite repoHostStanza_keys.
  repeat (rewrite Set_lookup; case_decide as Hd;
          [exfalso; eapply Hne; [|by symmetry]; unfold hostSuffixes; set_solver
          |clear Hd]).
  done.
Qed.

Lemma repoHostStanzas_other i pgHosts stanza key :
  (∀ k suffix, (k < length pgHosts)%nat → suffix ∈ hostSuffixes →
     key ≠ pgKey (S (i + k)) suffix) →
  steps i pgHosts stanza !! key = stanza !! key.
Proof.
  revert i stanza. induction pgHosts as [|pgHost pgHosts IH]; intros i stanza Hne;
    simpl; [done|].
  rewrite IH.
  - apply repoHostStanza_other. intros suffix Hin.
    specialize (Hne 0%nat suffix). rewrite Nat.add_0_r in Hne.
    apply Hne; [simpl; lia|done].
  - intros k suffix Hk Hin. specialize (Hne (S k) suffix).
    replace (S i + k)%nat with (i + S k)%nat by lia. apply Hne; [simpl; lia|done].
Qed.

Lemma repoHostStanzas_same i pgHosts stanza k pgHost suffix :
  pgHosts !! k = Some pgHost → suffix ∈ hostSuffixes →
  steps i pgHosts stanza !! pgKey (S (i + k)) suffix = Some [value pgHost suffix].
Proof.
  revert i stanza k. induction pgHosts as [|first pgHosts IH]; intros i stanza k Hk Hin;
    [done|]. simpl. destruct k as [|k]; simpl in Hk.
  - injection Hk as ->. rewrite Nat.add_0_r.
    rewrite repoHostStanzas_other; [by apply repoHostStanza_same|].
    intros k' suffix' _ Hin' Heq. apply pgKey_host_inj in Heq as [Heq _]; [lia|done..].
  - replace (i + S k)%nat with (S i + k)%nat by lia. by apply IH.
Qed.

Lemma repoHostStanzas_dom i pgHosts stanza key :
  is_Some (steps i pgHosts stanza !! key) →
  is_Some (stanza !! key) ∨
  ∃ k suffix, (k < length pgHosts)%nat ∧ suffix ∈ hostSuffixes ∧
              key = pgKey (S (i + k)) suffix.
Proof.
  revert i stanza. induction pgHosts as [|pgHost pgHosts IH]; intros i stanza;
    simpl; [by left|].
  intros [Hacc|(k & suffix & Hk & Hin & ->)]%IH.
  - destruct (decide (Exists (λ suffix, key = pgKey (S i) suffix) hostSuffixes))
      as [Hex|Hnex].
    + apply Exists_exists in Hex as (suffix & Hin & ->).
      right. exists 0%nat, suffix. rewrite Nat.add_0_r. split; [lia|done].
    + left. rewrite repoHostStanza_other in Hacc; [done|].
      intros suffix Hin ->. apply Hnex, Exists_exists. eauto.
  - right. exists (S k), suffix.
    replace (i + S k)%nat with (S i + k)%nat by lia. split; [lia|done].
Qed.

End Stanza.

(** C6. In the configuration of an instance the stanza holds the keys
    pg1-path, pg1-port and pg1-socket-path and nothing else, whatever the
    repositories, the global settings and the name of the repository host.
    In the configuration of the repository host the keys of the stanza are
    the key "pg" i suffix for every i from 1 to the number of hosts and
    every suffix of a host, and no other key; the keys of index k+1 are those
    of the host at position k of the list. *)
Theorem C6_stanza_indices
    (K : PGBackRest.Names) (sched : GoMap.Schedule)
    (serviceName serviceNamespace repoHostName pgdataDir : string) (pgPort : Z)
    (pgHosts : list string) (repos : list V1beta1.PGBackRestRepo)
    (globalConfig : gmap string string) :
  let instance := Keys.stanzaSection
    (PGBackRest.populatePGInstanceConfigurationMap K sched
       serviceName serviceNamespace repoHostName pgdataDir pgPort repos globalConfig) in
  let repoHost := Keys.stanzaSection
    (PGBackRest.populateRepoHostConfigurationMap K sched
       serviceName serviceNamespace pgdataDir pgPort pgHosts repos globalConfig) in
  instance =
    <["pg1-socket-path" := [PGBackRest.SocketDirectory K]]>
      (<["pg1-port" := [pretty pgPort]]> (<["pg1-path" := [pgdataDir]]> ∅)) ∧
  (∀ key, is_Some (repoHost !! key) ↔
     ∃ i suffix, (1 ≤ i ≤ length pgHosts)%nat ∧ suffix ∈ Keys.hostSuffixes ∧
                 key = Keys.pgKey i suffix) ∧
  (∀ k pgHost suffix, pgHosts !! k = Some pgHost → suffix ∈ Keys.hostSuffixes →
     repoHost !! Keys.pgKey (S k) suffix =
       Some [Keys.hostValue K serviceName serviceNamespace pgdataDir pgPort
               pgHost suffix]).
Proof.
  cbv zeta. unfold Keys.stanzaSection,
    PGBackRest.populatePGInstanceConfigurationMap,
    PGBackRest.populateRepoHostConfigurationMap.
  rewrite !lookup_insert_eq. simpl. split; [done|]. split.
  - intros key. split.
    + intros [Hempty|(k & suffix & Hk & Hin & ->)]%repoHostStanzas_dom.
      * rewrite lookup_empty in Hempty. by destruct Hempty.
      * exists (S k), suffix. split; [lia|done].
    + intros (i & suffix & Hi & Hin & ->).
      destruct i as [|k]; [lia|].
      destruct (lookup_lt_is_Some_2 pgHosts k) as [pgHost Hk]; [lia|].
      pose proof (repoHostStanzas_same K serviceName serviceNamespace pgdataDir
                    pgPort 0 pgHosts ∅ k pgHost suffix Hk Hin) as Hsame.
      simpl in Hsame. by rewrite Hsame.
  - intros k pgHost suffix Hk Hin.
    by apply (repoHostStanzas_same K serviceName serviceNamespace pgdataDir
                pgPort 0 pgHosts ∅ k pgHost suffix).
Qed.

(** ** The log path of the repository host *)

Section LogPath.
Import V1beta1 PGBackRest Keys.
Context (K : Names).

Lemma type_key_not_log_path name : name +:+ "-type" ≠ "log-path".
Proof.
  intros H. pose proof (f_equal String.length H) as Hlen.
  rewrite append_length in Hlen. simpl in Hlen.
  destruct name as [|a [|b [|c [|d name]]]]; simpl in Hlen; try lia.
  rewrite !append_cons, append_nil_l in H. simplify_eq.
Qed.

Lemma path_key_log_path name : name +:+ "-path" = "log-path" → name = "log".
Proof.
  intros H. pose proof (f_equal String.length H) as Hlen.
  rewrite append_length in Hlen. simpl in Hlen.
  destruct name as [|a [|b [|c [|d name]]]]; simpl in Hlen; try lia.
  rewrite !append_cons, append_nil_l in H. by simplify_eq.
Qed.

Lemma long_key_not_log_path name suffix :
  (8 < String.length suffix)%nat → name +:+ suffix ≠ "log-path".
Proof.
  intros Hlong H. pose proof (f_equal String.length H) as Hlen.
  rewrite append_length in Hlen. simpl in Hlen. lia.
Qed.

Lemma getExternalRepoConfigs_log_path repo :
  getExternalRepoConfigs repo !! "log-path" = None.
Proof.
  unfold getExternalRepoConfigs.
  destruct (Azure repo), (GCS repo), (S3 repo);
    rewrite ?lookup_insert_ne; try apply lookup_empty;
    first [apply type_key_not_log_path
          |apply long_key_not_log_path; simpl; lia].
Qed.

Lemma repoHostRepo_log_path (sched : GoMap.Schedule) n repo global set :
  GoMap.fair sched → Name repo ≠ "log" →
  let after := repoHostRepo K sched n repo (global, set) in
  after.2 = set || bool_decide (is_Some (Volume repo)) ∧
  after.1 !! "log-path" =
    if negb set && bool_decide (is_Some (Volume repo))
    then Some [PGBackRestRepoLogPath K (Name repo)]
    else global !! "log-path".
Proof.
  intros Hfair Hname. cbv zeta. unfold repoHostRepo.
  assert (Name repo +:+ "-path" ≠ "log-path") as Hpath
    by (intros H; by apply path_key_log_path in H).
  destruct (Volume repo) as [volume|] eqn:Hvolume.
  - rewrite bool_decide_eq_true_2 by eauto. destruct set; simpl.
    + split; [done|]. rewrite Set_lookup. by rewrite decide_False.
    + split; [done|]. rewrite Set_lookup. by rewrite decide_True.
  - rewrite bool_decide_eq_false_2 by (by intros [? ?]).
    rewrite andb_false_r, orb_false_r. simpl. split; [done|].
    rewrite SetAll_range_lookup by done.
    rewrite getExternalRepoConfigs_log_path.
    rewrite Set_lookup. by rewrite decide_False.
Qed.

Lemma repoHostRepos_log_path (sched : GoMap.Schedule) n repos global set :
  GoMap.fair sched → (∀ repo, repo ∈ repos → Name repo ≠ "log") →
  (repoHostRepos K sched n repos (global, set)).1 !! "log-path" =
    if set then global !! "log-path"
    else match firstVolume repos with
         | Some repo => Some [PGBackRestRepoLogPath K (Name repo)]
         | None => global !! "log-path"
         end.
Proof.
  intros Hfair. revert n global set.
  induction repos as [|repo repos IH]; intros n global set Hnames.
  { simpl. by destruct set. }
  change (repoHostRepos K sched n (repo :: repos) (global, set))
    with (repoHostRepos K sched (S n) repos (repoHostRepo K sched n repo (global, set))).
  destruct (repoHostRepo_log_path sched n repo global set Hfair) as [Hset Hlog].
  { apply Hnames. by left. }
  destruct (repoHostRepo K sched n repo (global, set)) as [global' set'] eqn:Hstep.
  simpl in Hset, Hlog. rewrite IH by (intros ? ?; apply Hnames; by right).
  subst set'. rewrite Hlog. unfold firstVolume. simpl.
  by destruct set, (bool_decide (is_Some (Volume repo))).
Qed.

End LogPath.

(** C7, as stated, does not hold, in two ways.  The global settings are
    written after the repositories, so a log-path among them replaces the
    one of the first volume: here the repositories are S3 "a", volume "b",
    volume "c" and the global settings set log-path to /tmp.  And the key
    of the path of a repository named "log" is log-path itself: here the
    repositories are volume "b" and S3 "log". *)
Lemma C7_counterexample :
  let claim (repos : list V1beta1.PGBackRestRepo)
            (globalConfig : gmap string string) : Prop :=
    ∀ (K : PGBackRest.Names) (sched : GoMap.Schedule)
      (serviceName serviceNamespace pgdataDir : string) (pgPort : Z)
      (pgHosts : list string),
      GoMap.fair sched →
      Keys.globalSection
        (PGBackRest.populateRepoHostConfigurationMap K sched
           serviceName serviceNamespace pgdataDir pgPort pgHosts repos globalConfig)
        !! "log-path" =
      match Keys.firstVolume repos with
      | Some repo => Some [PGBackRest.PGBackRestRepoLogPath K (V1beta1.Name repo)]
      | None => None
      end in
  ¬ claim Samples.repos_a_b_c {[ "log-path" := "/tmp" ]} ∧
  ¬ claim [Samples.volume "b"; Samples.s3 "log"] ∅.
Proof.
  cbv zeta. split; intros H.
  - specialize (H Samples.names GoMap.inOrder "hippo-hosts" "ivory" "/pgdata/ivory15"
                  5432 ["hippo-instance1"] inOrder_fair).
    vm_compute in H. discriminate H.
  - specialize (H Samples.names GoMap.inOrder "hippo-hosts" "ivory" "/pgdata/ivory15"
                  5432 ["hippo-instance1"] inOrder_fair).
    vm_compute in H. discriminate H.
Qed.

(** C7, amended. When the global settings have no log-path and no
    repository is named "log", the log-path of the repository host is the
    path of the first repository of the list that is backed by a volume, and
    the section has no log-path when none is. *)
Theorem C7_log_path_first_volume
    (K : PGBackRest.Names) (sched : GoMap.Schedule)
    (serviceName serviceNamespace pgdataDir : string) (pgPort : Z)
    (pgHosts : list string) (repos : list V1beta1.PGBackRestRepo)
    (globalConfig : gmap string string) :
  GoMap.fair sched →
  globalConfig !! "log-path" = None →
  (∀ repo, repo ∈ repos → V1beta1.Name repo ≠ "log") →
  Keys.globalSection
    (PGBackRest.populateRepoHostConfigurationMap K sched
       serviceName serviceNamespace pgdataDir pgPort pgHosts repos globalConfig)
    !! "log-path" =
  match Keys.firstVolume repos with
  | Some repo => Some [PGBackRest.PGBackRestRepoLogPath K (V1beta1.Name repo)]
  | None => None
  end.
Proof.
  intros Hfair Hglobal Hnames.
  unfold Keys.globalSection, PGBackRest.populateRepoHostConfigurationMap.
  rewrite lookup_insert_ne by done. rewrite lookup_insert_eq. simpl.
  rewrite SetAll_range_lookup by done. rewrite Hglobal.
  rewrite repoHostRepos_log_path by done.
  rewrite lookup_empty. done.
Qed.

(** ** The log settings of the TLS server *)

Lemma serverConfig_server_section (K : PGBackRest.Names) (cluster : V1beta1.IvoryCluster) :
  PGBackRest.serverSection (PGBackRest.serverConfig K cluster) =
  <["log-timestamp" := ["n"]]>
    (<["log-level-file" := ["off"]]>
      (<["log-level-stderr" := ["error"]]>
        (<["log-level-console" := ["detail"]]> ∅))).
Proof.
  unfold PGBackRest.serverSection, PGBackRest.serverConfig.
  by rewrite lookup_insert_eq.
Qed.

(** C9, as stated, does not hold: the console level is set to detail, so a
    message of level info reaches standard output. *)
Lemma C9_counterexample :
  ¬ (∀ (K : PGBackRest.Names) (cluster : V1beta1.IvoryCluster)
       (message : PGBackRest.LogLevel),
       let server := PGBackRest.serverSection (PGBackRest.serverConfig K cluster) in
       PGBackRest.reachesStdout server message || PGBackRest.reachesStderr server message
         = true →
       message = PGBackRest.LevelWarn ∨ message = PGBackRest.LevelError).
Proof.
  intros H.
  destruct (H Samples.names (Samples.cluster 15) PGBackRest.LevelInfo) as [Heq|Heq].
  - rewrite serverConfig_server_section. reflexivity.
  - discriminate Heq.
  - discriminate Heq.
Qed.

(** C9, amended. The server section that serverConfig returns sets
    log-level-console to detail, log-level-stderr to error, log-level-file
    to off and log-timestamp to n, for every cluster.  So errors, and only
    errors, reach standard error; warnings, info and detail messages, and
    only those, reach standard output. *)
Theorem C9_server_log_levels
    (K : PGBackRest.Names) (cluster : V1beta1.IvoryCluster)
    (message : PGBackRest.LogLevel) :
  let server := PGBackRest.serverSection (PGBackRest.serverConfig K cluster) in
  server !! "log-level-console" = Some ["detail"] ∧
  server !! "log-level-stderr" = Some ["error"] ∧
  server !! "log-level-file" = Some ["off"] ∧
  server !! "log-timestamp" = Some ["n"] ∧
  (PGBackRest.reachesStderr server message = true ↔
     message = PGBackRest.LevelError) ∧
  (PGBackRest.reachesStdout server message = true ↔
     message = PGBackRest.LevelWarn ∨ message = PGBackRest.LevelInfo ∨
     message = PGBackRest.LevelDetail).
Proof.
  cbv zeta. rewrite serverConfig_server_section.
  repeat split; try reflexivity.
  - destruct message; done.
  - by intros ->.
  - destruct message; (discriminate || eauto).
  - intros [->|[->| ->]]; reflexivity.
Qed.

(** ** Huge pages *)

Section HugePagesRequested.
Import V1beta1 Ivory.

Lemma range_limits_spec (sched : GoMap.Schedule) n instance :
  GoMap.fair sched →
  existsb (λ entry, limitRequestsHugePages (Limits instance) entry.1)
    (GoMap.range sched n (Limits instance)) = true ↔
  limitsHugePages instance.
Proof.
  intros Hfair. rewrite existsb_exists. unfold limitsHugePages. split.
  - intros ([name quantity] & Hin & Hreq).
    apply list_elem_of_In, range_elem_of in Hin; [|done].
    unfold limitRequestsHugePages, LimitsName in Hreq. simpl in Hreq.
    rewrite Hin in Hreq. simpl in Hreq.
    apply andb_true_iff in Hreq as [Hprefix Hvalue%bool_decide_eq_true].
    by exists name, quantity.
  - intros (name & quantity & Hin & Hprefix & Hvalue).
    exists (name, quantity). split.
    + apply list_elem_of_In. by apply range_elem_of.
    + unfold limitRequestsHugePages, LimitsName. simpl. rewrite Hin. simpl.
      apply andb_true_iff. split; [done|]. by apply bool_decide_eq_true.
Qed.

Lemma instancesRequestHugePages_spec (sched : GoMap.Schedule) n instances :
  GoMap.fair sched →
  instancesRequestHugePages sched n instances = true ↔
  ∃ instance, instance ∈ instances ∧ limitsHugePages instance.
Proof.
  intros Hfair. revert n.
  induction instances as [|instance instances IH]; intros n; simpl.
  { split; [done|]. intros (? & Hin & _). by apply elem_of_nil in Hin. }
  destruct (existsb _ _) eqn:Hhere.
  - split; [|done]. intros _. exists instance. split; [by left|].
    by apply (range_limits_spec sched n).
  - rewrite IH. split.
    + intros (other & Hin & Hlimits). exists other. split; [by right|done].
    + intros (other & [->|Hin]%elem_of_cons & Hlimits); [|eauto].
      apply (range_limits_spec sched n) in Hlimits; [|done]. congruence.
Qed.

End HugePagesRequested.

(** C10. SetHugePages calls Add once, on the default parameters, for the
    parameter huge_pages, and leaves the mandatory parameters as they are.
    The value is "try" exactly when some instance set has a limit whose
    name starts with "hugepages-" and whose quantity is above zero, and
    "off" exactly when none has. *)
Theorem C10_huge_pages_try_or_off
    {ParameterSet : Type} (Add : string → string → ParameterSet → ParameterSet)
    (sched : GoMap.Schedule) (cluster : V1beta1.IvoryCluster)
    (pgParameters : Ivory.Parameters) :
  GoMap.fair sched →
  let requested :=
    ∃ instance name quantity,
      instance ∈ V1beta1.InstanceSets (V1beta1.ClusterSpec cluster) ∧
      V1beta1.Limits instance !! name = Some quantity ∧
      String.prefix "hugepages-" name = true ∧
      0 < V1beta1.Value quantity in
  ∃ value,
    Ivory.SetHugePages Add sched cluster pgParameters =
      {| Ivory.Mandatory := Ivory.Mandatory pgParameters;
         Ivory.Default := Add "huge_pages" value (Ivory.Default pgParameters) |} ∧
    (value = "try" ↔ requested) ∧
    (value = "off" ↔ ¬ requested).
Proof.
  intros Hfair requested.
  assert (Ivory.hugePagesRequested sched cluster = true ↔ requested) as Hspec.
  { unfold Ivory.hugePagesRequested. rewrite instancesRequestHugePages_spec by done.
    unfold requested, Ivory.limitsHugePages. split.
    - intros (instance & Hin & name & quantity & Hlimit & Hprefix & Hvalue).
      by exists instance, name, quantity.
    - intros (instance & name & quantity & Hin & Hlimit & Hprefix & Hvalue).
      exists instance. split; [done|]. by exists name, quantity. }
  unfold Ivory.SetHugePages.
  destruct (Ivory.hugePagesRequested sched cluster).
  - exists "try". split; [done|]. split; [tauto|].
    split; [done|]. intros Hnot. destruct Hnot. by apply Hspec.
  - exists "off". split; [done|].
    assert (¬ requested) by (intros Hr; by apply Hspec in Hr).
    split; [|done]. split; [done|tauto].
Qed.

(** ** The exporter is set up only for a new revision *)

(** C8. reconcilePGMonitorExporter calls PodExec only when the revision it
    computed (the hash of the input of the SQL with the command and the
    image identifiers) differs from the one recorded in the status; when the
    two are equal it calls nothing, leaves the cluster as it is and returns
    nil. *)
Theorem C8_exporter_runs_only_on_new_revision
    {Instance Secret : Type} (r : @PGMonitor.Collaborators Instance Secret)
    (cluster : V1beta1.IvoryCluster)
    (writablePod : option PGMonitor.Pod) (writableInstance : option Instance)
    (monitoringSecret : Secret) :
  let outcome := PGMonitor.reconcilePGMonitorExporter r cluster
                   writablePod writableInstance monitoringSecret in
  let recorded := V1beta1.ExporterConfiguration (V1beta1.ClusterStatus cluster) in
  (PGMonitor.PodExecs outcome ≠ [] →
     ∃ pod revision,
       writablePod = Some pod ∧
       PGMonitor.revision r cluster pod monitoringSecret = (revision, None) ∧
       revision ≠ recorded) ∧
  (∀ pod,
     writablePod = Some pod →
     PGMonitor.revision r cluster pod monitoringSecret = (recorded, None) →
     outcome = {| PGMonitor.Returned := None;
                  PGMonitor.ClusterAfter := cluster;
                  PGMonitor.PodExecs := [] |}).
Proof.
  cbv zeta. unfold PGMonitor.reconcilePGMonitorExporter.
  destruct writableInstance as [instance|], writablePod as [pod|];
    try (split; [done|by intros]).
  destruct (PGMonitor.IsRunning r instance _) as [running known].
  destruct (_ && (negb running || negb known)); [split; [done|by intros]|].
  destruct (PGMonitor.images r cluster pod) as [exporterImageSHA pgImageSHA].
  destruct (_ && (bool_decide (exporterImageSHA = "") || _));
    [split; [done|by intros]|].
  destruct (PGMonitor.revision r cluster pod monitoringSecret)
    as [revision [err|]] eqn:Hrevision.
  { split; [done|]. intros ? [= <-] Hrecorded.
    rewrite Hrevision in Hrecorded. discriminate Hrecorded. }
  case_bool_decide as Hnew.
  - split.
    + intros _. by exists pod, revision.
    + intros ? [= <-] Hrecorded. rewrite Hrevision in Hrecorded.
      by injection Hrecorded as ->.
  - split; [done|by intros].
Qed.

(** ** Status conditions *)

Section Conditions.
Import Metav1 Meta.

Lemma FindStatusCondition_app_None conditions extra conditionType :
  FindStatusCondition conditions conditionType = None →
  FindStatusCondition (conditions ++ extra) conditionType =
  FindStatusCondition extra conditionType.
Proof.
  unfold FindStatusCondition.
  induction conditions as [|c conditions IH]; simpl; [done|].
  by case_bool_decide.
Qed.

Lemma FindStatusCondition_overwriteFirst now conditions new found :
  FindStatusCondition conditions (Type_ new) = Some found →
  FindStatusCondition (overwriteFirst now conditions new) (Type_ new) =
  Some (overwrite now found new).
Proof.
  unfold FindStatusCondition.
  induction conditions as [|c conditions IH]; simpl; [done|].
  case_bool_decide as Hc; simpl.
  - intros [= ->]. by rewrite bool_decide_eq_true_2.
  - intros Hfound. rewrite bool_decide_eq_false_2 by done. by apply IH.
Qed.

Lemma FindStatusCondition_overwriteFirst_other now conditions new conditionType :
  conditionType ≠ Type_ new →
  FindStatusCondition (overwriteFirst now conditions new) conditionType =
  FindStatusCondition conditions conditionType.
Proof.
  intros Hne. unfold FindStatusCondition.
  induction conditions as [|c conditions IH]; simpl; [done|].
  case_bool_decide as Hc; simpl.
  - rewrite !bool_decide_eq_false_2 by congruence. done.
  - case_bool_decide; [done|]. apply IH.
Qed.

(** After SetStatusCondition the condition of that type has the status, the
    reason and the message that were set. *)
Lemma FindStatusCondition_set now conditions new :
  ∃ found,
    FindStatusCondition (SetStatusCondition now conditions new) (Type_ new)
      = Some found ∧
    Status found = Status new ∧ Reason found = Reason new ∧
    Message found = Message new.
Proof.
  unfold SetStatusCondition.
  destruct (FindStatusCondition conditions (Type_ new)) as [found|] eqn:Hfound.
  - exists (overwrite now found new). split; [|done].
    by apply FindStatusCondition_overwriteFirst.
  - rewrite FindStatusCondition_app_None by done.
    unfold FindStatusCondition. simpl. rewrite bool_decide_eq_true_2 by done.
    eexists. split; [reflexivity|done].
Qed.

(** SetStatusCondition leaves the conditions of the other types. *)
Lemma FindStatusCondition_set_other now conditions new conditionType :
  conditionType ≠ Type_ new →
  FindStatusCondition (SetStatusCondition now conditions new) conditionType =
  FindStatusCondition conditions conditionType.
Proof.
  intros Hne. unfold SetStatusCondition.
  destruct (FindStatusCondition conditions (Type_ new)) as [found|] eqn:Hfound.
  - by apply FindStatusCondition_overwriteFirst_other.
  - unfold FindStatusCondition in *.
    induction conditions as [|c conditions IH]; simpl in *.
    + by rewrite bool_decide_eq_false_2.
    + revert Hfound.
      destruct (bool_decide (Type_ c = Type_ new)); [done|]. intros Hfound.
      destruct (bool_decide (Type_ c = conditionType)); [done|]. by apply IH.
Qed.

End Conditions.

(** ** The upgrade reconciler *)

Section Upgrade.
Import Metav1 V1beta1 IvyUpgrade.
Context (r : Reconciler).

Lemma setStatusToProgressingIfReasonWas_meta reason upgrade :
  UpgradeMeta (setStatusToProgressingIfReasonWas r reason upgrade) = UpgradeMeta upgrade.
Proof. unfold setStatusToProgressingIfReasonWas. by repeat case_match. Qed.

Lemma setStatusToProgressingIfReasonWas_spec reason upgrade :
  UpgradeSpec (setStatusToProgressingIfReasonWas r reason upgrade) = UpgradeSpec upgrade.
Proof. unfold setStatusToProgressingIfReasonWas. by repeat case_match. Qed.

Lemma conditions_differ : ConditionIvyUpgradeSucceeded ≠ ConditionIvyUpgradeProgressing.
Proof. done. Qed.

Lemma setCondition_progressingIs upgrade other status reason message :
  progressingIs (setCondition r upgrade (progressing other status reason message))
    status reason.
Proof.
  unfold progressingIs, setCondition. simpl.
  destruct (FindStatusCondition_set (now r) (Conditions (UpgradeStatus upgrade))
              (progressing other status reason message))
    as (found & Hfound & Hstatus & Hreason & _).
  by exists found.
Qed.

Lemma setCondition_progressing_succeededOf upgrade other status reason message :
  succeededOf (setCondition r upgrade (progressing other status reason message)) =
  succeededOf upgrade.
Proof.
  unfold succeededOf, setCondition. simpl.
  apply FindStatusCondition_set_other, conditions_differ.
Qed.

Lemma setStatusToProgressingIfReasonWas_succeededOf reason upgrade :
  succeededOf (setStatusToProgressingIfReasonWas r reason upgrade) =
  succeededOf upgrade.
Proof.
  unfold setStatusToProgressingIfReasonWas.
  repeat case_match; auto using setCondition_progressing_succeededOf.
Qed.

Lemma whenObserving_meta upgrade : UpgradeMeta (whenObserving r upgrade) = UpgradeMeta upgrade.
Proof. unfold whenObserving. by rewrite !setStatusToProgressingIfReasonWas_meta. Qed.

Lemma whenObserving_spec upgrade : UpgradeSpec (whenObserving r upgrade) = UpgradeSpec upgrade.
Proof. unfold whenObserving. by rewrite !setStatusToProgressingIfReasonWas_spec. Qed.

Lemma whenObserved_meta upgrade : UpgradeMeta (whenObserved r upgrade) = UpgradeMeta upgrade.
Proof.
  unfold whenObserved.
  by rewrite !setStatusToProgressingIfReasonWas_meta, whenObserving_meta.
Qed.

Lemma whenObserved_spec upgrade : UpgradeSpec (whenObserved r upgrade) = UpgradeSpec upgrade.
Proof.
  unfold whenObserved.
  by rewrite !setStatusToProgressingIfReasonWas_spec, whenObserving_spec.
Qed.

Lemma whenObserved_succeededOf upgrade :
  succeededOf (whenObserved r upgrade) = succeededOf upgrade.
Proof.
  unfold whenObserved, whenObserving.
  by rewrite !setStatusToProgressingIfReasonWas_succeededOf.
Qed.

(** What the deferred function makes of the exit of the body. *)
Lemma Reconcile_deferred sched req upgrade :
  Get r req = inl upgrade →
  let exit := body r sched upgrade in
  let outcome := Reconcile r sched req in
  let patch := PatchUpgradeStatus (ExitUpgrade exit) in
  UpgradeAfter outcome = Some (ExitUpgrade exit) ∧
  Returned outcome = ExitResult exit ∧
  ((Calls outcome = ExitCalls exit ∧ ReturnedErr outcome = ExitErr exit) ∨
   (Calls outcome = (ExitCalls exit ++ [patch])%list ∧
    ReturnedErr outcome =
      match ExitErr exit with
      | None => answer r (ExitCalls exit) patch
      | Some err => Some err
      end)).
Proof.
  intros Hget. cbv zeta. unfold Reconcile. rewrite Hget.
  case_bool_decide; simpl; eauto.
Qed.

(** What the body comes to once the world is observed. *)
Lemma body_observed sched upgrade world :
  successReached upgrade = false →
  FromIvoryVersion (UpgradeSpec upgrade) < ToIvoryVersion (UpgradeSpec upgrade) →
  observeWorld r (whenObserving r upgrade) = inl world →
  body r sched upgrade =
  gates r sched
    (setStatusToProgressingIfReasonWas r "PGClusterErrorWhenObservingWorld"
       (whenObserving r upgrade))
    world.
Proof.
  intros Hreached Hvalid Hworld. unfold body. rewrite Hreached.
  rewrite setStatusToProgressingIfReasonWas_spec.
  rewrite bool_decide_eq_false_2 by lia.
  fold (whenObserving r upgrade). by rewrite Hworld.
Qed.

End Upgrade.

Section Gates.
Import Metav1 V1beta1 IvyUpgrade.
Context (r : Reconciler).

(** The upgrade job is not complete and the cluster is declared at the
    version to reach: the gates stop at IvyUpgradeResolved. *)
Lemma gates_resolved sched upgrade world :
  ClusterNotFound world = None →
  PostgresVersion (ClusterSpec (Cluster world)) = ToIvoryVersion (UpgradeSpec upgrade) →
  upgradeJobComplete r
    (setStatusToProgressingIfReasonWas r "PGClusterNotFound" upgrade) world = false →
  ∃ message,
    gates r sched upgrade world =
    let upgrade := setStatusToProgressingIfReasonWas r "PGClusterNotFound" upgrade in
    stop (setCondition r upgrade
            (progressing upgrade ConditionFalse "IvyUpgradeResolved" message)).
Proof.
  intros Hfound Hversion Hjob. unfold gates. rewrite Hfound.
  destruct (removeDataJobs _ _ _) as [completed failed]. cbv zeta.
  rewrite Hjob, setStatusToProgressingIfReasonWas_spec.
  rewrite bool_decide_eq_true_2 by done. simpl. eauto.
Qed.

(** Without the annotation that names the upgrade, the gates make no call. *)
Lemma gates_not_allowed_calls sched upgrade world :
  index (Annotations (ClusterMeta (Cluster world))) AnnotationAllowUpgrade
    ≠ Metav1.Name (UpgradeMeta upgrade) →
  ExitCalls (gates r sched upgrade world) = [].
Proof.
  intros Hannotation. unfold gates.
  destruct (ClusterNotFound world); [done|].
  destruct (removeDataJobs _ _ _) as [completed failed]. cbv zeta.
  destruct (_ && negb _); [done|].
  destruct (bool_decide (StatusPostgresVersion _ = _)); [done|].
  destruct (negb (ClusterShutdown world) || _); [done|].
  destruct (bool_decide (PostgresVersion _ ≠ _) && _); [done|].
  rewrite !setStatusToProgressingIfReasonWas_meta.
  by rewrite bool_decide_eq_false_2.
Qed.

(** Without the annotation, and with every gate before it open, the gates
    stop at PGClusterMissingRequiredAnnotation. *)
Lemma gates_not_allowed sched upgrade world :
  ClusterNotFound world = None →
  StatusPostgresVersion (ClusterStatus (Cluster world))
    ≠ ToIvoryVersion (UpgradeSpec upgrade) →
  PostgresVersion (ClusterSpec (Cluster world))
    = FromIvoryVersion (UpgradeSpec upgrade) →
  FromIvoryVersion (UpgradeSpec upgrade) < ToIvoryVersion (UpgradeSpec upgrade) →
  ClusterShutdown world = true → is_Some (ClusterPrimary world) →
  index (Annotations (ClusterMeta (Cluster world))) AnnotationAllowUpgrade
    ≠ Metav1.Name (UpgradeMeta upgrade) →
  ∃ exit,
    gates r sched upgrade world = stop exit ∧
    progressingIs exit ConditionFalse "PGClusterMissingRequiredAnnotation".
Proof.
  intros Hfound Hstatus Hversion Hvalid Hshutdown [primary Hprimary] Hannotation.
  unfold gates. rewrite Hfound.
  destruct (removeDataJobs _ _ _) as [completed failed]. cbv zeta.
  rewrite !setStatusToProgressingIfReasonWas_spec,
    !setStatusToProgressingIfReasonWas_meta.
  rewrite (bool_decide_eq_false_2 (PostgresVersion _ = ToIvoryVersion _)) by lia.
  rewrite (bool_decide_eq_false_2 (StatusPostgresVersion _ = _)) by done.
  rewrite Hshutdown, Hprimary. simpl.
  rewrite (bool_decide_eq_false_2 (PostgresVersion _ ≠ _)) by (intros H; by apply H).
  simpl. rewrite bool_decide_eq_false_2 by done. simpl.
  eexists. split; [reflexivity|]. apply setCondition_progressingIs.
Qed.

End Gates.

(** C1. Once the Succeeded condition of an upgrade has the reason
    IvyUpgradeSucceeded (with the status True), a call of Reconcile that reads
    this upgrade returns at once, with no requeue and no error: the upgrade
    is as it was, so the Succeeded condition is neither changed nor removed
    and the status is not patched, and no call is made at all, so no job is
    created and nothing is deleted. *)
Theorem C1_success_is_final
    (r : IvyUpgrade.Reconciler) (sched : GoMap.Schedule) (req : string * string)
    (upgrade : V1beta1.IvyUpgrade) (found : Metav1.Condition) :
  IvyUpgrade.Get r req = inl upgrade →
  IvyUpgrade.succeededOf upgrade = Some found →
  Metav1.Status found = Metav1.ConditionTrue →
  Metav1.Reason found = "IvyUpgradeSucceeded" →
  IvyUpgrade.Reconcile r sched req =
    {| IvyUpgrade.Returned := IvyUpgrade.noRequeue;
       IvyUpgrade.ReturnedErr := None;
       IvyUpgrade.UpgradeAfter := Some upgrade;
       IvyUpgrade.Calls := [] |}.
Proof.
  intros Hget Hfound _ Hreason.
  unfold IvyUpgrade.Reconcile, IvyUpgrade.body, IvyUpgrade.successReached.
  unfold IvyUpgrade.succeededOf in Hfound.
  rewrite Hget, Hfound, Hreason. simpl.
  by rewrite bool_decide_eq_true_2.
Qed.

(** C2, as stated, does not hold, in two ways.  An upgrade that has
    succeeded and whose versions are then edited to 15 and 14 keeps the
    reason IvyUpgradeCompleted, because Reconcile returns before it looks at
    the versions.  And a new upgrade from 15 to 14 makes Reconcile return an
    error when the API refuses the patch of the status that the deferred
    function sends. *)
Lemma C2_counterexample :
  ¬ (∀ (r : IvyUpgrade.Reconciler) (sched : GoMap.Schedule) (req : string * string)
       (upgrade : V1beta1.IvyUpgrade),
       IvyUpgrade.Get r req = inl upgrade →
       V1beta1.ToIvoryVersion (V1beta1.UpgradeSpec upgrade)
         ≤ V1beta1.FromIvoryVersion (V1beta1.UpgradeSpec upgrade) →
       let outcome := IvyUpgrade.Reconcile r sched req in
       ∃ after, IvyUpgrade.UpgradeAfter outcome = Some after ∧
                IvyUpgrade.progressingIs after Metav1.ConditionFalse "IvyUpgradeInvalid") ∧
  ¬ (∀ (r : IvyUpgrade.Reconciler) (sched : GoMap.Schedule) (req : string * string)
       (upgrade : V1beta1.IvyUpgrade),
       IvyUpgrade.Get r req = inl upgrade →
       V1beta1.ToIvoryVersion (V1beta1.UpgradeSpec upgrade)
         ≤ V1beta1.FromIvoryVersion (V1beta1.UpgradeSpec upgrade) →
       IvyUpgrade.ReturnedErr (IvyUpgrade.Reconcile r sched req) = None).
Proof.
  split; intros H.
  - pose (stored := Samples.upgrade 15 14 Samples.conditionsOfSuccess).
    destruct (H (Samples.reconciler stored Samples.shutdownAt14)
                GoMap.inOrder Samples.request stored eq_refl)
      as (after & Hafter & found & Hfound & _ & Hreason).
    { simpl. lia. }
    vm_compute in Hafter. injection Hafter as <-.
    vm_compute in Hfound. injection Hfound as <-.
    discriminate Hreason.
  - assert (IvyUpgrade.ReturnedErr
              (IvyUpgrade.Reconcile
                 (Samples.refusingPatches Samples.backwardsUpgrade Samples.shutdownAt14)
                 GoMap.inOrder Samples.request) = None) as Herr.
    { apply (H _ _ _ Samples.backwardsUpgrade); [reflexivity|simpl; lia]. }
    vm_compute in Herr. discriminate Herr.
Qed.

(** C2, amended. For an upgrade whose from version is not below its to
    version and whose Succeeded condition does not have the reason
    IvyUpgradeSucceeded, Reconcile sets the Progressing condition to False
    with the reason IvyUpgradeInvalid and asks for no requeue.  It creates no
    job and deletes nothing: the only call it can make is the patch of the
    status of the upgrade, and the error it returns is the answer to that
    patch (nil when the status did not change). *)
Theorem C2_invalid_versions
    (r : IvyUpgrade.Reconciler) (sched : GoMap.Schedule) (req : string * string)
    (upgrade : V1beta1.IvyUpgrade) :
  IvyUpgrade.Get r req = inl upgrade →
  V1beta1.ToIvoryVersion (V1beta1.UpgradeSpec upgrade)
    ≤ V1beta1.FromIvoryVersion (V1beta1.UpgradeSpec upgrade) →
  IvyUpgrade.successReached upgrade = false →
  let outcome := IvyUpgrade.Reconcile r sched req in
  ∃ after,
    IvyUpgrade.UpgradeAfter outcome = Some after ∧
    IvyUpgrade.progressingIs after Metav1.ConditionFalse "IvyUpgradeInvalid" ∧
    IvyUpgrade.Returned outcome = IvyUpgrade.noRequeue ∧
    IvyUpgrade.createsNoJob (IvyUpgrade.Calls outcome) ∧
    ((IvyUpgrade.Calls outcome = [] ∧ IvyUpgrade.ReturnedErr outcome = None) ∨
     (IvyUpgrade.Calls outcome = [IvyUpgrade.PatchUpgradeStatus after] ∧
      IvyUpgrade.ReturnedErr outcome =
        IvyUpgrade.answer r [] (IvyUpgrade.PatchUpgradeStatus after))).
Proof.
  intros Hget Hinvalid Hreached.
  destruct (Reconcile_deferred r sched req upgrade Hget) as (Hafter & Hresult & Hcalls).
  unfold IvyUpgrade.body in Hafter, Hresult, Hcalls.
  rewrite Hreached, setStatusToProgressingIfReasonWas_spec in Hafter, Hresult, Hcalls.
  rewrite bool_decide_eq_true_2 in Hafter, Hresult, Hcalls by done.
  simpl in Hafter, Hresult, Hcalls. cbv zeta.
  eexists. split; [exact Hafter|]. split; [apply setCondition_progressingIs|].
  split; [done|].
  destruct Hcalls as [[-> ->]|[-> ->]].
  - split; [|by left]. intros call Hin. by apply elem_of_nil in Hin.
  - split; [|by right]. intros call Hin.
    apply list_elem_of_singleton in Hin as ->. done.
Qed.

(** Without the annotation that names the upgrade, the body makes no call:
    every return before the gate of the annotation is a plain return, and
    the gate returns before the jobs. *)
Lemma body_not_allowed_calls (r : IvyUpgrade.Reconciler) sched upgrade :
  (∀ world,
     IvyUpgrade.observeWorld r (IvyUpgrade.whenObserving r upgrade) = inl world →
     Metav1.index (Metav1.Annotations (V1beta1.ClusterMeta (IvyUpgrade.Cluster world)))
       IvyUpgrade.AnnotationAllowUpgrade
     ≠ Metav1.Name (V1beta1.UpgradeMeta upgrade)) →
  IvyUpgrade.ExitCalls (IvyUpgrade.body r sched upgrade) = [].
Proof.
  intros Hannotation. unfold IvyUpgrade.body.
  destruct (IvyUpgrade.successReached upgrade); [done|].
  destruct (bool_decide _); [done|].
  fold (IvyUpgrade.whenObserving r upgrade).
  destruct (IvyUpgrade.observeWorld r _) as [world|err] eqn:Hworld; [|done].
  apply gates_not_allowed_calls.
  rewrite setStatusToProgressingIfReasonWas_meta, whenObserving_meta.
  by apply Hannotation.
Qed.

(** C3, as stated, does not hold: the gates of the shutdown and of the
    versions come before the gate of the annotation.  Here the versions are
    14 and 15, the cluster has no annotation and is still running: the
    reason is PGClusterNotShutdown. *)
Lemma C3_counterexample :
  ¬ (∀ (r : IvyUpgrade.Reconciler) (sched : GoMap.Schedule) (req : string * string)
       (upgrade : V1beta1.IvyUpgrade) (world : IvyUpgrade.World),
       IvyUpgrade.Get r req = inl upgrade →
       V1beta1.FromIvoryVersion (V1beta1.UpgradeSpec upgrade)
         < V1beta1.ToIvoryVersion (V1beta1.UpgradeSpec upgrade) →
       IvyUpgrade.observeWorld r (IvyUpgrade.whenObserving r upgrade) = inl world →
       Metav1.index (Metav1.Annotations (V1beta1.ClusterMeta (IvyUpgrade.Cluster world)))
         IvyUpgrade.AnnotationAllowUpgrade
       ≠ Metav1.Name (V1beta1.UpgradeMeta upgrade) →
       let outcome := IvyUpgrade.Reconcile r sched req in
       (∃ after, IvyUpgrade.UpgradeAfter outcome = Some after ∧
                 IvyUpgrade.progressingIs after Metav1.ConditionFalse
                   "PGClusterMissingRequiredAnnotation") ∧
       IvyUpgrade.createsNoJob (IvyUpgrade.Calls outcome)).
Proof.
  intros H.
  pose (stored := Samples.upgrade 14 15 []).
  pose (observed := Samples.world (Samples.cluster 14) false).
  destruct (H (Samples.reconciler stored observed)
              GoMap.inOrder Samples.request stored observed eq_refl)
    as [(after & Hafter & found & Hfound & _ & Hreason) _].
  { simpl. lia. }
  { reflexivity. }
  { vm_compute. discriminate. }
  vm_compute in Hafter. injection Hafter as <-.
  vm_compute in Hfound. injection Hfound as <-.
  discriminate Hreason.
Qed.

(** C3, amended. For an upgrade with from below to, when the cluster that
    is observed does not carry the annotation allow-upgrade with the name of
    the upgrade, Reconcile creates no job, neither the upgrade job nor a
    remove-data job.  When, moreover, no earlier gate stops it (the upgrade
    has not succeeded already, the cluster is found, its status version is
    not the to version, its declared version is the from version, it is shut
    down and its primary is known), Reconcile sets the Progressing condition
    to False with the reason PGClusterMissingRequiredAnnotation and asks
    for no requeue. *)
Theorem C3_annotation_gate
    (r : IvyUpgrade.Reconciler) (sched : GoMap.Schedule) (req : string * string)
    (upgrade : V1beta1.IvyUpgrade) :
  IvyUpgrade.Get r req = inl upgrade →
  V1beta1.FromIvoryVersion (V1beta1.UpgradeSpec upgrade)
    < V1beta1.ToIvoryVersion (V1beta1.UpgradeSpec upgrade) →
  (∀ world,
     IvyUpgrade.observeWorld r (IvyUpgrade.whenObserving r upgrade) = inl world →
     Metav1.index (Metav1.Annotations (V1beta1.ClusterMeta (IvyUpgrade.Cluster world)))
       IvyUpgrade.AnnotationAllowUpgrade
     ≠ Metav1.Name (V1beta1.UpgradeMeta upgrade)) →
  let outcome := IvyUpgrade.Reconcile r sched req in
  IvyUpgrade.createsNoJob (IvyUpgrade.Calls outcome) ∧
  (∀ world,
     IvyUpgrade.observeWorld r (IvyUpgrade.whenObserving r upgrade) = inl world →
     IvyUpgrade.successReached upgrade = false →
     IvyUpgrade.ClusterNotFound world = None →
     V1beta1.StatusPostgresVersion (V1beta1.ClusterStatus (IvyUpgrade.Cluster world))
       ≠ V1beta1.ToIvoryVersion (V1beta1.UpgradeSpec upgrade) →
     V1beta1.PostgresVersion (V1beta1.ClusterSpec (IvyUpgrade.Cluster world))
       = V1beta1.FromIvoryVersion (V1beta1.UpgradeSpec upgrade) →
     IvyUpgrade.ClusterShutdown world = true →
     is_Some (IvyUpgrade.ClusterPrimary world) →
     ∃ after,
       IvyUpgrade.UpgradeAfter outcome = Some after ∧
       IvyUpgrade.progressingIs after Metav1.ConditionFalse
         "PGClusterMissingRequiredAnnotation" ∧
       IvyUpgrade.Returned outcome = IvyUpgrade.noRequeue).
Proof.
  intros Hget Hvalid Hannotation.
  destruct (Reconcile_deferred r sched req upgrade Hget) as (Hafter & Hresult & Hcalls).
  cbv zeta. split.
  - rewrite (body_not_allowed_calls r sched upgrade Hannotation) in Hcalls.
    intros call Hin. destruct Hcalls as [[Hcalls _]|[Hcalls _]];
      rewrite Hcalls in Hin.
    + by apply elem_of_nil in Hin.
    + apply list_elem_of_singleton in Hin as ->. done.
  - intros world Hworld Hreached Hfound Hstatus Hversion Hshutdown Hprimary.
    rewrite (body_observed r sched upgrade world) in Hafter, Hresult by done.
    destruct (gates_not_allowed r sched
                (IvyUpgrade.setStatusToProgressingIfReasonWas r
                   "PGClusterErrorWhenObservingWorld" (IvyUpgrade.whenObserving r upgrade))
                world) as (exit & Hgates & Hprogressing); try done.
    + by rewrite setStatusToProgressingIfReasonWas_spec, whenObserving_spec.
    + by rewrite setStatusToProgressingIfReasonWas_spec, whenObserving_spec.
    + by rewrite setStatusToProgressingIfReasonWas_spec, whenObserving_spec.
    + rewrite setStatusToProgressingIfReasonWas_meta, whenObserving_meta.
      by apply Hannotation.
    + rewrite Hgates in Hafter, Hresult. by exists exit.
Qed.

(** C4, as stated, does not hold, in two ways.  The check of the versions
    of the upgrade comes first: an upgrade from 15 to 14 of a cluster declared
    at 14, with no upgrade job, gets the reason IvyUpgradeInvalid.  And an
    upgrade from 14 to 15 that has succeeded is left as it is, with the
    reason IvyUpgradeCompleted, also when the cluster is declared at 15 and
    the upgrade job is gone. *)
Lemma C4_counterexample :
  let claim (stored : V1beta1.IvyUpgrade) (observed : IvyUpgrade.World) : Prop :=
    ∀ (r : IvyUpgrade.Reconciler) (sched : GoMap.Schedule) (req : string * string),
      IvyUpgrade.Get r req = inl stored →
      IvyUpgrade.observeWorld r (IvyUpgrade.whenObserving r stored) = inl observed →
      IvyUpgrade.ClusterNotFound observed = None →
      V1beta1.PostgresVersion (V1beta1.ClusterSpec (IvyUpgrade.Cluster observed))
        = V1beta1.ToIvoryVersion (V1beta1.UpgradeSpec stored) →
      IvyUpgrade.upgradeJobComplete r (IvyUpgrade.whenObserved r stored) observed = false →
      let outcome := IvyUpgrade.Reconcile r sched req in
      ∃ after,
        IvyUpgrade.UpgradeAfter outcome = Some after ∧
        IvyUpgrade.progressingIs after Metav1.ConditionFalse "IvyUpgradeResolved" ∧
        IvyUpgrade.succeededOf after = IvyUpgrade.succeededOf stored ∧
        IvyUpgrade.Returned outcome = IvyUpgrade.noRequeue ∧
        IvyUpgrade.createsNoJob (IvyUpgrade.Calls outcome) in
  ¬ claim Samples.backwardsUpgrade Samples.shutdownAt14 ∧
  ¬ claim Samples.succeededUpgrade Samples.declaredAt15.
Proof.
  cbv zeta. split; intros H.
  - destruct (H (Samples.reconciler Samples.backwardsUpgrade Samples.shutdownAt14)
                GoMap.inOrder Samples.request
                eq_refl eq_refl eq_refl eq_refl eq_refl)
      as (after & Hafter & (found & Hfound & _ & Hreason) & _).
    vm_compute in Hafter. injection Hafter as <-.
    vm_compute in Hfound. injection Hfound as <-.
    discriminate Hreason.
  - destruct (H (Samples.reconciler Samples.succeededUpgrade Samples.declaredAt15)
                GoMap.inOrder Samples.request
                eq_refl eq_refl eq_refl eq_refl eq_refl)
      as (after & Hafter & (found & Hfound & _ & Hreason) & _).
    vm_compute in Hafter. injection Hafter as <-.
    vm_compute in Hfound. injection Hfound as <-.
    discriminate Hreason.
Qed.

(** C4, amended. For an upgrade with from below to that has not succeeded
    already, when the cluster is observed and found, is declared at the to
    version, and the upgrade job has not completed, Reconcile sets the
    Progressing condition to False with the reason IvyUpgradeResolved,
    leaves the Succeeded condition as it was (absent when it was absent),
    creates no job and asks for no requeue. *)
Theorem C4_resolved_without_job
    (r : IvyUpgrade.Reconciler) (sched : GoMap.Schedule) (req : string * string)
    (upgrade : V1beta1.IvyUpgrade) (world : IvyUpgrade.World) :
  IvyUpgrade.Get r req = inl upgrade →
  IvyUpgrade.successReached upgrade = false →
  V1beta1.FromIvoryVersion (V1beta1.UpgradeSpec upgrade)
    < V1beta1.ToIvoryVersion (V1beta1.UpgradeSpec upgrade) →
  IvyUpgrade.observeWorld r (IvyUpgrade.whenObserving r upgrade) = inl world →
  IvyUpgrade.ClusterNotFound world = None →
  V1beta1.PostgresVersion (V1beta1.ClusterSpec (IvyUpgrade.Cluster world))
    = V1beta1.ToIvoryVersion (V1beta1.UpgradeSpec upgrade) →
  IvyUpgrade.upgradeJobComplete r (IvyUpgrade.whenObserved r upgrade) world = false →
  let outcome := IvyUpgrade.Reconcile r sched req in
  ∃ after,
    IvyUpgrade.UpgradeAfter outcome = Some after ∧
    IvyUpgrade.progressingIs after Metav1.ConditionFalse "IvyUpgradeResolved" ∧
    IvyUpgrade.succeededOf after = IvyUpgrade.succeededOf upgrade ∧
    IvyUpgrade.Returned outcome = IvyUpgrade.noRequeue ∧
    IvyUpgrade.createsNoJob (IvyUpgrade.Calls outcome).
Proof.
  intros Hget Hreached Hvalid Hworld Hfound Hversion Hjob.
  destruct (Reconcile_deferred r sched req upgrade Hget) as (Hafter & Hresult & Hcalls).
  rewrite (body_observed r sched upgrade world) in Hafter, Hresult, Hcalls by done.
  destruct (gates_resolved r sched
              (IvyUpgrade.setStatusToProgressingIfReasonWas r
                 "PGClusterErrorWhenObservingWorld" (IvyUpgrade.whenObserving r upgrade))
              world) as (message & Hgates); try done.
  { by rewrite setStatusToProgressingIfReasonWas_spec, whenObserving_spec. }
  rewrite Hgates in Hafter, Hresult, Hcalls. cbv zeta in *.
  simpl in Hafter, Hresult, Hcalls.
  eexists. split; [exact Hafter|].
  split; [apply setCondition_progressingIs|].
  split.
  { rewrite setCondition_progressing_succeededOf.
    fold (IvyUpgrade.whenObserved r upgrade). apply whenObserved_succeededOf. }
  split; [done|].
  intros call Hin. destruct Hcalls as [[Hcalls _]|[Hcalls _]]; rewrite Hcalls in Hin.
  - by apply elem_of_nil in Hin.
  - apply list_elem_of_singleton in Hin as ->. done.
Qed.

(** ** The theorems at sample inputs *)

(** The gates do open: with the annotation, on a cluster at 14 that is shut
    down, Reconcile of the upgrade from 14 to 15 creates the upgrade job and
    then patches the status of the upgrade. *)
Example Reconcile_creates_upgrade_job :
  IvyUpgrade.createsJob <$>
    IvyUpgrade.Calls
      (IvyUpgrade.Reconcile
         (Samples.reconciler Samples.newUpgrade Samples.allowedAt14)
         GoMap.inOrder Samples.request)
  = [true; false].
Proof. vm_compute. reflexivity. Qed.

(** The repository host of the repositories S3 "a", volume "b", volume "c"
    logs under "b"; the instance logs under its data directory. *)
Example log_paths_a_b_c :
  Keys.globalSection
    (PGBackRest.populateRepoHostConfigurationMap Samples.names GoMap.inOrder
       "hippo-hosts" "ivory" "/pgdata/ivory15" 5432 ["hippo-instance1"]
       Samples.repos_a_b_c ∅) !! "log-path" = Some ["/pgbackrest/b/log"] ∧
  Keys.globalSection
    (PGBackRest.populatePGInstanceConfigurationMap Samples.names GoMap.inOrder
       "hippo-hosts" "ivory" "hippo-repo-host" "/pgdata/ivory15" 5432
       Samples.repos_a_b_c ∅) !! "log-path" = Some ["/pgdata/pgbackrest/log"].
Proof. split; vm_compute; reflexivity. Qed.

(** C1 at an upgrade from 14 to 15 that has succeeded. *)
Lemma C1_success_is_final_witness :
  IvyUpgrade.succeededOf Samples.succeededUpgrade =
    Some (Samples.condition "Succeeded" Metav1.ConditionTrue "IvyUpgradeSucceeded") ∧
  IvyUpgrade.Reconcile
    (Samples.reconciler Samples.succeededUpgrade Samples.declaredAt15)
    GoMap.inOrder Samples.request =
    {| IvyUpgrade.Returned := IvyUpgrade.noRequeue;
       IvyUpgrade.ReturnedErr := None;
       IvyUpgrade.UpgradeAfter := Some Samples.succeededUpgrade;
       IvyUpgrade.Calls := [] |}.
Proof.
  split; [reflexivity|].
  apply (C1_success_is_final
           (Samples.reconciler Samples.succeededUpgrade Samples.declaredAt15)
           GoMap.inOrder Samples.request Samples.succeededUpgrade
           (Samples.condition "Succeeded" Metav1.ConditionTrue "IvyUpgradeSucceeded"));
    reflexivity.
Defined.

(** C2 at a new upgrade from 15 to 14. *)
Lemma C2_invalid_versions_witness :
  IvyUpgrade.successReached Samples.backwardsUpgrade = false ∧
  ∃ after,
    IvyUpgrade.UpgradeAfter
      (IvyUpgrade.Reconcile
         (Samples.reconciler Samples.backwardsUpgrade Samples.shutdownAt14)
         GoMap.inOrder Samples.request) = Some after ∧
    IvyUpgrade.progressingIs after Metav1.ConditionFalse "IvyUpgradeInvalid".
Proof.
  split; [reflexivity|].
  destruct (C2_invalid_versions
              (Samples.reconciler Samples.backwardsUpgrade Samples.shutdownAt14)
              GoMap.inOrder Samples.request Samples.backwardsUpgrade)
    as (after & Hafter & Hprogressing & _).
  - reflexivity.
  - simpl. lia.
  - reflexivity.
  - by exists after.
Defined.

(** C3 at a new upgrade from 14 to 15 of a cluster at 14 that is shut down
    and does not carry the annotation. *)
Lemma C3_annotation_gate_witness :
  IvyUpgrade.createsNoJob
    (IvyUpgrade.Calls
       (IvyUpgrade.Reconcile
          (Samples.reconciler Samples.newUpgrade Samples.shutdownAt14)
          GoMap.inOrder Samples.request)) ∧
  ∃ after,
    IvyUpgrade.UpgradeAfter
      (IvyUpgrade.Reconcile
         (Samples.reconciler Samples.newUpgrade Samples.shutdownAt14)
         GoMap.inOrder Samples.request) = Some after ∧
    IvyUpgrade.progressingIs after Metav1.ConditionFalse
      "PGClusterMissingRequiredAnnotation".
Proof.
  destruct (C3_annotation_gate
              (Samples.reconciler Samples.newUpgrade Samples.shutdownAt14)
              GoMap.inOrder Samples.request Samples.newUpgrade)
    as [Hjobs Hgate].
  - reflexivity.
  - simpl. lia.
  - intros world [= <-]. vm_compute. discriminate.
  - split; [exact Hjobs|].
    destruct (Hgate Samples.shutdownAt14) as (after & Hafter & Hprogressing & _);
      try reflexivity.
    + vm_compute. discriminate.
    + eexists. reflexivity.
    + by exists after.
Defined.

(** C4 at a new upgrade from 14 to 15 of a cluster already declared at 15. *)
Lemma C4_resolved_without_job_witness :
  ∃ after,
    IvyUpgrade.UpgradeAfter
      (IvyUpgrade.Reconcile
         (Samples.reconciler Samples.newUpgrade Samples.declaredAt15)
         GoMap.inOrder Samples.request) = Some after ∧
    IvyUpgrade.progressingIs after Metav1.ConditionFalse "IvyUpgradeResolved" ∧
    IvyUpgrade.succeededOf after = None.
Proof.
  destruct (C4_resolved_without_job
              (Samples.reconciler Samples.newUpgrade Samples.declaredAt15)
              GoMap.inOrder Samples.request Samples.newUpgrade Samples.declaredAt15)
    as (after & Hafter & Hprogressing & Hsucceeded & _);
    try reflexivity.
  exists after. split; [done|]. split; [done|]. by rewrite Hsucceeded.
Defined.

Lemma repos_a_b_c_names repo :
  repo ∈ Samples.repos_a_b_c → V1beta1.Name repo ≠ "log".
Proof.
  intros Hin. unfold Samples.repos_a_b_c in Hin.
  repeat (apply elem_of_cons in Hin as [->|Hin]; [discriminate|]).
  by apply elem_of_nil in Hin.
Qed.

(** C7 at the repositories S3 "a", volume "b", volume "c", without global
    settings. *)
Lemma C7_log_path_first_volume_witness :
  Keys.globalSection
    (PGBackRest.populateRepoHostConfigurationMap Samples.names GoMap.backwards
       "hippo-hosts" "ivory" "/pgdata/ivory15" 5432 ["hippo-instance1"]
       Samples.repos_a_b_c ∅)
    !! "log-path" = Some ["/pgbackrest/b/log"].
Proof.
  exact (eq_trans
    (C7_log_path_first_volume Samples.names GoMap.backwards
       "hippo-hosts" "ivory" "/pgdata/ivory15" 5432 ["hippo-instance1"]
       Samples.repos_a_b_c ∅ backwards_fair eq_refl repos_a_b_c_names)
    eq_refl).
Defined.

(** C10 at a cluster that limits hugepages-2Mi to 16, with parameters kept
    in a map. *)
Lemma C10_huge_pages_try_or_off_witness :
  GoMap.fair GoMap.inOrder ∧
  ∃ value,
    Ivory.SetHugePages (λ name value (set : gmap string string), <[name := value]> set)
      GoMap.inOrder Samples.hugePagesCluster
      {| Ivory.Mandatory := ∅; Ivory.Default := {[ "huge_pages" := "on" ]} |} =
    {| Ivory.Mandatory := ∅;
       Ivory.Default := <["huge_pages" := value]> {[ "huge_pages" := "on" ]} |}.
Proof.
  split; [exact inOrder_fair|].
  destruct (C10_huge_pages_try_or_off
              (λ name value (set : gmap string string), <[name := value]> set)
              GoMap.inOrder Samples.hugePagesCluster
              {| Ivory.Mandatory := ∅; Ivory.Default := {[ "huge_pages" := "on" ]} |}
              inOrder_fair)
    as (value & Hset & _).
  exists value. exact Hset.
Defined.

(** * Further properties of the modelled code *)

(** ** SetStatusCondition keeps one condition per type *)

Section ConditionTypes.
Import Metav1 Meta.

Lemma FindStatusCondition_None conditions conditionType :
  FindStatusCondition conditions conditionType = None ↔
  conditionType ∉ Type_ <$> conditions.
Proof.
  unfold FindStatusCondition.
  induction conditions as [|c conditions IH]; simpl.
  - split; [intros _; apply not_elem_of_nil|done].
  - rewrite not_elem_of_cons. case_bool_decide as Hc.
    + split; [done|]. intros [Hne _]. by destruct Hne.
    + rewrite IH. split; [intros ?; split; [congruence|done]|by intros [_ ?]].
Qed.

Lemma overwriteFirst_types now conditions new :
  Type_ <$> overwriteFirst now conditions new = Type_ <$> conditions.
Proof.
  induction conditions as [|c conditions IH]; simpl; [done|].
  case_bool_decide; simpl; [done|]. f_equal. exact IH.
Qed.

Lemma SetStatusCondition_types now conditions new :
  Type_ <$> SetStatusCondition now conditions new =
  if decide (Type_ new ∈ Type_ <$> conditions)
  then Type_ <$> conditions
  else ((Type_ <$> conditions) ++ [Type_ new])%list.
Proof.
  unfold SetStatusCondition.
  destruct (FindStatusCondition conditions (Type_ new)) as [found|] eqn:Hfound.
  - rewrite decide_True.
    + apply overwriteFirst_types.
    + destruct (decide (Type_ new ∈ Type_ <$> conditions)) as [|Hout]; [done|].
      apply FindStatusCondition_None in Hout. congruence.
  - rewrite decide_False by by apply FindStatusCondition_None.
    by rewrite fmap_app.
Qed.

Lemma SetStatusCondition_NoDup now conditions new :
  NoDup (Type_ <$> conditions) →
  NoDup (Type_ <$> SetStatusCondition now conditions new).
Proof.
  intros Hnd. rewrite SetStatusCondition_types. case_decide as Hin; [done|].
  apply NoDup_app. split; [done|]. split.
  - intros t Ht Hnew. apply list_elem_of_singleton in Hnew as ->. done.
  - apply NoDup_singleton.
Qed.

End ConditionTypes.

(** ** What a pass of the upgrade reconciler can change in the upgrade *)

Section PassConditions.
Import Metav1 V1beta1 IvyUpgrade UpgradePass.
Context (r : Reconciler).

Lemma conditionsSet_progressing upgrade after other status reason message :
  conditionsSet r upgrade after →
  conditionsSet r upgrade
    (setCondition r after (progressing other status reason message)).
Proof. intros H. constructor; [done|by left]. Qed.

Lemma conditionsSet_succeeded upgrade after other status reason message :
  conditionsSet r upgrade after →
  conditionsSet r upgrade
    (setCondition r after (succeeded other status reason message)).
Proof. intros H. constructor; [done|by right]. Qed.

Lemma conditionsSet_setStatus reason upgrade after :
  conditionsSet r upgrade after →
  conditionsSet r upgrade (setStatusToProgressingIfReasonWas r reason after).
Proof.
  intros H. unfold setStatusToProgressingIfReasonWas.
  repeat case_match; auto using conditionsSet_progressing.
Qed.

Lemma drive_upgrade sched upgrade world complete removed :
  ExitUpgrade (drive r sched upgrade world complete removed) = upgrade.
Proof. unfold drive. by repeat (case_match; simpl). Qed.

Lemma gates_conditionsSet sched upgrade after world :
  conditionsSet r upgrade after →
  conditionsSet r upgrade (ExitUpgrade (gates r sched after world)).
Proof.
  intros H. unfold gates.
  destruct (ClusterNotFound world); [by apply conditionsSet_progressing|].
  destruct (removeDataJobs _ _ _) as [completed failed]. cbv zeta.
  repeat match goal with
         | |- context [if ?c then _ else _] => destruct c
         end;
    rewrite ?drive_upgrade; simpl;
    auto 10 using conditionsSet_progressing, conditionsSet_succeeded,
      conditionsSet_setStatus.
Qed.

Lemma body_conditionsSet sched upgrade :
  conditionsSet r upgrade (ExitUpgrade (body r sched upgrade)).
Proof.
  unfold body. destruct (successReached upgrade); [constructor|].
  case_bool_decide.
  { simpl. auto using conditionsSet_progressing, conditionsSet_setStatus,
      conditionsSet_none. }
  destruct (observeWorld r _).
  - apply gates_conditionsSet.
    auto using conditionsSet_setStatus, conditionsSet_none.
  - simpl. auto 6 using conditionsSet_progressing, conditionsSet_setStatus,
      conditionsSet_none.
Qed.

Lemma conditionsSet_meta upgrade after :
  conditionsSet r upgrade after →
  UpgradeMeta after = UpgradeMeta upgrade ∧ UpgradeSpec after = UpgradeSpec upgrade.
Proof. induction 1; [done|]. simpl. done. Qed.

Lemma conditionsSet_other upgrade after conditionType :
  conditionsSet r upgrade after →
  conditionType ≠ ConditionIvyUpgradeProgressing →
  conditionType ≠ ConditionIvyUpgradeSucceeded →
  Meta.FindStatusCondition (Conditions (UpgradeStatus after)) conditionType =
  Meta.FindStatusCondition (Conditions (UpgradeStatus upgrade)) conditionType.
Proof.
  intros H Hp Hs. induction H as [|upgrade after condition H IH Htype]; [done|].
  simpl. rewrite FindStatusCondition_set_other; [done|].
  destruct Htype as [-> | ->]; done.
Qed.

Lemma conditionsSet_types upgrade after :
  conditionsSet r upgrade after →
  (Type_ <$> Conditions (UpgradeStatus upgrade))
    `prefix_of` (Type_ <$> Conditions (UpgradeStatus after)) ∧
  (NoDup (Type_ <$> Conditions (UpgradeStatus upgrade)) →
   NoDup (Type_ <$> Conditions (UpgradeStatus after))).
Proof.
  induction 1 as [|upgrade after condition H [IHprefix IHnodup] Htype]; [done|].
  simpl. split.
  - rewrite SetStatusCondition_types. case_decide; [done|].
    by apply prefix_app_r.
  - intros Hnd. by apply SetStatusCondition_NoDup, IHnodup.
Qed.

End PassConditions.

(** X1. A pass of Reconcile over an upgrade that it could read changes
    nothing of the upgrade but conditions of the types Progressing and
    Succeeded: the metadata and the specification are as they were, and so
    is every condition of another type. *)
Theorem X1_Reconcile_changes_its_conditions_only
    (r : IvyUpgrade.Reconciler) (sched : GoMap.Schedule) (req : string * string)
    (upgrade : V1beta1.IvyUpgrade) :
  IvyUpgrade.Get r req = inl upgrade →
  ∃ after,
    IvyUpgrade.UpgradeAfter (IvyUpgrade.Reconcile r sched req) = Some after ∧
    V1beta1.UpgradeMeta after = V1beta1.UpgradeMeta upgrade ∧
    V1beta1.UpgradeSpec after = V1beta1.UpgradeSpec upgrade ∧
    ∀ conditionType,
      conditionType ≠ IvyUpgrade.ConditionIvyUpgradeProgressing →
      conditionType ≠ IvyUpgrade.ConditionIvyUpgradeSucceeded →
      Meta.FindStatusCondition
        (V1beta1.Conditions (V1beta1.UpgradeStatus after)) conditionType =
      Meta.FindStatusCondition
        (V1beta1.Conditions (V1beta1.UpgradeStatus upgrade)) conditionType.
Proof.
  intros Hget.
  destruct (Reconcile_deferred r sched req upgrade Hget) as (Hafter & _).
  pose proof (body_conditionsSet r sched upgrade) as Hset.
  eexists. split; [exact Hafter|].
  destruct (conditionsSet_meta r _ _ Hset) as [Hmeta Hspec].
  split; [done|]. split; [done|].
  intros conditionType Hp Hs. by apply (conditionsSet_other r).
Qed.

(** X2. A pass of Reconcile never removes a condition and never adds a
    second condition of a type: the types of the conditions it leaves start
    with the types of the conditions it found, in the same order, and have no
    duplicate when those had none. *)
Theorem X2_Reconcile_keeps_one_condition_per_type
    (r : IvyUpgrade.Reconciler) (sched : GoMap.Schedule) (req : string * string)
    (upgrade : V1beta1.IvyUpgrade) :
  IvyUpgrade.Get r req = inl upgrade →
  ∃ after,
    IvyUpgrade.UpgradeAfter (IvyUpgrade.Reconcile r sched req) = Some after ∧
    (Metav1.Type_ <$> V1beta1.Conditions (V1beta1.UpgradeStatus upgrade))
      `prefix_of`
    (Metav1.Type_ <$> V1beta1.Conditions (V1beta1.UpgradeStatus after)) ∧
    (NoDup (Metav1.Type_ <$> V1beta1.Conditions (V1beta1.UpgradeStatus upgrade)) →
     NoDup (Metav1.Type_ <$> V1beta1.Conditions (V1beta1.UpgradeStatus after))).
Proof.
  intros Hget.
  destruct (Reconcile_deferred r sched req upgrade Hget) as (Hafter & _).
  eexists. split; [exact Hafter|].
  apply (conditionsSet_types r), body_conditionsSet.
Qed.

(** ** The calls of a pass *)

Section PassCalls.
Import Metav1 V1beta1 IvyUpgrade UpgradePass UpgradeCalls.
Context (r : Reconciler).

Lemma deleteReplicaCreate_calls jobs err calls :
  ∃ extra,
    (deleteReplicaCreate r jobs err calls).2 = (calls ++ extra)%list ∧
    Forall (λ call, ∃ name job,
              (name, job) ∈ jobs ∧
              index (Labels (JobMeta job)) (LabelPGBackRestBackup r) = ReplicaCreate r ∧
              call = DeleteJob job (UID (JobMeta job)) (ResourceVersion (JobMeta job)))
           extra.
Proof.
  revert err calls. induction jobs as [|[name job] jobs IH]; intros err calls; simpl.
  { exists []. by rewrite app_nil_r. }
  destruct (bool_decide (err = None) && _) eqn:Hdelete.
  - apply andb_true_iff in Hdelete as [_ Hlabel%bool_decide_eq_true].
    destruct (IH (IgnoreNotFound (answer r calls
                    (DeleteJob job (UID (JobMeta job)) (ResourceVersion (JobMeta job)))))
                 (calls ++ [DeleteJob job (UID (JobMeta job))
                                      (ResourceVersion (JobMeta job))])%list)
      as (extra & -> & Hextra).
    eexists (_ :: extra). split; [by rewrite <- app_assoc|].
    constructor.
    + exists name, job. split; [by left|done].
    + eapply Forall_impl; [exact Hextra|].
      intros call (name' & job' & Hin & Hrest). exists name', job'.
      split; [by right|done].
  - destruct (IH err calls) as (extra & -> & Hextra).
    exists extra. split; [done|].
    eapply Forall_impl; [exact Hextra|].
    intros call (name' & job' & Hin & Hrest). exists name', job'.
    split; [by right|done].
Qed.

Lemma applyRemoveData_calls upgrade replicas err calls :
  ∃ extra,
    (applyRemoveData r upgrade replicas err calls).2 = (calls ++ extra)%list ∧
    Forall (λ call, ∃ sts, sts ∈ replicas ∧
                           call = ApplyJob (generateRemoveDataJob r upgrade sts))
           extra.
Proof.
  revert err calls. induction replicas as [|sts replicas IH]; intros err calls; simpl.
  { exists []. by rewrite app_nil_r. }
  destruct err as [err|].
  - destruct (IH (Some err) calls) as (extra & -> & Hextra).
    exists extra. split; [done|].
    eapply Forall_impl; [exact Hextra|].
    intros call (sts' & Hin & ->). exists sts'. split; [by right|done].
  - destruct (IH (answer r calls (ApplyJob (generateRemoveDataJob r upgrade sts)))
                 (calls ++ [ApplyJob (generateRemoveDataJob r upgrade sts)])%list)
      as (extra & -> & Hextra).
    eexists (_ :: extra). split; [by rewrite <- app_assoc|].
    constructor.
    + exists sts. split; [by left|done].
    + eapply Forall_impl; [exact Hextra|].
      intros call (sts' & Hin & ->). exists sts'. split; [by right|done].
Qed.

Lemma deleteEndpoints_calls objects err calls :
  (deleteEndpoints r objects err calls).2 =
  (calls ++ ((λ object, DeleteEndpoints object (UID (EndpointsMeta object))
                          (ResourceVersion (EndpointsMeta object))) <$> objects))%list.
Proof.
  revert err calls. induction objects as [|object objects IH]; intros err calls; simpl.
  { by rewrite app_nil_r. }
  rewrite IH. by rewrite <- app_assoc.
Qed.

(** Every call made after the gates is one that [driven] describes. *)
Lemma drive_calls sched upgrade world complete removed :
  Forall (driven r sched upgrade world complete removed)
    (ExitCalls (drive r sched upgrade world complete removed)).
Proof.
  unfold drive. fold (jobsDone upgrade world complete removed).
  destruct (jobsDone upgrade world complete removed) eqn:Hdone.
  - destruct (deleteReplicaCreate_calls (GoMap.range sched 1 (Jobs world)) None [])
      as (extra & Hcalls & Hextra).
    destruct (deleteReplicaCreate r _ None []) as [err calls]. simpl in Hcalls.
    subst calls.
    assert (Forall (driven r sched upgrade world complete removed) extra) as Hdeletes.
    { eapply Forall_impl; [exact Hextra|].
      intros call (name & job & Hin & Hlabel & ->). unfold driven. rewrite Hdone.
      split; [done|]. split; [by exists name|done]. }
    destruct err; simpl; [done|].
    apply Forall_app. split; [done|]. constructor; [|constructor].
    unfold driven. by rewrite Hdone.
  - set (first := if negb complete then _ else _).
    assert (Forall (driven r sched upgrade world complete removed) first.2) as Hfirst.
    { unfold first. destruct complete; simpl; [constructor|].
      constructor; [|constructor]. unfold driven. rewrite Hdone.
      split; [done|]. by left. }
    destruct first as [err calls]. simpl in Hfirst.
    set (second := if _ && negb removed then _ else _).
    assert (Forall (driven r sched upgrade world complete removed) second.2) as Hsecond.
    { unfold second. destruct (bool_decide (err = None) && complete && negb removed)
        eqn:Hremove; [|done].
      apply andb_true_iff in Hremove as [[_ ->]%andb_true_iff Hremoved%negb_true_iff].
      destruct (applyRemoveData_calls upgrade (ClusterReplicas world) err calls)
        as (extra & -> & Hextra).
      apply Forall_app. split; [done|].
      eapply Forall_impl; [exact Hextra|].
      intros call (sts & Hin & ->). unfold driven. rewrite Hdone.
      split; [done|]. right. split; [done|]. split; [done|]. by exists sts. }
    destruct second as [err' calls']. simpl in Hsecond.
    destruct (PatroniEndpoints world) as [|object objects] eqn:Hendpoints; [done|].
    pose proof (deleteEndpoints_calls (object :: objects) err' calls') as Hcalls.
    destruct (deleteEndpoints r (object :: objects) err' calls') as [err'' calls''].
    cbn [snd] in Hcalls. cbn [ExitCalls]. rewrite Hcalls.
    apply Forall_app. split; [done|].
    apply Forall_fmap, Forall_forall. intros endpoint Hin.
    unfold driven. simpl. rewrite Hdone. by rewrite Hendpoints.
Qed.

(** The gates either stop the pass, with no call and no requeue, or let it
    through to the jobs with every precondition true. *)
Lemma gates_stop_or_drive sched upgrade world :
  let observed := setStatusToProgressingIfReasonWas r "PGClusterNotFound" upgrade in
  (ExitCalls (gates r sched upgrade world) = [] ∧
   ExitResult (gates r sched upgrade world) = noRequeue ∧
   ExitErr (gates r sched upgrade world) = None) ∨
  (ClusterNotFound world = None ∧
   StatusPostgresVersion (ClusterStatus (Cluster world))
     ≠ ToIvoryVersion (UpgradeSpec upgrade) ∧
   (PostgresVersion (ClusterSpec (Cluster world))
      = ToIvoryVersion (UpgradeSpec upgrade) →
    upgradeJobComplete r observed world = true) ∧
   PostgresVersion (ClusterSpec (Cluster world))
     = FromIvoryVersion (UpgradeSpec upgrade) ∧
   ClusterShutdown world = true ∧
   is_Some (ClusterPrimary world) ∧
   index (Annotations (ClusterMeta (Cluster world))) AnnotationAllowUpgrade
     = Metav1.Name (UpgradeMeta upgrade) ∧
   upgradeJobFailed r observed world = false ∧
   removeDataJobsFailed r sched world = false ∧
   gates r sched upgrade world =
   drive r sched
     (setStatusToProgressingIfReasonWas r "PGClusterMissingRequiredAnnotation"
        (setStatusToProgressingIfReasonWas r "IvyUpgradeInvalidForCluster"
           (setStatusToProgressingIfReasonWas r "PGClusterNotShutdown"
              (setStatusToProgressingIfReasonWas r "IvyUpgradeResolved" observed))))
     world (upgradeJobComplete r observed world)
     (removeDataJobsComplete r sched world)).
Proof.
  cbv zeta. unfold gates, removeDataJobsFailed, removeDataJobsComplete.
  destruct (ClusterNotFound world) eqn:Hfound; [left; by repeat split|].
  destruct (removeDataJobs _ _ _) as [completed failed]. cbv zeta.
  rewrite !setStatusToProgressingIfReasonWas_spec,
    !setStatusToProgressingIfReasonWas_meta.
  destruct (bool_decide (PostgresVersion _ = ToIvoryVersion _) && negb _)
    eqn:Hresolved; [left; by repeat split|].
  destruct (bool_decide (StatusPostgresVersion _ = _)) eqn:Hstatus;
    [left; by repeat split|]. apply bool_decide_eq_false in Hstatus.
  destruct (negb (ClusterShutdown world) || _) eqn:Hshutdown; [left; by repeat split|].
  destruct (bool_decide (PostgresVersion _ ≠ _) && _) eqn:Hversion; [left; by repeat split|].
  destruct (bool_decide (index _ _ = _)) eqn:Hallowed; simpl;
    [|left; by repeat split]. apply bool_decide_eq_true in Hallowed.
  destruct (upgradeJobFailed r _ world || failed) eqn:Hfailed; [left; by repeat split|].
  right. simpl.
  apply orb_false_iff in Hshutdown as [Hdown%negb_false_iff Hprimary%bool_decide_eq_false].
  apply orb_false_iff in Hfailed as [Hjob Hremove].
  apply andb_false_iff in Hversion as [Hversion%bool_decide_eq_false
                                      |Hversion%bool_decide_eq_false]; [|done].
  split; [done|]. split; [done|]. split.
  { intros Hto. apply andb_false_iff in Hresolved as [Hne%bool_decide_eq_false|Hjobs].
    - done.
    - by apply negb_false_iff in Hjobs. }
  split. { by destruct (decide (PostgresVersion (ClusterSpec (Cluster world))
                                = FromIvoryVersion (UpgradeSpec upgrade))). }
  split; [done|]. split. { by destruct (ClusterPrimary world); [eexists|]. }
  done.
Qed.

(** The body of Reconcile either makes no call and asks for no requeue, or
    has every precondition true and goes on with the jobs. *)
Lemma body_stop_or_drive sched upgrade :
  (ExitCalls (body r sched upgrade) = [] ∧
   ExitResult (body r sched upgrade) = noRequeue) ∨
  ∃ world,
    preconditions r sched upgrade world ∧
    body r sched upgrade =
    drive r sched (whenDriving r upgrade) world
      (upgradeJobComplete r (whenObserved r upgrade) world)
      (removeDataJobsComplete r sched world).
Proof.
  unfold body. destruct (successReached upgrade) eqn:Hreached; [by left|].
  rewrite setStatusToProgressingIfReasonWas_spec.
  case_bool_decide as Hvalid; [by left|].
  fold (whenObserving r upgrade).
  destruct (observeWorld r (whenObserving r upgrade)) as [world|err] eqn:Hworld;
    [|by left].
  destruct (gates_stop_or_drive sched
              (setStatusToProgressingIfReasonWas r "PGClusterErrorWhenObservingWorld"
                 (whenObserving r upgrade)) world)
    as [(Hcalls & Hresult & _)|Hopen]; [by left|].
  right. exists world. cbv zeta in Hopen.
  destruct Hopen as (? & ? & ? & ? & ? & ? & Hallowed & ? & ? & Hdrive).
  rewrite !setStatusToProgressingIfReasonWas_spec, ?whenObserving_spec in *.
  rewrite !setStatusToProgressingIfReasonWas_meta, ?whenObserving_meta in Hallowed.
  split; [|exact Hdrive]. unfold preconditions. repeat split; try done. lia.
Qed.

End PassCalls.

Section PassOutcome.
Import Metav1 V1beta1 IvyUpgrade UpgradePass UpgradeCalls.
Context (r : Reconciler).

(** The calls of Reconcile are those of its body, then the patch of the
    status when the status changed. *)
Lemma Reconcile_calls sched req upgrade :
  Get r req = inl upgrade →
  let exit := body r sched upgrade in
  Calls (Reconcile r sched req) =
  (ExitCalls exit ++
   if bool_decide (UpgradeStatus upgrade = UpgradeStatus (ExitUpgrade exit))
   then [] else [PatchUpgradeStatus (ExitUpgrade exit)])%list.
Proof.
  intros Hget. cbv zeta. unfold Reconcile. rewrite Hget.
  case_bool_decide; simpl; [by rewrite app_nil_r|done].
Qed.

Lemma body_calls_driven sched upgrade call :
  call ∈ ExitCalls (body r sched upgrade) →
  ∃ world,
    preconditions r sched upgrade world ∧
    driven r sched (whenDriving r upgrade) world
      (upgradeJobComplete r (whenObserved r upgrade) world)
      (removeDataJobsComplete r sched world) call.
Proof.
  intros Hin.
  destruct (body_stop_or_drive r sched upgrade) as [[Hnone _]|(world & Hopen & Hbody)].
  - rewrite Hnone in Hin. by apply elem_of_nil in Hin.
  - exists world. split; [done|]. rewrite Hbody in Hin.
    pose proof (drive_calls r sched (whenDriving r upgrade) world
                  (upgradeJobComplete r (whenObserved r upgrade) world)
                  (removeDataJobsComplete r sched world)) as Hall.
    rewrite Forall_forall in Hall. by apply Hall.
Qed.

(** Every call of Reconcile but the patch of the status of the upgrade is
    made behind the gates. *)
Lemma Reconcile_calls_driven sched req upgrade call :
  Get r req = inl upgrade →
  call ∈ Calls (Reconcile r sched req) →
  patchesUpgrade call = false →
  ∃ world,
    preconditions r sched upgrade world ∧
    driven r sched (whenDriving r upgrade) world
      (upgradeJobComplete r (whenObserved r upgrade) world)
      (removeDataJobsComplete r sched world) call.
Proof.
  intros Hget Hin Hkind. rewrite (Reconcile_calls sched req upgrade Hget) in Hin.
  cbv zeta in Hin. apply elem_of_app in Hin as [Hin|Hin].
  - by apply body_calls_driven.
  - case_bool_decide; [by apply elem_of_nil in Hin|].
    apply list_elem_of_singleton in Hin as ->. done.
Qed.

Lemma drive_result sched upgrade world complete removed :
  ExitResult (drive r sched upgrade world complete removed) =
  if jobsDone upgrade world complete removed then noRequeue
  else match PatroniEndpoints world with
       | [] => noRequeue
       | _ :: _ => {| Requeue := true; RequeueAfter := 0 |}
       end.
Proof.
  unfold drive. fold (jobsDone upgrade world complete removed).
  by repeat (case_match; simpl).
Qed.

Lemma drive_endpoints sched upgrade world complete removed object :
  jobsDone upgrade world complete removed = false →
  object ∈ PatroniEndpoints world →
  DeleteEndpoints object (UID (EndpointsMeta object))
    (ResourceVersion (EndpointsMeta object))
  ∈ ExitCalls (drive r sched upgrade world complete removed).
Proof.
  intros Hdone Hin. unfold drive. fold (jobsDone upgrade world complete removed).
  rewrite Hdone.
  destruct (if negb complete then _ else _) as [err calls].
  destruct (if _ && negb removed then _ else _) as [err' calls'].
  destruct (PatroniEndpoints world) as [|first rest] eqn:Hendpoints.
  { by apply elem_of_nil in Hin. }
  pose proof (deleteEndpoints_calls r (first :: rest) err' calls') as Hcalls.
  destruct (deleteEndpoints r (first :: rest) err' calls') as [err'' calls''].
  cbn [snd] in Hcalls. cbn [ExitCalls]. rewrite Hcalls.
  apply elem_of_app. right. apply list_elem_of_fmap. by exists object.
Qed.

End PassOutcome.

(** X3. Reconcile patches the status of the upgrade at most once, as its
    last call, with the upgrade as it leaves it, and exactly when the status
    it leaves differs from the status it read. *)
Theorem X3_Reconcile_patches_the_status_last
    (r : IvyUpgrade.Reconciler) (sched : GoMap.Schedule) (req : string * string)
    (upgrade : V1beta1.IvyUpgrade) :
  IvyUpgrade.Get r req = inl upgrade →
  ∃ after calls,
    IvyUpgrade.UpgradeAfter (IvyUpgrade.Reconcile r sched req) = Some after ∧
    Forall (λ call, UpgradePass.patchesUpgrade call = false) calls ∧
    ((V1beta1.UpgradeStatus after = V1beta1.UpgradeStatus upgrade ∧
      IvyUpgrade.Calls (IvyUpgrade.Reconcile r sched req) = calls) ∨
     (V1beta1.UpgradeStatus after ≠ V1beta1.UpgradeStatus upgrade ∧
      IvyUpgrade.Calls (IvyUpgrade.Reconcile r sched req) =
        (calls ++ [IvyUpgrade.PatchUpgradeStatus after])%list)).
Proof.
  intros Hget.
  destruct (Reconcile_deferred r sched req upgrade Hget) as (Hafter & _).
  pose proof (Reconcile_calls r sched req upgrade Hget) as Hcalls. cbv zeta in Hcalls.
  exists (IvyUpgrade.ExitUpgrade (IvyUpgrade.body r sched upgrade)),
         (IvyUpgrade.ExitCalls (IvyUpgrade.body r sched upgrade)).
  split; [exact Hafter|]. split.
  - apply Forall_forall. intros call Hin.
    destruct (body_calls_driven r sched upgrade call Hin) as (world & _ & Hdriven).
    by destruct call.
  - rewrite Hcalls. case_bool_decide as Hstatus.
    + left. by rewrite app_nil_r.
    + right. split; [congruence|done].
Qed.

(** X4. Reconcile creates a job only when every gate is open: the upgrade
    has not succeeded, its versions go up, the cluster is found, shut down
    with its primary known, declared at the from version and not yet at the
    to version in its status, annotated with the name of the upgrade, and no
    job has failed.  The job is then the upgrade job, while that one is not
    complete, or the remove-data job of a replica, once it is; the upgrade
    job is not created again after it completed. *)
Theorem X4_Reconcile_creates_jobs_behind_the_gates
    (r : IvyUpgrade.Reconciler) (sched : GoMap.Schedule) (req : string * string)
    (upgrade : V1beta1.IvyUpgrade) (job : IvyUpgrade.Job) :
  IvyUpgrade.Get r req = inl upgrade →
  IvyUpgrade.ApplyJob job ∈ IvyUpgrade.Calls (IvyUpgrade.Reconcile r sched req) →
  ∃ world,
    UpgradePass.preconditions r sched upgrade world ∧
    let complete :=
      IvyUpgrade.upgradeJobComplete r (IvyUpgrade.whenObserved r upgrade) world in
    (complete = false ∧
     job = IvyUpgrade.generateUpgradeJob r (UpgradePass.whenDriving r upgrade)
             (IvyUpgrade.ClusterPrimary world)) ∨
    (complete = true ∧
     UpgradePass.removeDataJobsComplete r sched world = false ∧
     ∃ sts, sts ∈ IvyUpgrade.ClusterReplicas world ∧
            job = IvyUpgrade.generateRemoveDataJob r
                    (UpgradePass.whenDriving r upgrade) sts).
Proof.
  intros Hget Hin.
  destruct (Reconcile_calls_driven r sched req upgrade _ Hget Hin eq_refl)
    as (world & Hopen & _ & Hjob).
  exists world. split; [done|]. exact Hjob.
Qed.

(** X5. Reconcile deletes a job only when the upgrade job and the
    remove-data jobs are complete and the status of the cluster is not yet at
    the to version, with every gate open; the job is one of the observed
    jobs, it carries the label of a replica-create backup, and the deletion
    is conditional on its own UID and resource version.  The patch of the
    status of the cluster is made under the same conditions, and sets the
    version to the to version and empties the list of repositories. *)
Theorem X5_Reconcile_deletes_and_patches_once_the_jobs_are_done
    (r : IvyUpgrade.Reconciler) (sched : GoMap.Schedule) (req : string * string)
    (upgrade : V1beta1.IvyUpgrade) (call : IvyUpgrade.Call) :
  GoMap.fair sched →
  IvyUpgrade.Get r req = inl upgrade →
  call ∈ IvyUpgrade.Calls (IvyUpgrade.Reconcile r sched req) →
  (∃ job uid version, call = IvyUpgrade.DeleteJob job uid version) ∨
  (∃ patch, call = IvyUpgrade.PatchClusterStatus patch) →
  ∃ world,
    UpgradePass.preconditions r sched upgrade world ∧
    IvyUpgrade.upgradeJobComplete r (IvyUpgrade.whenObserved r upgrade) world = true ∧
    UpgradePass.removeDataJobsComplete r sched world = true ∧
    match call with
    | IvyUpgrade.DeleteJob job uid version =>
        (∃ name, IvyUpgrade.Jobs world !! name = Some job) ∧
        Metav1.index (Metav1.Labels (IvyUpgrade.JobMeta job))
          (IvyUpgrade.LabelPGBackRestBackup r) = IvyUpgrade.ReplicaCreate r ∧
        uid = Metav1.UID (IvyUpgrade.JobMeta job) ∧
        version = Metav1.ResourceVersion (IvyUpgrade.JobMeta job)
    | IvyUpgrade.PatchClusterStatus patch =>
        V1beta1.ClusterMeta patch = V1beta1.ClusterMeta (IvyUpgrade.Cluster world) ∧
        V1beta1.ClusterSpec patch = V1beta1.ClusterSpec (IvyUpgrade.Cluster world) ∧
        V1beta1.StatusPostgresVersion (V1beta1.ClusterStatus patch)
          = V1beta1.ToIvoryVersion (V1beta1.UpgradeSpec upgrade) ∧
        V1beta1.StatusRepos (V1beta1.ClusterStatus patch) = []
    | _ => True
    end.
Proof.
  intros Hfair Hget Hin Hkind.
  assert (UpgradePass.patchesUpgrade call = false) as Hpatch
    by (destruct Hkind as [(? & ? & ? & ->)|(? & ->)]; done).
  destruct (Reconcile_calls_driven r sched req upgrade call Hget Hin Hpatch)
    as (world & Hopen & Hdriven).
  exists world. split; [done|].
  assert (UpgradeCalls.jobsDone (UpgradePass.whenDriving r upgrade) world
            (IvyUpgrade.upgradeJobComplete r (IvyUpgrade.whenObserved r upgrade) world)
            (UpgradePass.removeDataJobsComplete r sched world) = true) as Hdone
    by (destruct Hkind as [(? & ? & ? & ->)|(? & ->)]; apply Hdriven).
  unfold UpgradeCalls.jobsDone in Hdone.
  apply andb_true_iff in Hdone as [[Hcomplete Hremoved]%andb_true_iff _].
  split; [done|]. split; [done|].
  destruct Hkind as [(job & uid & version & ->)|(patch & ->)].
  - destruct Hdriven as (_ & (name & Hjob) & Hlabel & -> & ->).
    split; [|done]. exists name. by apply (range_elem_of sched 1).
  - destruct Hdriven as (_ & ->).
    cbn [V1beta1.ClusterMeta V1beta1.ClusterSpec V1beta1.ClusterStatus
         V1beta1.StatusPostgresVersion V1beta1.StatusRepos].
    unfold UpgradePass.whenDriving.
    rewrite !setStatusToProgressingIfReasonWas_spec, whenObserved_spec.
    repeat split; reflexivity.
Qed.

(** X6. Reconcile asks for a requeue only to check that the endpoints of
    Patroni are gone: it then has every gate open, the observed world has
    such endpoints, and it has called the deletion of every one of them
    under its own UID and resource version.  It never asks for a requeue
    after a delay. *)
Theorem X6_Reconcile_requeues_only_for_the_endpoints
    (r : IvyUpgrade.Reconciler) (sched : GoMap.Schedule) (req : string * string)
    (upgrade : V1beta1.IvyUpgrade) :
  IvyUpgrade.Get r req = inl upgrade →
  let outcome := IvyUpgrade.Reconcile r sched req in
  IvyUpgrade.Returned outcome = IvyUpgrade.noRequeue ∨
  (IvyUpgrade.Returned outcome =
     {| IvyUpgrade.Requeue := true; IvyUpgrade.RequeueAfter := 0 |} ∧
   ∃ world,
     UpgradePass.preconditions r sched upgrade world ∧
     IvyUpgrade.PatroniEndpoints world ≠ [] ∧
     ∀ object, object ∈ IvyUpgrade.PatroniEndpoints world →
       IvyUpgrade.DeleteEndpoints object
         (Metav1.UID (IvyUpgrade.EndpointsMeta object))
         (Metav1.ResourceVersion (IvyUpgrade.EndpointsMeta object))
       ∈ IvyUpgrade.Calls outcome).
Proof.
  intros Hget. cbv zeta.
  destruct (Reconcile_deferred r sched req upgrade Hget) as (_ & Hresult & _).
  rewrite Hresult, (Reconcile_calls r sched req upgrade Hget). cbv zeta.
  destruct (body_stop_or_drive r sched upgrade) as [[_ Hnone]|(world & Hopen & ->)];
    [by left|].
  rewrite drive_result.
  destruct (UpgradeCalls.jobsDone _ _ _ _) eqn:Hdone; [by left|].
  destruct (IvyUpgrade.PatroniEndpoints world) as [|first rest] eqn:Hendpoints;
    [by left|].
  right. split; [done|]. exists world. split; [done|]. rewrite Hendpoints.
  split; [done|]. intros object Hobject. apply elem_of_app. left.
  apply drive_endpoints; [done|]. by rewrite Hendpoints.
Qed.

(** ** When the Succeeded condition is set *)

Section PassSuccess.
Import Metav1 V1beta1 IvyUpgrade UpgradePass UpgradeCalls.
Context (r : Reconciler).

Lemma successReached_succeededOf upgrade other :
  succeededOf other = succeededOf upgrade →
  successReached other = successReached upgrade.
Proof. unfold successReached, succeededOf. by intros ->. Qed.

Lemma successReached_progressing upgrade other status reason message :
  successReached (setCondition r upgrade (progressing other status reason message))
  = successReached upgrade.
Proof.
  apply successReached_succeededOf, setCondition_progressing_succeededOf.
Qed.

Lemma successReached_setStatus reason upgrade :
  successReached (setStatusToProgressingIfReasonWas r reason upgrade)
  = successReached upgrade.
Proof.
  apply successReached_succeededOf, setStatusToProgressingIfReasonWas_succeededOf.
Qed.

Lemma succeededOf_set upgrade other status reason message :
  ∃ found,
    succeededOf (setCondition r upgrade (succeeded other status reason message))
      = Some found ∧
    Status found = status ∧ Reason found = reason.
Proof.
  unfold succeededOf, setCondition. simpl.
  destruct (FindStatusCondition_set (now r) (Conditions (UpgradeStatus upgrade))
              (succeeded other status reason message))
    as (found & Hfound & Hstatus & Hreason & _).
  by exists found.
Qed.

Lemma successReached_failed upgrade other message :
  successReached
    (setCondition r upgrade (succeeded other ConditionFalse "IvyUpgradeFailed" message))
  = false.
Proof.
  destruct (succeededOf_set upgrade other ConditionFalse "IvyUpgradeFailed" message)
    as (found & Hfound & _ & Hreason).
  unfold successReached. unfold succeededOf in Hfound. rewrite Hfound, Hreason.
  done.
Qed.

(** The gates leave a success only where there was one, or where the status
    of the cluster is at the to version and the jobs are complete. *)
Lemma gates_success sched upgrade world :
  successReached (ExitUpgrade (gates r sched upgrade world)) = true →
  successReached upgrade = true ∨
  (ClusterNotFound world = None ∧
   StatusPostgresVersion (ClusterStatus (Cluster world))
     = ToIvoryVersion (UpgradeSpec upgrade) ∧
   upgradeJobComplete r
     (setStatusToProgressingIfReasonWas r "PGClusterNotFound" upgrade) world = true ∧
   removeDataJobsComplete r sched world = true ∧
   ∃ found,
     succeededOf (ExitUpgrade (gates r sched upgrade world)) = Some found ∧
     Status found = ConditionTrue ∧ Reason found = "IvyUpgradeSucceeded").
Proof.
  unfold gates, removeDataJobsComplete.
  destruct (ClusterNotFound world) eqn:Hfound.
  { simpl. rewrite successReached_progressing. by left. }
  destruct (removeDataJobs _ _ _) as [completed failed]. cbv zeta.
  rewrite !setStatusToProgressingIfReasonWas_spec.
  destruct (bool_decide (PostgresVersion _ = ToIvoryVersion _) && negb _).
  { simpl. rewrite successReached_progressing, successReached_setStatus. by left. }
  destruct (bool_decide (StatusPostgresVersion _ = _)) eqn:Hstatus.
  { apply bool_decide_eq_true in Hstatus.
    destruct (upgradeJobComplete r _ world) eqn:Hcomplete; simpl.
    - destruct (bool_decide (Z.of_nat (length completed) = _)) eqn:Hremoved; simpl.
      + intros _. right. repeat split; try done. apply succeededOf_set.
      + rewrite successReached_progressing, !successReached_setStatus. by left.
    - rewrite successReached_progressing, !successReached_setStatus. by left. }
  destruct (negb (ClusterShutdown world) || _).
  { simpl. rewrite successReached_progressing, !successReached_setStatus. by left. }
  destruct (bool_decide (PostgresVersion _ ≠ _) && _).
  { simpl. rewrite successReached_progressing, !successReached_setStatus. by left. }
  destruct (negb _).
  { simpl. rewrite successReached_progressing, !successReached_setStatus. by left. }
  destruct (upgradeJobFailed r _ world || failed).
  { simpl. by rewrite successReached_failed. }
  rewrite drive_upgrade, !successReached_setStatus. by left.
Qed.

End PassSuccess.

(** X7. Reconcile marks an upgrade as succeeded only on evidence: when an
    upgrade that had not succeeded has after the pass, the versions of the
    upgrade go up, the cluster was observed and found with its status at the
    to version, the upgrade job is complete and the number of complete
    remove-data jobs is the number of replicas expected; the Succeeded
    condition then has the status True. *)
Theorem X7_Reconcile_succeeds_only_when_complete
    (r : IvyUpgrade.Reconciler) (sched : GoMap.Schedule) (req : string * string)
    (upgrade after : V1beta1.IvyUpgrade) :
  IvyUpgrade.Get r req = inl upgrade →
  IvyUpgrade.successReached upgrade = false →
  IvyUpgrade.UpgradeAfter (IvyUpgrade.Reconcile r sched req) = Some after →
  IvyUpgrade.successReached after = true →
  ∃ world found,
    V1beta1.FromIvoryVersion (V1beta1.UpgradeSpec upgrade)
      < V1beta1.ToIvoryVersion (V1beta1.UpgradeSpec upgrade) ∧
    IvyUpgrade.observeWorld r (IvyUpgrade.whenObserving r upgrade) = inl world ∧
    IvyUpgrade.ClusterNotFound world = None ∧
    V1beta1.StatusPostgresVersion (V1beta1.ClusterStatus (IvyUpgrade.Cluster world))
      = V1beta1.ToIvoryVersion (V1beta1.UpgradeSpec upgrade) ∧
    IvyUpgrade.upgradeJobComplete r (IvyUpgrade.whenObserved r upgrade) world = true ∧
    UpgradePass.removeDataJobsComplete r sched world = true ∧
    IvyUpgrade.succeededOf after = Some found ∧
    Metav1.Status found = Metav1.ConditionTrue.
Proof.
  intros Hget Hbefore Hafter Hsuccess.
  destruct (Reconcile_deferred r sched req upgrade Hget) as (Hexit & _).
  rewrite Hexit in Hafter. injection Hafter as <-.
  revert Hsuccess. unfold IvyUpgrade.body. rewrite Hbefore.
  rewrite setStatusToProgressingIfReasonWas_spec.
  case_bool_decide as Hvalid.
  { simpl. rewrite successReached_progressing, successReached_setStatus. congruence. }
  fold (IvyUpgrade.whenObserving r upgrade).
  destruct (IvyUpgrade.observeWorld r (IvyUpgrade.whenObserving r upgrade))
    as [world|err] eqn:Hworld.
  - intros [Hwas|(Hfound & Hstatus & Hcomplete & Hremoved & found & Hset & Htrue & _)]
      %gates_success.
    + unfold IvyUpgrade.whenObserving in Hwas.
      rewrite !successReached_setStatus in Hwas. congruence.
    + rewrite setStatusToProgressingIfReasonWas_spec, whenObserving_spec in Hstatus.
      exists world, found. repeat split; try done. lia.
  - simpl. unfold IvyUpgrade.whenObserving.
    rewrite successReached_progressing, !successReached_setStatus. congruence.
Qed.

(** ** Failures *)

(** X8. When every gate up to the annotation is open and the upgrade job or
    a remove-data job has failed, Reconcile sets the Succeeded condition to
    False with the reason IvyUpgradeFailed, creates no job, and asks for no
    requeue: a failed job is not run again. *)
Theorem X8_Reconcile_reports_a_failed_job
    (r : IvyUpgrade.Reconciler) (sched : GoMap.Schedule) (req : string * string)
    (upgrade : V1beta1.IvyUpgrade) (world : IvyUpgrade.World) :
  IvyUpgrade.Get r req = inl upgrade →
  IvyUpgrade.successReached upgrade = false →
  V1beta1.FromIvoryVersion (V1beta1.UpgradeSpec upgrade)
    < V1beta1.ToIvoryVersion (V1beta1.UpgradeSpec upgrade) →
  IvyUpgrade.observeWorld r (IvyUpgrade.whenObserving r upgrade) = inl world →
  IvyUpgrade.ClusterNotFound world = None →
  V1beta1.StatusPostgresVersion (V1beta1.ClusterStatus (IvyUpgrade.Cluster world))
    ≠ V1beta1.ToIvoryVersion (V1beta1.UpgradeSpec upgrade) →
  V1beta1.PostgresVersion (V1beta1.ClusterSpec (IvyUpgrade.Cluster world))
    = V1beta1.FromIvoryVersion (V1beta1.UpgradeSpec upgrade) →
  IvyUpgrade.ClusterShutdown world = true →
  is_Some (IvyUpgrade.ClusterPrimary world) →
  Metav1.index (Metav1.Annotations (V1beta1.ClusterMeta (IvyUpgrade.Cluster world)))
    IvyUpgrade.AnnotationAllowUpgrade
  = Metav1.Name (V1beta1.UpgradeMeta upgrade) →
  IvyUpgrade.upgradeJobFailed r (IvyUpgrade.whenObserved r upgrade) world = true ∨
  UpgradePass.removeDataJobsFailed r sched world = true →
  let outcome := IvyUpgrade.Reconcile r sched req in
  ∃ after found,
    IvyUpgrade.UpgradeAfter outcome = Some after ∧
    IvyUpgrade.succeededOf after = Some found ∧
    Metav1.Status found = Metav1.ConditionFalse ∧
    Metav1.Reason found = "IvyUpgradeFailed" ∧
    IvyUpgrade.Returned outcome = IvyUpgrade.noRequeue ∧
    IvyUpgrade.createsNoJob (IvyUpgrade.Calls outcome).
Proof.
  intros Hget Hreached Hvalid Hworld Hfound Hstatus Hversion Hshutdown
    [primary Hprimary] Hallowed Hfailed. cbv zeta.
  destruct (Reconcile_deferred r sched req upgrade Hget) as (Hafter & Hresult & _).
  pose proof (Reconcile_calls r sched req upgrade Hget) as Hcalls.
  cbv zeta in Hcalls.
  rewrite (body_observed r sched upgrade world) in Hafter, Hresult, Hcalls by done.
  assert (∃ message,
    IvyUpgrade.gates r sched
      (IvyUpgrade.setStatusToProgressingIfReasonWas r
         "PGClusterErrorWhenObservingWorld" (IvyUpgrade.whenObserving r upgrade)) world =
    IvyUpgrade.stop
      (IvyUpgrade.setCondition r (UpgradePass.whenDriving r upgrade)
         (IvyUpgrade.succeeded (UpgradePass.whenDriving r upgrade)
            Metav1.ConditionFalse "IvyUpgradeFailed" message))) as [message Hgates].
  { unfold IvyUpgrade.gates. rewrite Hfound.
    unfold UpgradePass.removeDataJobsFailed in Hfailed.
    destruct (IvyUpgrade.removeDataJobs _ _ _) as [completed failed]. cbv zeta.
    fold (IvyUpgrade.whenObserved r upgrade).
    rewrite ?setStatusToProgressingIfReasonWas_spec,
      ?setStatusToProgressingIfReasonWas_meta, ?whenObserved_spec, ?whenObserved_meta.
    rewrite (bool_decide_eq_false_2 (V1beta1.PostgresVersion _ = V1beta1.ToIvoryVersion _))
      by lia.
    rewrite (bool_decide_eq_false_2 (V1beta1.StatusPostgresVersion _ = _)) by done.
    rewrite Hshutdown, Hprimary. simpl.
    rewrite (bool_decide_eq_false_2 (V1beta1.PostgresVersion _ ≠ _))
      by (intros H; by apply H).
    simpl. rewrite bool_decide_eq_true_2 by done. simpl.
    unfold UpgradePass.whenDriving.
    assert (IvyUpgrade.upgradeJobFailed r (IvyUpgrade.whenObserved r upgrade) world
            || failed = true) as ->.
    { destruct Hfailed as [-> | Hremove]; [done|]. simpl in Hremove. subst failed.
      apply orb_true_r. }
    eauto. }
  rewrite Hgates in Hafter, Hresult, Hcalls. unfold IvyUpgrade.stop in Hafter, Hresult, Hcalls.
  cbn [IvyUpgrade.ExitUpgrade IvyUpgrade.ExitResult IvyUpgrade.ExitCalls]
    in Hafter, Hresult, Hcalls.
  destruct (succeededOf_set r (UpgradePass.whenDriving r upgrade)
              (UpgradePass.whenDriving r upgrade) Metav1.ConditionFalse
              "IvyUpgradeFailed" message) as (found & Hset & Hfalse & Hreason).
  eexists _, found. split; [exact Hafter|]. repeat split; try done.
  intros call Hin. rewrite Hcalls in Hin. case_bool_decide.
  - by apply elem_of_nil in Hin.
  - apply list_elem_of_singleton in Hin as ->. done.
Qed.

(** X9. When the world cannot be observed, Reconcile sets the Progressing
    condition to False with the reason PGClusterErrorWhenObservingWorld and
    returns the error of the observation, whatever the API answers to the
    patch of the status; it makes no other call. *)
Theorem X9_Reconcile_returns_the_error_of_the_observation
    (r : IvyUpgrade.Reconciler) (sched : GoMap.Schedule) (req : string * string)
    (upgrade : V1beta1.IvyUpgrade) (err : IvyUpgrade.Error) :
  IvyUpgrade.Get r req = inl upgrade →
  IvyUpgrade.successReached upgrade = false →
  V1beta1.FromIvoryVersion (V1beta1.UpgradeSpec upgrade)
    < V1beta1.ToIvoryVersion (V1beta1.UpgradeSpec upgrade) →
  IvyUpgrade.observeWorld r (IvyUpgrade.whenObserving r upgrade) = inr err →
  let outcome := IvyUpgrade.Reconcile r sched req in
  ∃ after,
    IvyUpgrade.UpgradeAfter outcome = Some after ∧
    IvyUpgrade.progressingIs after Metav1.ConditionFalse
      "PGClusterErrorWhenObservingWorld" ∧
    IvyUpgrade.ReturnedErr outcome = Some err ∧
    IvyUpgrade.Returned outcome = IvyUpgrade.noRequeue ∧
    Forall (λ call, call = IvyUpgrade.PatchUpgradeStatus after)
      (IvyUpgrade.Calls outcome).
Proof.
  intros Hget Hreached Hvalid Hworld. cbv zeta.
  destruct (Reconcile_deferred r sched req upgrade Hget) as (Hafter & Hresult & Herr).
  pose proof (Reconcile_calls r sched req upgrade Hget) as Hcalls.
  cbv zeta in Hcalls.
  assert (IvyUpgrade.body r sched upgrade =
          {| IvyUpgrade.ExitUpgrade :=
               IvyUpgrade.setCondition r (IvyUpgrade.whenObserving r upgrade)
                 (IvyUpgrade.progressing (IvyUpgrade.whenObserving r upgrade)
                    Metav1.ConditionFalse "PGClusterErrorWhenObservingWorld"
                    (IvyUpgrade.ErrorMessage err));
             IvyUpgrade.ExitResult := IvyUpgrade.noRequeue;
             IvyUpgrade.ExitErr := Some err;
             IvyUpgrade.ExitCalls := [] |}) as Hbody.
  { unfold IvyUpgrade.body. rewrite Hreached, setStatusToProgressingIfReasonWas_spec.
    rewrite bool_decide_eq_false_2 by lia.
    fold (IvyUpgrade.whenObserving r upgrade). by rewrite Hworld. }
  rewrite Hbody in Hafter, Hresult, Herr, Hcalls.
  cbn [IvyUpgrade.ExitUpgrade IvyUpgrade.ExitResult IvyUpgrade.ExitErr
       IvyUpgrade.ExitCalls] in Hafter, Hresult, Herr, Hcalls.
  eexists. split; [exact Hafter|].
  split; [apply setCondition_progressingIs|].
  split; [by destruct Herr as [[_ ->]|[_ ->]]|]. split; [done|].
  rewrite Hcalls. case_bool_decide; [constructor|]. by constructor.
Qed.

(** ** The order of the jobs *)

Section PassOrder.
Import Metav1 V1beta1 IvyUpgrade UpgradePass UpgradeCalls.
Context (r : Reconciler).

(** When no remove-data job has failed without completing, the loop over
    the jobs runs to its end and collects the complete ones. *)
Lemma removeDataJobs_none_failed jobs completed :
  (∀ name job, (name, job) ∈ jobs →
     index (Labels (JobMeta job)) (LabelRole r) = removeData r →
     jobCompleted r job = false → jobFailed r job = false) →
  removeDataJobs r jobs completed =
  ((completed ++ (filter (λ entry, removed r entry = true) jobs).*2)%list, false).
Proof.
  revert completed.
  induction jobs as [|[name job] jobs IH]; intros completed Hclean.
  { simpl. by rewrite app_nil_r. }
  assert (∀ name' job', (name', job') ∈ jobs →
            index (Labels (JobMeta job')) (LabelRole r) = removeData r →
            jobCompleted r job' = false → jobFailed r job' = false) as Hrest
    by (intros name' job' Hin; apply (Hclean name' job'); by right).
  rewrite filter_cons. cbn [removeDataJobs].
  destruct (bool_decide (index (Labels (JobMeta job)) (LabelRole r) = removeData r))
    eqn:Hlabel.
  - destruct (jobCompleted r job) eqn:Hcomplete.
    + rewrite decide_True
        by (unfold removed; cbn [snd]; by rewrite Hlabel, Hcomplete).
      rewrite IH by done. by rewrite fmap_cons, <- app_assoc.
    + rewrite decide_False
        by (unfold removed; cbn [snd]; by rewrite Hlabel, Hcomplete).
      apply bool_decide_eq_true in Hlabel.
      rewrite (Hclean name job) by (done || by left). by apply IH.
  - rewrite decide_False by (unfold removed; cbn [snd]; by rewrite Hlabel).
    by apply IH.
Qed.

Lemma removeDataJobs_order (s1 s2 : GoMap.Schedule) world :
  GoMap.fair s1 → GoMap.fair s2 →
  (∀ name job, Jobs world !! name = Some job →
     index (Labels (JobMeta job)) (LabelRole r) = removeData r →
     jobCompleted r job = false → jobFailed r job = false) →
  removeDataJobsComplete r s1 world = removeDataJobsComplete r s2 world ∧
  removeDataJobsFailed r s1 world = removeDataJobsFailed r s2 world.
Proof.
  intros H1 H2 Hclean. unfold removeDataJobsComplete, removeDataJobsFailed.
  rewrite (removeDataJobs_none_failed (GoMap.range s1 0 (Jobs world)))
    by (intros name job Hin; apply (Hclean name); by apply (range_elem_of s1 0) in Hin).
  rewrite (removeDataJobs_none_failed (GoMap.range s2 0 (Jobs world)))
    by (intros name job Hin; apply (Hclean name); by apply (range_elem_of s2 0) in Hin).
  cbn [fst snd]. split; [|done]. rewrite !app_nil_l, !length_fmap.
  assert (GoMap.range s1 0 (Jobs world) ≡ₚ GoMap.range s2 0 (Jobs world)) as Hperm
    by (unfold GoMap.range; by rewrite (H1 _ 0%nat), (H2 _ 0%nat)).
  assert (length (filter (λ entry, removed r entry = true) (GoMap.range s1 0 (Jobs world)))
          = length (filter (λ entry, removed r entry = true)
                      (GoMap.range s2 0 (Jobs world)))) as Hlength
    by (by rewrite Hperm).
  by rewrite Hlength.
Qed.

Lemma gates_order (s1 s2 : GoMap.Schedule) upgrade world :
  removeDataJobsComplete r s1 world = removeDataJobsComplete r s2 world →
  removeDataJobsFailed r s1 world = removeDataJobsFailed r s2 world →
  ExitUpgrade (gates r s1 upgrade world) = ExitUpgrade (gates r s2 upgrade world) ∧
  ExitResult (gates r s1 upgrade world) = ExitResult (gates r s2 upgrade world).
Proof.
  unfold removeDataJobsComplete, removeDataJobsFailed, gates.
  destruct (ClusterNotFound world); [done|].
  destruct (removeDataJobs r (GoMap.range s1 0 (Jobs world)) [])
    as [completed1 failed1].
  destruct (removeDataJobs r (GoMap.range s2 0 (Jobs world)) [])
    as [completed2 failed2].
  simpl. intros -> ->. 
  repeat match goal with
         | |- context [if ?c then _ else _] => destruct c
         end; rewrite ?drive_upgrade, ?drive_result; done.
Qed.

End PassOrder.

(** X10. When none of the observed remove-data jobs has failed without
    completing, what Reconcile leaves in the upgrade and what it returns as
    its result do not depend on the order in which it ranges over the jobs. *)
Theorem X10_Reconcile_does_not_depend_on_the_order_of_the_jobs
    (r : IvyUpgrade.Reconciler) (run1 run2 : GoMap.Schedule) (req : string * string)
    (upgrade : V1beta1.IvyUpgrade) :
  GoMap.fair run1 → GoMap.fair run2 →
  IvyUpgrade.Get r req = inl upgrade →
  (∀ world name job,
     IvyUpgrade.observeWorld r (IvyUpgrade.whenObserving r upgrade) = inl world →
     IvyUpgrade.Jobs world !! name = Some job →
     Metav1.index (Metav1.Labels (IvyUpgrade.JobMeta job)) (IvyUpgrade.LabelRole r)
       = IvyUpgrade.removeData r →
     IvyUpgrade.jobCompleted r job = false →
     IvyUpgrade.jobFailed r job = false) →
  IvyUpgrade.UpgradeAfter (IvyUpgrade.Reconcile r run1 req) =
  IvyUpgrade.UpgradeAfter (IvyUpgrade.Reconcile r run2 req) ∧
  IvyUpgrade.Returned (IvyUpgrade.Reconcile r run1 req) =
  IvyUpgrade.Returned (IvyUpgrade.Reconcile r run2 req).
Proof.
  intros H1 H2 Hget Hclean.
  destruct (Reconcile_deferred r run1 req upgrade Hget) as (-> & -> & _).
  destruct (Reconcile_deferred r run2 req upgrade Hget) as (-> & -> & _).
  unfold IvyUpgrade.body.
  destruct (IvyUpgrade.successReached upgrade); [done|].
  case_bool_decide; [done|].
  fold (IvyUpgrade.whenObserving r upgrade).
  destruct (IvyUpgrade.observeWorld r (IvyUpgrade.whenObserving r upgrade))
    as [world|err] eqn:Hworld; [|done].
  destruct (removeDataJobs_order r run1 run2 world H1 H2) as [Hcomplete Hfailed].
  { intros name job. by apply Hclean. }
  destruct (gates_order r run1 run2
              (IvyUpgrade.setStatusToProgressingIfReasonWas r
                 "PGClusterErrorWhenObservingWorld" (IvyUpgrade.whenObserving r upgrade))
              world Hcomplete Hfailed) as [-> ->].
  done.
Qed.

(** Without that condition the order matters.  Here the status of the
    cluster is at 15, the upgrade job is complete and one replica is
    expected; of two remove-data jobs one is complete and one has failed.
    The pass that meets the complete one first marks the upgrade as
    succeeded; the pass that meets the failed one first does not. *)
Example Reconcile_depends_on_the_order_of_the_jobs :
  let r := Samples.reconciler Samples.newUpgrade UpgradeSamples.oneOfTwoFailed in
  (IvyUpgrade.successReached <$>
     IvyUpgrade.UpgradeAfter (IvyUpgrade.Reconcile r GoMap.inOrder Samples.request))
    = Some true ∧
  (IvyUpgrade.successReached <$>
     IvyUpgrade.UpgradeAfter (IvyUpgrade.Reconcile r GoMap.backwards Samples.request))
    = Some false.
Proof. split; vm_compute; reflexivity. Qed.

(** ** The properties of the pass at sample inputs *)

(** X1 at the first pass over a new upgrade. *)
Lemma X1_Reconcile_changes_its_conditions_only_witness :
  ∃ after,
    IvyUpgrade.UpgradeAfter
      (IvyUpgrade.Reconcile
         (Samples.reconciler Samples.newUpgrade UpgradeSamples.beforeTheJob)
         GoMap.inOrder Samples.request) = Some after ∧
    V1beta1.UpgradeSpec after = V1beta1.UpgradeSpec Samples.newUpgrade.
Proof.
  destruct (X1_Reconcile_changes_its_conditions_only
              (Samples.reconciler Samples.newUpgrade UpgradeSamples.beforeTheJob)
              GoMap.inOrder Samples.request Samples.newUpgrade eq_refl)
    as (after & Hafter & _ & Hspec & _).
  exists after. split; [exact Hafter|exact Hspec].
Defined.

(** X2 at the pass that marks the upgrade as succeeded. *)
Lemma X2_Reconcile_keeps_one_condition_per_type_witness :
  ∃ after,
    IvyUpgrade.UpgradeAfter
      (IvyUpgrade.Reconcile
         (Samples.reconciler Samples.newUpgrade UpgradeSamples.statusAt15)
         GoMap.inOrder Samples.request) = Some after ∧
    NoDup (Metav1.Type_ <$> V1beta1.Conditions (V1beta1.UpgradeStatus after)).
Proof.
  destruct (X2_Reconcile_keeps_one_condition_per_type
              (Samples.reconciler Samples.newUpgrade UpgradeSamples.statusAt15)
              GoMap.inOrder Samples.request Samples.newUpgrade eq_refl)
    as (after & Hafter & _ & Hnodup).
  exists after. split; [exact Hafter|]. apply Hnodup. constructor.
Defined.

(** X3 at the first pass over a new upgrade. *)
Lemma X3_Reconcile_patches_the_status_last_witness :
  ∃ after calls,
    IvyUpgrade.UpgradeAfter
      (IvyUpgrade.Reconcile
         (Samples.reconciler Samples.newUpgrade UpgradeSamples.beforeTheJob)
         GoMap.inOrder Samples.request) = Some after ∧
    Forall (λ call, UpgradePass.patchesUpgrade call = false) calls.
Proof.
  destruct (X3_Reconcile_patches_the_status_last
              (Samples.reconciler Samples.newUpgrade UpgradeSamples.beforeTheJob)
              GoMap.inOrder Samples.request Samples.newUpgrade eq_refl)
    as (after & calls & Hafter & Hcalls & _).
  exists after, calls. split; [exact Hafter|exact Hcalls].
Defined.

(** X4 at the first pass over a new upgrade, which creates the upgrade job. *)
Lemma X4_Reconcile_creates_jobs_behind_the_gates_witness :
  ∃ world,
    UpgradePass.preconditions
      (Samples.reconciler Samples.newUpgrade UpgradeSamples.beforeTheJob)
      GoMap.inOrder Samples.newUpgrade world.
Proof.
  destruct (X4_Reconcile_creates_jobs_behind_the_gates
              (Samples.reconciler Samples.newUpgrade UpgradeSamples.beforeTheJob)
              GoMap.inOrder Samples.request Samples.newUpgrade
              {| IvyUpgrade.JobMeta := Samples.meta "hippo-upgrade-pgdata";
                 IvyUpgrade.JobConditions := [] |} eq_refl)
    as (world & Hopen & _).
  - apply list_elem_of_In. vm_compute. left. reflexivity.
  - exists world. exact Hopen.
Defined.

(** X5 at the pass that finds the jobs done: the deletion of the
    replica-create job. *)
Lemma X5_Reconcile_deletes_and_patches_once_the_jobs_are_done_witness :
  GoMap.fair GoMap.inOrder ∧
  ∃ world,
    UpgradePass.removeDataJobsComplete
      (Samples.reconciler Samples.newUpgrade UpgradeSamples.jobsDone)
      GoMap.inOrder world = true.
Proof.
  split; [exact inOrder_fair|].
  destruct (X5_Reconcile_deletes_and_patches_once_the_jobs_are_done
              (Samples.reconciler Samples.newUpgrade UpgradeSamples.jobsDone)
              GoMap.inOrder Samples.request Samples.newUpgrade
              (IvyUpgrade.DeleteJob
                 (UpgradeSamples.job "hippo-backup-x" UpgradeSamples.replicaCreateLabels
                    UpgradeSamples.complete)
                 "uid-hippo-backup-x" "7")
              inOrder_fair eq_refl)
    as (world & _ & _ & Hremoved & _).
  - apply list_elem_of_In. vm_compute. left. reflexivity.
  - left. eauto.
  - exists world. exact Hremoved.
Defined.

(** X6 at the first pass over a new upgrade, which asks for a requeue. *)
Lemma X6_Reconcile_requeues_only_for_the_endpoints_witness :
  IvyUpgrade.Requeue
    (IvyUpgrade.Returned
       (IvyUpgrade.Reconcile
          (Samples.reconciler Samples.newUpgrade UpgradeSamples.beforeTheJob)
          GoMap.inOrder Samples.request)) = true ∧
  ∃ world, IvyUpgrade.PatroniEndpoints world ≠ [].
Proof.
  split; [reflexivity|].
  destruct (X6_Reconcile_requeues_only_for_the_endpoints
              (Samples.reconciler Samples.newUpgrade UpgradeSamples.beforeTheJob)
              GoMap.inOrder Samples.request Samples.newUpgrade eq_refl)
    as [Hnone|(_ & world & _ & Hendpoints & _)].
  - vm_compute in Hnone. discriminate Hnone.
  - exists world. exact Hendpoints.
Defined.

(** X7 at the pass that marks the upgrade as succeeded. *)
Lemma X7_Reconcile_succeeds_only_when_complete_witness :
  ∃ world,
    IvyUpgrade.upgradeJobComplete
      (Samples.reconciler Samples.newUpgrade UpgradeSamples.statusAt15)
      (IvyUpgrade.whenObserved
         (Samples.reconciler Samples.newUpgrade UpgradeSamples.statusAt15)
         Samples.newUpgrade) world = true.
Proof.
  destruct (X7_Reconcile_succeeds_only_when_complete
              (Samples.reconciler Samples.newUpgrade UpgradeSamples.statusAt15)
              GoMap.inOrder Samples.request Samples.newUpgrade
              (default Samples.newUpgrade
                 (IvyUpgrade.UpgradeAfter
                    (IvyUpgrade.Reconcile
                       (Samples.reconciler Samples.newUpgrade UpgradeSamples.statusAt15)
                       GoMap.inOrder Samples.request)))
              eq_refl eq_refl)
    as (world & found & _ & _ & _ & _ & Hcomplete & _).
  - vm_compute. reflexivity.
  - vm_compute. reflexivity.
  - exists world. exact Hcomplete.
Defined.

(** X8 at a pass that finds the upgrade job failed. *)
Lemma X8_Reconcile_reports_a_failed_job_witness :
  ∃ after found,
    IvyUpgrade.UpgradeAfter
      (IvyUpgrade.Reconcile
         (Samples.reconciler Samples.newUpgrade UpgradeSamples.jobFailed)
         GoMap.inOrder Samples.request) = Some after ∧
    IvyUpgrade.succeededOf after = Some found ∧
    Metav1.Reason found = "IvyUpgradeFailed".
Proof.
  destruct (X8_Reconcile_reports_a_failed_job
              (Samples.reconciler Samples.newUpgrade UpgradeSamples.jobFailed)
              GoMap.inOrder Samples.request Samples.newUpgrade UpgradeSamples.jobFailed)
    as (after & found & Hafter & Hfound & _ & Hreason & _);
    try reflexivity.
  - discriminate.
  - eexists. reflexivity.
  - left. vm_compute. reflexivity.
  - exists after, found. split; [exact Hafter|]. split; [exact Hfound|exact Hreason].
Defined.

(** X9 at a reconciler that cannot observe the world. *)
Lemma X9_Reconcile_returns_the_error_of_the_observation_witness :
  IvyUpgrade.ReturnedErr
    (IvyUpgrade.Reconcile UpgradeSamples.blind GoMap.inOrder Samples.request)
  = Some {| IvyUpgrade.ErrorMessage := "connection refused";
            IvyUpgrade.IsNotFound := false |}.
Proof.
  destruct (X9_Reconcile_returns_the_error_of_the_observation
              UpgradeSamples.blind GoMap.inOrder Samples.request Samples.newUpgrade
              {| IvyUpgrade.ErrorMessage := "connection refused";
                 IvyUpgrade.IsNotFound := false |}
              eq_refl eq_refl eq_refl eq_refl)
    as (after & _ & _ & Herr & _).
  exact Herr.
Defined.

(** X10 at a pass that observes three jobs, the upgrade job and two
    remove-data jobs, of which one is complete and one is still running,
    ranging over the jobs in one order and in the reverse order. *)
Lemma X10_Reconcile_does_not_depend_on_the_order_of_the_jobs_witness :
  GoMap.fair GoMap.inOrder ∧ GoMap.fair GoMap.backwards ∧
  GoMap.range GoMap.inOrder 0 (IvyUpgrade.Jobs UpgradeSamples.oneOfTwoRunning) ≠
  GoMap.range GoMap.backwards 0 (IvyUpgrade.Jobs UpgradeSamples.oneOfTwoRunning) ∧
  IvyUpgrade.UpgradeAfter
    (IvyUpgrade.Reconcile
       (Samples.reconciler Samples.newUpgrade UpgradeSamples.oneOfTwoRunning)
       GoMap.inOrder Samples.request) =
  IvyUpgrade.UpgradeAfter
    (IvyUpgrade.Reconcile
       (Samples.reconciler Samples.newUpgrade UpgradeSamples.oneOfTwoRunning)
       GoMap.backwards Samples.request) ∧
  IvyUpgrade.Returned
    (IvyUpgrade.Reconcile
       (Samples.reconciler Samples.newUpgrade UpgradeSamples.oneOfTwoRunning)
       GoMap.inOrder Samples.request) =
  IvyUpgrade.Returned
    (IvyUpgrade.Reconcile
       (Samples.reconciler Samples.newUpgrade UpgradeSamples.oneOfTwoRunning)
       GoMap.backwards Samples.request).
Proof.
  split; [exact inOrder_fair|]. split; [exact backwards_fair|].
  split; [intros Hsame; vm_compute in Hsame; discriminate Hsame|].
  refine (X10_Reconcile_does_not_depend_on_the_order_of_the_jobs
            (Samples.reconciler Samples.newUpgrade UpgradeSamples.oneOfTwoRunning)
            GoMap.inOrder GoMap.backwards Samples.request Samples.newUpgrade
            inOrder_fair backwards_fair eq_refl _).
  intros world name job [= <-] Hjob _ _.
  apply elem_of_map_to_list in Hjob. vm_compute in Hjob.
  repeat (apply elem_of_cons in Hjob as [[= -> ->]|Hjob]; [reflexivity|]).
  by apply elem_of_nil in Hjob.
Defined.

(** ** The error that a pass returns when it asks for a requeue *)

Section PassError.
Import Metav1 V1beta1 IvyUpgrade UpgradePass UpgradeCalls.
Context (r : Reconciler).

Let deletion (object : Endpoints) : Call :=
  DeleteEndpoints object (UID (EndpointsMeta object))
    (ResourceVersion (EndpointsMeta object)).

(** The loop over the endpoints keeps the answer to its last deletion
    only. *)
Lemma deleteEndpoints_last front last err calls :
  deleteEndpoints r (front ++ [last]) err calls =
  (IgnoreNotFound (answer r (calls ++ (deletion <$> front)) (deletion last)),
   (calls ++ (deletion <$> front) ++ [deletion last])%list).
Proof.
  revert err calls. induction front as [|object front IH]; intros err calls.
  - cbn [app fmap list_fmap deleteEndpoints]. by rewrite app_nil_r.
  - cbn [app deleteEndpoints]. rewrite IH, fmap_cons.
    fold (deletion object). by rewrite <- !app_assoc.
Qed.

Lemma drive_requeue sched upgrade world complete removed :
  Requeue (ExitResult (drive r sched upgrade world complete removed)) = true →
  ∃ front last before,
    PatroniEndpoints world = (front ++ [last])%list ∧
    ExitCalls (drive r sched upgrade world complete removed)
      = (before ++ [deletion last])%list ∧
    ExitErr (drive r sched upgrade world complete removed)
      = IgnoreNotFound (answer r before (deletion last)).
Proof.
  unfold drive.
  destruct (complete && removed && bool_decide (_ ≠ _)).
  { by repeat (case_match; simpl). }
  destruct (if negb complete then _ else _) as [err calls].
  destruct (if bool_decide (err = None) && complete && negb removed then _ else _)
    as [err' calls'].
  destruct (PatroniEndpoints world) as [|object objects] eqn:Hendpoints; [done|].
  destruct (exists_last (l := object :: objects)) as (front & last & Hlast); [done|].
  rewrite Hlast, deleteEndpoints_last. cbn [ExitCalls ExitErr]. intros _.
  exists front, last, (calls' ++ (deletion <$> front))%list.
  split; [done|]. split; [by rewrite app_assoc|done].
Qed.

End PassError.

(** X11. When Reconcile asks for a requeue, the error of its body is the
    answer to the deletion of the last endpoint of Patroni, a not-found
    answer counting as none: what the API answered to the creation of a job
    or to the deletion of another endpoint is not returned.  When that
    answer is none, Reconcile returns the answer to the patch of the
    status, if it makes one. *)
Theorem X11_Reconcile_returns_the_error_of_the_last_endpoint
    (r : IvyUpgrade.Reconciler) (sched : GoMap.Schedule) (req : string * string)
    (upgrade : V1beta1.IvyUpgrade) :
  IvyUpgrade.Get r req = inl upgrade →
  let outcome := IvyUpgrade.Reconcile r sched req in
  IvyUpgrade.Requeue (IvyUpgrade.Returned outcome) = true →
  ∃ world front last before after,
    IvyUpgrade.observeWorld r (IvyUpgrade.whenObserving r upgrade) = inl world ∧
    IvyUpgrade.PatroniEndpoints world = (front ++ [last])%list ∧
    let deletion :=
      IvyUpgrade.DeleteEndpoints last
        (Metav1.UID (IvyUpgrade.EndpointsMeta last))
        (Metav1.ResourceVersion (IvyUpgrade.EndpointsMeta last)) in
    let answered := IvyUpgrade.IgnoreNotFound (IvyUpgrade.answer r before deletion) in
    IvyUpgrade.UpgradeAfter outcome = Some after ∧
    ((IvyUpgrade.Calls outcome = (before ++ [deletion])%list ∧
      IvyUpgrade.ReturnedErr outcome = answered) ∨
     (IvyUpgrade.Calls outcome
        = (before ++ [deletion; IvyUpgrade.PatchUpgradeStatus after])%list ∧
      IvyUpgrade.ReturnedErr outcome =
        match answered with
        | Some err => Some err
        | None => IvyUpgrade.answer r (before ++ [deletion])
                    (IvyUpgrade.PatchUpgradeStatus after)
        end)).
Proof.
  intros Hget. cbv zeta. intros Hrequeue.
  destruct (Reconcile_deferred r sched req upgrade Hget) as (Hafter & Hresult & Hcalls).
  rewrite Hresult in Hrequeue.
  destruct (body_stop_or_drive r sched upgrade) as [[_ Hstop]|(world & Hopen & Hbody)].
  { by rewrite Hstop in Hrequeue. }
  rewrite Hbody in Hrequeue, Hcalls, Hafter.
  destruct (drive_requeue r sched _ world _ _ Hrequeue)
    as (front & last & before & Hendpoints & Hexit & Herr).
  rewrite Hexit, Herr in Hcalls.
  destruct Hopen as (_ & _ & Hworld & _).
  exists world, front, last, before. eexists.
  split; [exact Hworld|]. split; [exact Hendpoints|]. split; [exact Hafter|].
  destruct Hcalls as [[-> ->]|[-> ->]]; [by left|right].
  by rewrite <- app_assoc.
Qed.

(** X11 at a first pass over a new upgrade, with an API that refuses to
    create jobs. *)
Lemma X11_Reconcile_returns_the_error_of_the_last_endpoint_witness :
  IvyUpgrade.Requeue
    (IvyUpgrade.Returned
       (IvyUpgrade.Reconcile
          (UpgradeRefusals.refusingJobs Samples.newUpgrade UpgradeSamples.beforeTheJob)
          GoMap.inOrder Samples.request)) = true ∧
  ∃ world front last,
    IvyUpgrade.PatroniEndpoints world = (front ++ [last])%list.
Proof.
  split; [reflexivity|].
  destruct (X11_Reconcile_returns_the_error_of_the_last_endpoint
              (UpgradeRefusals.refusingJobs Samples.newUpgrade
                 UpgradeSamples.beforeTheJob)
              GoMap.inOrder Samples.request Samples.newUpgrade eq_refl eq_refl)
    as (world & front & last & _ & _ & _ & Hendpoints & _).
  exists world, front, last. exact Hendpoints.
Defined.

(** There the API refuses the creation of the upgrade job, the endpoints
    are deleted, and Reconcile returns no error. *)
Example Reconcile_drops_the_error_of_a_job :
  let r := UpgradeRefusals.refusingJobs Samples.newUpgrade UpgradeSamples.beforeTheJob in
  let outcome := IvyUpgrade.Reconcile r GoMap.inOrder Samples.request in
  let job := IvyUpgrade.generateUpgradeJob r Samples.newUpgrade None in
  IvyUpgrade.answer r [] (IvyUpgrade.ApplyJob job) = Some Samples.conflict ∧
  head (IvyUpgrade.Calls outcome) = Some (IvyUpgrade.ApplyJob job) ∧
  IvyUpgrade.ReturnedErr outcome = None.
Proof. cbv zeta. repeat split; vm_compute; reflexivity. Qed.

(** ** The directory of the logs of the repository host *)

Section LogDirectory.
Import V1beta1 PGBackRest Keys.
Context (K : Names).

Lemma logPath_firstVolume repos path :
  PGBackRestPod.logPath K repos path =
  match firstVolume repos with
  | Some repo => PGBackRestRepoLogPath K (Name repo)
  | None => path
  end.
Proof.
  unfold firstVolume. induction repos as [|repo repos IH]; [done|].
  cbn [PGBackRestPod.logPath find list_find]. destruct (Volume repo) as [volume|].
  - by rewrite bool_decide_eq_true_2 by eauto.
  - rewrite bool_decide_eq_false_2 by (by intros [? ?]). exact IH.
Qed.

End LogDirectory.

(** X12. The init container that MakePGBackrestLogDir appends to the
    template makes the directory that the configuration of the repository
    host names as its log path: when the global settings of the cluster have
    no log-path and no repository is named "log", the command is
    [mkdir -p] of the one value of log-path.  When no repository has a
    volume there is no log-path, and the command is [mkdir -p] of the empty
    path. *)
Theorem X12_MakePGBackrestLogDir_makes_the_log_path
    {SecurityContext : Type} (K : PGBackRest.Names)
    (P : PGBackRestPod.PodNames SecurityContext) (sched : GoMap.Schedule)
    (serviceName serviceNamespace pgdataDir : string) (pgPort : Z)
    (pgHosts : list string) (template : Corev1.PodTemplateSpec SecurityContext)
    (cluster : V1beta1.IvoryCluster) :
  GoMap.fair sched →
  V1beta1.Global (V1beta1.ClusterSpec cluster) !! "log-path" = None →
  (∀ repo, repo ∈ V1beta1.Repos (V1beta1.ClusterSpec cluster) →
           V1beta1.Name repo ≠ "log") →
  let sections :=
    PGBackRest.populateRepoHostConfigurationMap K sched
      serviceName serviceNamespace pgdataDir pgPort pgHosts
      (V1beta1.Repos (V1beta1.ClusterSpec cluster))
      (V1beta1.Global (V1beta1.ClusterSpec cluster)) in
  ∃ container path,
    Corev1.InitContainers (PGBackRestPod.MakePGBackrestLogDir K P template cluster)
      = (Corev1.InitContainers template ++ [container])%list ∧
    Corev1.Command container = ["bash"; "-c"; "mkdir -p " +:+ path] ∧
    match Keys.globalSection sections !! "log-path" with
    | Some values => values = [path]
    | None => path = ""
    end.
Proof.
  intros Hfair Hglobal Hnames. cbv zeta.
  eexists _, _. split; [reflexivity|]. split; [reflexivity|].
  unfold Keys.globalSection, PGBackRest.populateRepoHostConfigurationMap.
  rewrite lookup_insert_ne by done. rewrite lookup_insert_eq. simpl.
  rewrite SetAll_range_lookup by done. rewrite Hglobal.
  rewrite repoHostRepos_log_path by done.
  rewrite lookup_empty, logPath_firstVolume.
  by destruct (Keys.firstVolume _).
Qed.

(** ** The global settings of the cluster in the two configurations *)

(** X13. An option that the cluster declares among its global settings is
    in the global section of the configuration of the instance and of the
    configuration of the repository host with the declared value as its one
    value, whatever the builders generate for that key; and the stanza
    section is as it is without any global setting. *)
Theorem X13_declared_global_settings_win
    (K : PGBackRest.Names) (sched : GoMap.Schedule)
    (serviceName serviceNamespace repoHostName pgdataDir : string) (pgPort : Z)
    (pgHosts : list string) (repos : list V1beta1.PGBackRestRepo)
    (globalConfig : gmap string string) (key value : string) :
  GoMap.fair sched →
  globalConfig !! key = Some value →
  let instance overrides :=
    PGBackRest.populatePGInstanceConfigurationMap K sched serviceName
      serviceNamespace repoHostName pgdataDir pgPort repos overrides in
  let repoHost overrides :=
    PGBackRest.populateRepoHostConfigurationMap K sched serviceName
      serviceNamespace pgdataDir pgPort pgHosts repos overrides in
  Keys.globalSection (instance globalConfig) !! key = Some [value] ∧
  Keys.globalSection (repoHost globalConfig) !! key = Some [value] ∧
  Keys.stanzaSection (instance globalConfig) = Keys.stanzaSection (instance ∅) ∧
  Keys.stanzaSection (repoHost globalConfig) = Keys.stanzaSection (repoHost ∅).
Proof.
  intros Hfair Hkey. cbv zeta.
  unfold Keys.globalSection, Keys.stanzaSection,
    PGBackRest.populatePGInstanceConfigurationMap,
    PGBackRest.populateRepoHostConfigurationMap.
  rewrite !(lookup_insert_ne _ PGBackRest.DefaultStanzaName "global") by done.
  rewrite !lookup_insert_eq. simpl.
  rewrite !SetAll_range_lookup by done. by rewrite Hkey.
Qed.

(** ** Repositories without a volume *)

Section NoRepoHost.
Import V1beta1 PGBackRest.
Context (K : Names).

Lemma instanceRepo_no_host sched n host fqdn fqdn' repo global :
  host = "" ∨ Volume repo = None →
  instanceRepo K sched n host fqdn repo global =
  instanceRepo K sched n "" fqdn' repo global.
Proof.
  intros Hnone. unfold instanceRepo.
  rewrite (bool_decide_eq_false_2 ("" ≠ "")) by (by intros H).
  destruct Hnone as [->|Hvolume].
  - by rewrite (bool_decide_eq_false_2 ("" ≠ "")) by (by intros H).
  - rewrite Hvolume.
    rewrite (bool_decide_eq_false_2 (is_Some None)) by (by intros [? ?]).
    by rewrite andb_false_r.
Qed.

Lemma instanceRepos_no_host sched n host fqdn fqdn' repos global :
  host = "" ∨ Forall (λ repo, Volume repo = None) repos →
  instanceRepos K sched n host fqdn repos global =
  instanceRepos K sched n "" fqdn' repos global.
Proof.
  intros Hnone. revert n global.
  induction repos as [|repo repos IH]; intros n global; [done|].
  cbn [instanceRepos].
  rewrite (instanceRepo_no_host sched n host fqdn fqdn' repo).
  - apply IH. destruct Hnone as [->|Hall]; [by left|right].
    by apply Forall_cons in Hall as [_ ?].
  - destruct Hnone as [->|Hall]; [by left|right].
    by apply Forall_cons in Hall as [? _].
Qed.

Lemma populatePGInstanceConfigurationMap_no_host sched serviceName serviceNamespace
    repoHostName pgdataDir pgPort repos globalConfig :
  repoHostName = "" ∨ Forall (λ repo, Volume repo = None) repos →
  ∀ otherName otherNamespace,
    populatePGInstanceConfigurationMap K sched serviceName
      serviceNamespace repoHostName pgdataDir pgPort repos globalConfig =
    populatePGInstanceConfigurationMap K sched otherName
      otherNamespace "" pgdataDir pgPort repos globalConfig.
Proof.
  intros Hnone otherName otherNamespace.
  unfold populatePGInstanceConfigurationMap. cbv zeta.
  by rewrite (instanceRepos_no_host sched 0 repoHostName _
                ("" +:+ "-0." +:+ otherName +:+ "." +:+ otherNamespace +:+ ".svc." +:+
                 KubernetesClusterDomain K) repos).
Qed.

End NoRepoHost.

(** X14. The configuration of an instance names a repository host only for
    a repository with a volume, and only when the name of the host is not
    empty: when every repository is in the cloud, or there is no name, the
    configuration is the one built without a host, whatever the names of
    the service and of its namespace are. *)
Theorem X14_no_repository_host_without_a_volume
    (K : PGBackRest.Names) (sched : GoMap.Schedule)
    (serviceName serviceNamespace repoHostName pgdataDir : string) (pgPort : Z)
    (repos : list V1beta1.PGBackRestRepo) (globalConfig : gmap string string) :
  repoHostName = "" ∨ Forall (λ repo, V1beta1.Volume repo = None) repos →
  ∀ otherName otherNamespace,
    PGBackRest.populatePGInstanceConfigurationMap K sched serviceName
      serviceNamespace repoHostName pgdataDir pgPort repos globalConfig =
    PGBackRest.populatePGInstanceConfigurationMap K sched otherName
      otherNamespace "" pgdataDir pgPort repos globalConfig.
Proof. apply populatePGInstanceConfigurationMap_no_host. Qed.

(** ** The address of the TLS server *)

Section ServerAddress.
Import PGBackRest.

Lemma toLower_i c :
  bool_decide (toLower c = "i"%char)
  = bool_decide (c = "i"%char) || bool_decide (c = "I"%char).
Proof. destruct c as [[] [] [] [] [] [] [] []]; by vm_compute. Qed.

Lemma toLower_p c :
  bool_decide (toLower c = "p"%char)
  = bool_decide (c = "p"%char) || bool_decide (c = "P"%char).
Proof. destruct c as [[] [] [] [] [] [] [] []]; by vm_compute. Qed.

Lemma toLower_v c :
  bool_decide (toLower c = "v"%char)
  = bool_decide (c = "v"%char) || bool_decide (c = "V"%char).
Proof. destruct c as [[] [] [] [] [] [] [] []]; by vm_compute. Qed.

Lemma toLower_6 c :
  bool_decide (toLower c = "6"%char) = bool_decide (c = "6"%char).
Proof. destruct c as [[] [] [] [] [] [] [] []]; by vm_compute. Qed.

Lemma EqualFold_ipv6 s :
  EqualFold s "ipv6" = true ↔
  s ∈ ["ipv6"; "ipV6"; "iPv6"; "iPV6"; "Ipv6"; "IpV6"; "IPv6"; "IPV6"].
Proof.
  unfold EqualFold. rewrite bool_decide_eq_true. split.
  - destruct s as [|a [|b [|c [|d [|e s]]]]]; try done.
    cbn [lower]. intros [= Ha Hb Hc Hd].
    apply (bool_decide_eq_true_2 _) in Ha, Hb, Hc, Hd.
    rewrite toLower_i in Ha. rewrite toLower_p in Hb.
    rewrite toLower_v in Hc. rewrite toLower_6 in Hd.
    apply orb_true_iff in Ha, Hb, Hc.
    apply bool_decide_eq_true in Hd as ->.
    destruct Ha as [->%bool_decide_eq_true| ->%bool_decide_eq_true],
             Hb as [->%bool_decide_eq_true| ->%bool_decide_eq_true],
             Hc as [->%bool_decide_eq_true| ->%bool_decide_eq_true];
      apply (bool_decide_unpack _); by vm_compute.
  - intros Hin. repeat (apply elem_of_cons in Hin as [->|Hin]; [done|]).
    by apply elem_of_nil in Hin.
Qed.

End ServerAddress.

(** X15. The TLS server of pgBackRest listens on one address: the IPv6
    wildcard [::] when the annotation of the cluster for the IP version is
    [ipv6] in whatever letter case, and the IPv4 wildcard [0.0.0.0]
    otherwise, also when the annotation is missing. *)
Theorem X15_serverConfig_listens_on_one_address
    (K : PGBackRest.Names) (cluster : V1beta1.IvoryCluster) :
  let annotation :=
    Metav1.index (Metav1.Annotations (V1beta1.ClusterMeta cluster))
      (PGBackRest.PGBackRestIPVersion K) in
  Keys.globalSection (PGBackRest.serverConfig K cluster) !! "tls-server-address" =
  Some [if bool_decide
             (annotation ∈ ["ipv6"; "ipV6"; "iPv6"; "iPV6";
                            "Ipv6"; "IpV6"; "IPv6"; "IPV6"])
        then "::" else "0.0.0.0"].
Proof.
  cbv zeta. unfold Keys.globalSection, PGBackRest.serverConfig. cbv zeta.
  rewrite lookup_insert_ne by done. rewrite lookup_insert_eq. simpl.
  do 3 (rewrite Set_lookup; rewrite decide_False by done).
  unfold PGBackRest.Add. rewrite lookup_insert_ne by done.
  destruct (PGBackRest.EqualFold _ "ipv6") eqn:Hfold.
  - apply EqualFold_ipv6 in Hfold. rewrite bool_decide_eq_true_2 by done.
    rewrite Set_lookup. by rewrite decide_True.
  - rewrite bool_decide_eq_false_2.
    + rewrite Set_lookup. by rewrite decide_True.
    + intros Hin. apply EqualFold_ipv6 in Hin. congruence.
Qed.

(** ** What a pass over the exporter leaves in the cluster *)

Section Exporter.
Import V1beta1 PGMonitor.
Context {Instance Secret : Type} (r : @Collaborators Instance Secret).

Lemma applyExporter_after cluster pod secret revision :
  let outcome := applyExporter r cluster pod secret revision in
  match Returned outcome with
  | None => ClusterAfter outcome = recordRevision cluster revision
  | Some _ => ClusterAfter outcome = cluster
  end.
Proof.
  cbv zeta. unfold applyExporter.
  destruct (if ExporterEnabled r cluster then _ else _) as [[setup err] calls].
  destruct err as [err|]; [done|].
  destruct (action r cluster secret setup _ _ calls) as [[err|] calls']; done.
Qed.

(** The loop over the statuses of the containers finds no image for a
    container that has no status. *)
Lemma imageIDs_exporter statuses exporterImageSHA pgImageSHA :
  Forall (λ status, ContainerName status ≠ ContainerPGMonitorExporter r) statuses →
  (imageIDs r statuses exporterImageSHA pgImageSHA).1 = exporterImageSHA.
Proof.
  revert exporterImageSHA pgImageSHA.
  induction statuses as [|status statuses IH]; intros e p Hnone; [done|].
  apply Forall_cons in Hnone as [Hname Hnone]. cbn [imageIDs].
  rewrite (bool_decide_eq_false_2 _ Hname). by apply IH.
Qed.

Lemma imageIDs_database statuses exporterImageSHA pgImageSHA :
  Forall (λ status, ContainerName status ≠ ContainerDatabase r) statuses →
  (imageIDs r statuses exporterImageSHA pgImageSHA).2 = pgImageSHA.
Proof.
  revert exporterImageSHA pgImageSHA.
  induction statuses as [|status statuses IH]; intros e p Hnone; [done|].
  apply Forall_cons in Hnone as [Hname Hnone]. cbn [imageIDs].
  rewrite (bool_decide_eq_false_2 _ Hname). by apply IH.
Qed.

(** What the pass computes from the cluster is computed from
    ExporterEnabled alone. *)
Lemma images_enabled cluster other pod :
  ExporterEnabled r other = ExporterEnabled r cluster →
  images r other pod = images r cluster pod.
Proof. unfold images. by intros ->. Qed.

Lemma revision_enabled cluster other pod secret :
  ExporterEnabled r other = ExporterEnabled r cluster →
  revision r other pod secret = revision r cluster pod secret.
Proof.
  intros Henabled. unfold revision, action.
  by rewrite (images_enabled cluster other pod Henabled), Henabled.
Qed.

End Exporter.

(** X16. A pass of reconcilePGMonitorExporter changes nothing of the cluster
    but the revision of the exporter in its status, and it changes that
    only when it returns nil, to the revision it computed: after an error
    the cluster is as it was, so that the next pass runs the SQL again. *)
Theorem X16_exporter_revision_recorded_on_success
    {Instance Secret : Type} (r : @PGMonitor.Collaborators Instance Secret)
    (cluster : V1beta1.IvoryCluster)
    (writablePod : option PGMonitor.Pod) (writableInstance : option Instance)
    (monitoringSecret : Secret) :
  let outcome := PGMonitor.reconcilePGMonitorExporter r cluster
                   writablePod writableInstance monitoringSecret in
  MonitorPass.sameButRevision cluster (PGMonitor.ClusterAfter outcome) ∧
  (PGMonitor.ClusterAfter outcome = cluster ∨
   PGMonitor.Returned outcome = None ∧
   ∃ pod,
     writablePod = Some pod ∧
     PGMonitor.revision r cluster pod monitoringSecret =
       (V1beta1.ExporterConfiguration
          (V1beta1.ClusterStatus (PGMonitor.ClusterAfter outcome)), None)).
Proof.
  cbv zeta. unfold PGMonitor.reconcilePGMonitorExporter.
  destruct writableInstance as [instance|], writablePod as [pod|];
    try (split; [done|by left]).
  destruct (PGMonitor.IsRunning r instance _) as [running known].
  destruct (_ && (negb running || negb known)); [split; [done|by left]|].
  destruct (PGMonitor.images r cluster pod) as [exporterImageSHA pgImageSHA].
  destruct (_ && (bool_decide (exporterImageSHA = "") || _));
    [split; [done|by left]|].
  destruct (PGMonitor.revision r cluster pod monitoringSecret)
    as [revision [err|]] eqn:Hrevision; [split; [done|by left]|].
  case_bool_decide; [|split; [done|by left]].
  pose proof (applyExporter_after r cluster pod monitoringSecret revision) as Hafter.
  cbv zeta in Hafter.
  destruct (PGMonitor.Returned (PGMonitor.applyExporter r cluster pod _ revision));
    rewrite Hafter; [split; [done|by left]|].
  split; [done|]. right. split; [done|]. by exists pod.
Qed.

(** X17. After a pass that returned nil, a second pass over the cluster
    that the first one left, with the same pod, instance and secret, calls
    nothing, changes nothing and returns nil, provided ExporterEnabled reads
    the specification of the cluster only. *)
Theorem X17_exporter_pass_is_not_repeated
    {Instance Secret : Type} (r : @PGMonitor.Collaborators Instance Secret)
    (cluster : V1beta1.IvoryCluster)
    (writablePod : option PGMonitor.Pod) (writableInstance : option Instance)
    (monitoringSecret : Secret) :
  (∀ one other, V1beta1.ClusterSpec one = V1beta1.ClusterSpec other →
     PGMonitor.ExporterEnabled r one = PGMonitor.ExporterEnabled r other) →
  let first := PGMonitor.reconcilePGMonitorExporter r cluster
                 writablePod writableInstance monitoringSecret in
  PGMonitor.Returned first = None →
  PGMonitor.reconcilePGMonitorExporter r (PGMonitor.ClusterAfter first)
    writablePod writableInstance monitoringSecret =
  {| PGMonitor.Returned := None;
     PGMonitor.ClusterAfter := PGMonitor.ClusterAfter first;
     PGMonitor.PodExecs := [] |}.
Proof.
  intros Hspec. cbv zeta.
  unfold PGMonitor.reconcilePGMonitorExporter at 1 3 4.
  destruct writableInstance as [instance|], writablePod as [pod|]; try done.
  destruct (PGMonitor.IsRunning r instance _) as [running known] eqn:Hrunning.
  destruct (PGMonitor.ExporterEnabled r cluster && (negb running || negb known))
    eqn:Hquiet.
  { intros _. cbn [PGMonitor.ClusterAfter]. unfold PGMonitor.reconcilePGMonitorExporter.
    by rewrite Hrunning, Hquiet. }
  destruct (PGMonitor.images r cluster pod) as [exporterImageSHA pgImageSHA] eqn:Himages.
  destruct (PGMonitor.ExporterEnabled r cluster &&
            (bool_decide (exporterImageSHA = "") || bool_decide (pgImageSHA = "")))
    eqn:Hknown.
  { intros _. cbn [PGMonitor.ClusterAfter]. unfold PGMonitor.reconcilePGMonitorExporter.
    by rewrite Hrunning, Hquiet, Himages, Hknown. }
  destruct (PGMonitor.revision r cluster pod monitoringSecret)
    as [revision [err|]] eqn:Hrevision; [done|].
  destruct (bool_decide (revision ≠ _)) eqn:Hnew.
  2:{ intros _. cbn [PGMonitor.ClusterAfter]. unfold PGMonitor.reconcilePGMonitorExporter.
      by rewrite Hrunning, Hquiet, Himages, Hknown, Hrevision, Hnew. }
  intros Hreturned.
  pose proof (applyExporter_after r cluster pod monitoringSecret revision) as Hafter.
  cbv zeta in Hafter. rewrite Hreturned in Hafter. rewrite Hafter.
  assert (PGMonitor.ExporterEnabled r (PGMonitor.recordRevision cluster revision)
          = PGMonitor.ExporterEnabled r cluster) as Henabled by by apply Hspec.
  unfold PGMonitor.reconcilePGMonitorExporter.
  rewrite Hrunning, Henabled, Hquiet.
  rewrite (images_enabled r cluster _ pod Henabled), Himages, Hknown.
  rewrite (revision_enabled r cluster _ pod monitoringSecret Henabled), Hrevision.
  by rewrite bool_decide_eq_false_2 by (intros Hne; by apply Hne).
Qed.

(** X18. While the exporter is enabled and the writable pod reports no
    status for the database container, or none for the exporter container,
    reconcilePGMonitorExporter calls nothing, changes nothing and returns
    nil. *)
Theorem X18_exporter_waits_for_the_container_statuses
    {Instance Secret : Type} (r : @PGMonitor.Collaborators Instance Secret)
    (cluster : V1beta1.IvoryCluster)
    (writablePod : PGMonitor.Pod) (writableInstance : option Instance)
    (monitoringSecret : Secret) :
  PGMonitor.ExporterEnabled r cluster = true →
  Forall (λ status, PGMonitor.ContainerName status ≠ PGMonitor.ContainerDatabase r)
    (PGMonitor.ContainerStatuses writablePod) ∨
  Forall (λ status,
            PGMonitor.ContainerName status ≠ PGMonitor.ContainerPGMonitorExporter r)
    (PGMonitor.ContainerStatuses writablePod) →
  PGMonitor.reconcilePGMonitorExporter r cluster
    (Some writablePod) writableInstance monitoringSecret =
  {| PGMonitor.Returned := None;
     PGMonitor.ClusterAfter := cluster;
     PGMonitor.PodExecs := [] |}.
Proof.
  intros Henabled Hnone. unfold PGMonitor.reconcilePGMonitorExporter.
  destruct writableInstance as [instance|]; [|done].
  destruct (PGMonitor.IsRunning r instance _) as [running known].
  rewrite Henabled. destruct (negb running || negb known); [done|]. cbn [andb].
  unfold PGMonitor.images. rewrite Henabled.
  pose proof (imageIDs_exporter r (PGMonitor.ContainerStatuses writablePod) "" "") as He.
  pose proof (imageIDs_database r (PGMonitor.ContainerStatuses writablePod) "" "") as Hp.
  destruct (PGMonitor.imageIDs r _ "" "") as [exporterImageSHA pgImageSHA].
  cbn [fst snd] in He, Hp.
  destruct Hnone as [Hnone|Hnone].
  - rewrite (Hp Hnone). by rewrite orb_true_r.
  - by rewrite (He Hnone).
Qed.

(** X17 at the cluster at version 14 and the pod with both containers: the
    first pass runs the SQL and records the revision. *)
Lemma X17_exporter_pass_is_not_repeated_witness :
  let r := MonitorSamples.collaborators MonitorSamples.fine in
  let first :=
    PGMonitor.reconcilePGMonitorExporter r (Samples.cluster 14)
      (Some MonitorSamples.ready) (Some tt) "secret" in
  PGMonitor.PodExecs first ≠ [] ∧
  PGMonitor.PodExecs
    (PGMonitor.reconcilePGMonitorExporter r (PGMonitor.ClusterAfter first)
       (Some MonitorSamples.ready) (Some tt) "secret") = [].
Proof.
  cbv zeta. split; [by vm_compute|].
  rewrite (X17_exporter_pass_is_not_repeated
             (MonitorSamples.collaborators MonitorSamples.fine) (Samples.cluster 14)
             (Some MonitorSamples.ready) (Some tt) "secret").
  - reflexivity.
  - intros one other Hspec. cbn [PGMonitor.ExporterEnabled MonitorSamples.collaborators].
    by rewrite Hspec.
  - by vm_compute.
Defined.

(** X18 at the pod that reports the exporter container only. *)
Lemma X18_exporter_waits_for_the_container_statuses_witness :
  PGMonitor.PodExecs
    (PGMonitor.reconcilePGMonitorExporter
       (MonitorSamples.collaborators MonitorSamples.fine) (Samples.cluster 14)
       (Some MonitorSamples.starting) (Some tt) "secret") = [].
Proof.
  rewrite (X18_exporter_waits_for_the_container_statuses
             (MonitorSamples.collaborators MonitorSamples.fine) (Samples.cluster 14)
             MonitorSamples.starting (Some tt) "secret").
  - reflexivity.
  - reflexivity.
  - left. repeat constructor. discriminate.
Defined.

(** ** The exporter in the pod of an instance *)

Section ExporterPod.
Import V1beta1 Corev1 PGMonitorPod.
Context {SecurityContext : Type} (N : ExporterNames SecurityContext).

Let named (container : Container SecurityContext) : Prop :=
  ContainerName container = ContainerPGMonitorExporter N.

(** The loop of configureExporterTLS ends at the last container named as
    the exporter. *)
Lemma exporterContainer_last containers i found k :
  exporterContainer N containers i found = Some k →
  (found = Some k ∧ Forall (λ container, ¬ named container) containers) ∨
  ∃ container,
    (i ≤ k)%nat ∧ containers !! (k - i)%nat = Some container ∧ named container ∧
    ∀ j later, (k - i < j)%nat → containers !! j = Some later → ¬ named later.
Proof.
  revert i found. induction containers as [|container containers IH];
    intros i found Hk; cbn [exporterContainer] in Hk.
  { left. by split. }
  apply IH in Hk as [[Hfound Hnone]|(last & Hle & Hlast & Hnamed & Hlater)].
  - case_bool_decide as Hname.
    + right. injection Hfound as <-. exists container.
      split; [lia|]. rewrite Nat.sub_diag. split; [done|]. split; [done|].
      intros j later Hj Hlookup. destruct j as [|j]; [lia|].
      cbn in Hlookup. by eapply Forall_lookup_1 in Hnone.
    + left. split; [done|]. by constructor.
  - right. exists last. split; [lia|].
    replace (k - i)%nat with (S (k - S i)) by lia. split; [done|]. split; [done|].
    intros j later Hj Hlookup. destruct j as [|j]; [lia|].
    apply (Hlater j later); [lia|done].
Qed.

Lemma exporterContainer_none containers i :
  Forall (λ container, ¬ named container) containers →
  exporterContainer N containers i None = None.
Proof.
  revert i. induction containers as [|container containers IH]; intros i Hnone; [done|].
  apply Forall_cons in Hnone as [Hname Hnone]. cbn [exporterContainer].
  rewrite bool_decide_eq_false_2 by done. by apply IH.
Qed.

Lemma exporterContainer_appended containers container i found :
  named container →
  exporterContainer N (containers ++ [container]) i found
  = Some (i + length containers)%nat.
Proof.
  intros Hnamed. revert i found.
  induction containers as [|first containers IH]; intros i found.
  - cbn [app exporterContainer length]. rewrite bool_decide_eq_true_2 by done.
    by rewrite Nat.add_0_r.
  - cbn [app exporterContainer length]. rewrite IH. f_equal. lia.
Qed.

End ExporterPod.

(** X19. When the exporter is enabled, addPGMonitorExporterToInstancePodSpec
    keeps the containers, the init containers and the volumes that the
    template has, as they are, and appends one container, named as the
    exporter, and the volumes that this container mounts: the settings of
    TLS go to the appended container, also when the template already has a
    container of that name.  It sets the label of the discovery to "true".
    When the exporter is not enabled the template stays as it is. *)
Theorem X19_exporter_container_is_appended
    {SecurityContext : Type} (N : PGMonitorPod.ExporterNames SecurityContext)
    (cluster : V1beta1.IvoryCluster)
    (template : Corev1.PodTemplateSpec SecurityContext)
    (exporterWebConfig : PGMonitorPod.ConfigMap) :
  let after :=
    PGMonitorPod.addPGMonitorExporterToInstancePodSpec N cluster template
      exporterWebConfig in
  if PGMonitorPod.ExporterEnabled N cluster then
    ∃ container volumes,
      Corev1.Containers after = (Corev1.Containers template ++ [container])%list ∧
      Corev1.ContainerName container = PGMonitorPod.ContainerPGMonitorExporter N ∧
      Corev1.InitContainers after = Corev1.InitContainers template ∧
      Corev1.Volumes after = (Corev1.Volumes template ++ volumes)%list ∧
      Forall (λ mount, Corev1.MountName mount ∈ Corev1.VolumeName <$> volumes)
        (Corev1.VolumeMounts container) ∧
      Corev1.TemplateLabels after =
        <[PGMonitorPod.LabelPGMonitorDiscovery N := "true"]>
          (Corev1.TemplateLabels template)
  else after = template.
Proof.
  cbv zeta. unfold PGMonitorPod.addPGMonitorExporterToInstancePodSpec.
  destruct (PGMonitorPod.ExporterEnabled N cluster) eqn:Henabled; [|done].
  cbn [negb]. destruct (PGMonitorPod.CustomTLSSecret _) as [secret|] eqn:Hsecret.
  - unfold PGMonitorPod.configureExporterTLS. cbn [Corev1.Containers].
    rewrite (exporterContainer_appended N) by done.
    rewrite Henabled, Hsecret. rewrite bool_decide_eq_true_2 by eauto.
    cbn [andb Corev1.Containers Corev1.InitContainers Corev1.Volumes
         Corev1.TemplateLabels].
    rewrite Nat.add_0_l.
    replace (length (Corev1.Containers template))
      with (length (Corev1.Containers template) + 0)%nat by lia.
    rewrite alter_app_r. cbn [alter list_alter].
    eexists _, _. split; [reflexivity|]. split; [reflexivity|].
    split; [reflexivity|]. split; [by rewrite <- app_assoc|].
    split; [|reflexivity].
    repeat constructor; apply (bool_decide_unpack _); by vm_compute.
  - cbn [Corev1.Containers Corev1.InitContainers Corev1.Volumes Corev1.TemplateLabels].
    eexists _, _. split; [reflexivity|]. split; [reflexivity|].
    split; [reflexivity|]. split; [reflexivity|]. split; [|reflexivity].
    repeat constructor; apply (bool_decide_unpack _); by vm_compute.
Qed.

(** X20. configureExporterTLS changes one container at most, the last one
    of the template that is named as the exporter: every container of
    another name, and every container that comes before another one named
    as the exporter, stays as it is, no container is added or renamed, and
    the init containers stay as they are.  When no container is named as
    the exporter the template stays as it is. *)
Theorem X20_configureExporterTLS_changes_the_last_exporter
    {SecurityContext : Type} (N : PGMonitorPod.ExporterNames SecurityContext)
    (cluster : V1beta1.IvoryCluster)
    (template : Corev1.PodTemplateSpec SecurityContext)
    (exporterWebConfig : PGMonitorPod.ConfigMap) :
  let after := PGMonitorPod.configureExporterTLS N cluster template exporterWebConfig in
  let named container :=
    Corev1.ContainerName container = PGMonitorPod.ContainerPGMonitorExporter N in
  Corev1.ContainerName <$> Corev1.Containers after
    = Corev1.ContainerName <$> Corev1.Containers template ∧
  Corev1.InitContainers after = Corev1.InitContainers template ∧
  (∀ i container,
     Corev1.Containers template !! i = Some container →
     ¬ named container ∨
     (∃ j later, (i < j)%nat ∧ Corev1.Containers template !! j = Some later ∧
                 named later) →
     Corev1.Containers after !! i = Some container) ∧
  (Forall (λ container, ¬ named container) (Corev1.Containers template) →
   after = template).
Proof.
  cbv zeta. unfold PGMonitorPod.configureExporterTLS.
  destruct (PGMonitorPod.exporterContainer N (Corev1.Containers template) 0 None)
    as [k|] eqn:Hk.
  2:{ repeat split; done. }
  destruct (PGMonitorPod.ExporterEnabled N cluster && _).
  2:{ repeat split; done. }
  cbn [Corev1.Containers Corev1.InitContainers].
  apply (exporterContainer_last N) in Hk as [[? _]|(last & _ & Hlast & Hnamed & Hlater)];
    [done|].
  rewrite Nat.sub_0_r in Hlast, Hlater.
  split; [|split; [done|split]].
  - apply list_eq. intros i. rewrite !list_lookup_fmap.
    destruct (decide (i = k)) as [->|Hne].
    + rewrite list_lookup_alter, Hlast. by rewrite decide_True.
    + by rewrite list_lookup_alter_ne.
  - intros i container Hi Hkeep. rewrite list_lookup_alter_ne; [done|].
    intros <-. rewrite Hlast in Hi. injection Hi as <-.
    destruct Hkeep as [Hname|(j & later & Hj & Hlookup & Hname)]; [done|].
    by apply (Hlater j later).
  - intros Hnone. by eapply Forall_lookup_1 in Hnone.
Qed.

(** ** The secret of the monitoring user *)

Section MonitoringSecret.
Import V1beta1 PGMonitorSecret.

Lemma missing_false data key :
  Metav1.index data key ≠ "" → missing data key = false.
Proof.
  intros Hkey. unfold missing. apply bool_decide_eq_false_2.
  by destruct (Metav1.index data key).
Qed.

(** The data of the secret that reconcileMonitoringSecret returns or
    applies has the keys password and verifier and no other. *)
Lemma reconcileMonitoringSecret_data r cluster :
  let outcome := reconcileMonitoringSecret r cluster in
  ∀ intent,
    Returned outcome = Some intent ∨ ApplySecret intent ∈ Calls outcome →
    SecretData intent =
    <["verifier" := Metav1.index (SecretData intent) "verifier"]>
      (<["password" := Metav1.index (SecretData intent) "password"]> ∅).
Proof.
  cbv zeta. intros intent. unfold reconcileMonitoringSecret.
  destruct (match GetSecret r _ with inl _ => _ | inr _ => _ end) as [existing err].
  destruct (IgnoreNotFound err).
  { intros [?|Hin]; [done|by apply elem_of_nil in Hin]. }
  destruct (negb (ExporterEnabled r cluster)).
  { destruct err; intros [?|Hin]; try done.
    - by apply elem_of_nil in Hin.
    - by apply list_elem_of_singleton in Hin. }
  assert (∀ password verifier (data : gmap string string),
            data = <["verifier" := verifier]> (<["password" := password]> ∅) →
            data = <["verifier" := Metav1.index data "verifier"]>
                     (<["password" := Metav1.index data "password"]> ∅)) as Hdata.
  { intros password verifier data ->. unfold Metav1.index.
    rewrite lookup_insert_eq, lookup_insert_ne by done.
    by rewrite lookup_insert_eq. }
  destruct (if _ || _ then _ else _) as [data|failed] eqn:Hbuilt.
  2:{ intros [?|Hin]; [done|by apply elem_of_nil in Hin]. }
  assert (∃ password verifier,
            data = <["verifier" := verifier]> (<["password" := password]> ∅))
    as (password & verifier & Hshape).
  { destruct (_ || _).
    - destruct (GenerateASCIIPassword r) as [password|]; [|done].
      destruct (Build r password) as [verifier|]; [|done].
      injection Hbuilt as <-. eauto.
    - injection Hbuilt as <-. eauto. }
  destruct (setControllerReference r cluster _) as [meta|].
  2:{ intros [?|Hin]; [done|by apply elem_of_nil in Hin]. }
  destruct (answer r _).
  - intros [?|Hin]; [done|]. apply list_elem_of_singleton in Hin.
    injection Hin as ->. cbn [SecretData]. by apply (Hdata password verifier).
  - intros [Hreturned|Hin].
    + injection Hreturned as <-. cbn [SecretData]. by apply (Hdata password verifier).
    + apply list_elem_of_singleton in Hin.
      injection Hin as ->. cbn [SecretData]. by apply (Hdata password verifier).
Qed.

End MonitoringSecret.

(** X21. The password of the monitoring user is generated once: when a pass
    of reconcileMonitoringSecret has returned a secret with a password and a
    verifier that are not empty, a later pass that reads a secret with this
    data from the API, with the exporter enabled, applies and returns a
    secret with the same data, whatever the generator of passwords then
    gives. *)
Theorem X21_monitoring_password_is_generated_once
    (first second : PGMonitorSecret.Client) (cluster later : V1beta1.IvoryCluster)
    (secret stored : PGMonitorSecret.Secret) :
  PGMonitorSecret.Returned (PGMonitorSecret.reconcileMonitoringSecret first cluster)
    = Some secret →
  Metav1.index (PGMonitorSecret.SecretData secret) "password" ≠ "" →
  Metav1.index (PGMonitorSecret.SecretData secret) "verifier" ≠ "" →
  PGMonitorSecret.ExporterEnabled second later = true →
  PGMonitorSecret.GetSecret second
    (PGMonitorSecret.ObjectKeyFromObject
       (PGMonitorSecret.MonitoringUserSecret second later)) = inl stored →
  PGMonitorSecret.SecretData stored = PGMonitorSecret.SecretData secret →
  let outcome := PGMonitorSecret.reconcileMonitoringSecret second later in
  (∀ intent, PGMonitorSecret.Returned outcome = Some intent →
             PGMonitorSecret.SecretData intent = PGMonitorSecret.SecretData secret) ∧
  Forall (λ call, ∃ intent, call = PGMonitorSecret.ApplySecret intent ∧
                            PGMonitorSecret.SecretData intent
                            = PGMonitorSecret.SecretData secret)
    (PGMonitorSecret.Calls outcome).
Proof.
  intros Hfirst Hpassword Hverifier Henabled Hget Hstored. cbv zeta.
  pose proof (reconcileMonitoringSecret_data first cluster secret (or_introl Hfirst))
    as Hshape.
  unfold PGMonitorSecret.reconcileMonitoringSecret.
  cbn [PGMonitorSecret.SecretMeta]. rewrite Hget. cbn [IvyUpgrade.IgnoreNotFound].
  rewrite Henabled. cbn [negb]. rewrite Hstored.
  rewrite !missing_false by done. cbn [orb]. rewrite <- Hshape.
  destruct (PGMonitorSecret.setControllerReference second later _) as [meta|].
  2:{ by split. }
  destruct (PGMonitorSecret.answer second _).
  - split; [done|]. repeat constructor. eauto.
  - split; [by intros intent [= <-]|]. repeat constructor. eauto.
Qed.

(** X22. When the exporter is not enabled, reconcileMonitoringSecret and
    reconcileExporterWebConfig return no object and apply nothing; each
    deletes the object it read from the API, and calls nothing when it
    read none; and the error that each returns is never a not-found
    error. *)
Theorem X22_monitoring_objects_are_deleted_when_disabled
    (r : PGMonitorSecret.Client) (cluster : V1beta1.IvoryCluster) :
  PGMonitorSecret.ExporterEnabled r cluster = false →
  let secret := PGMonitorSecret.reconcileMonitoringSecret r cluster in
  let config := PGMonitorSecret.reconcileExporterWebConfig r cluster in
  (PGMonitorSecret.Returned secret = None ∧
   PGMonitorSecret.Calls secret =
     match PGMonitorSecret.GetSecret r
             (PGMonitorSecret.ObjectKeyFromObject
                (PGMonitorSecret.MonitoringUserSecret r cluster)) with
     | inl existing => [PGMonitorSecret.DeleteSecret existing]
     | inr _ => []
     end ∧
   ∀ err, PGMonitorSecret.ReturnedErr secret = Some err →
          IvyUpgrade.IsNotFound err = false) ∧
  (PGMonitorSecret.Returned config = None ∧
   PGMonitorSecret.Calls config =
     match PGMonitorSecret.GetConfigMap r
             (PGMonitorSecret.ObjectKeyFromObject
                (PGMonitorSecret.ExporterWebConfigMap r cluster)) with
     | inl existing => [PGMonitorSecret.DeleteConfigMap existing]
     | inr _ => []
     end ∧
   ∀ err, PGMonitorSecret.ReturnedErr config = Some err →
          IvyUpgrade.IsNotFound err = false).
Proof.
  intros Henabled. cbv zeta.
  unfold PGMonitorSecret.reconcileMonitoringSecret,
    PGMonitorSecret.reconcileExporterWebConfig.
  cbn [PGMonitorSecret.SecretMeta PGMonitorSecret.ConfigMapMeta].
  rewrite Henabled. cbn [negb orb]. split.
  - destruct (PGMonitorSecret.GetSecret r _) as [existing|[message []]];
      cbn [IvyUpgrade.IgnoreNotFound IvyUpgrade.IsNotFound].
    + split; [done|]. split; [done|]. cbn [PGMonitorSecret.ReturnedErr].
      destruct (PGMonitorSecret.answer r _) as [[? []]|]; by intros ? [= <-].
    + by repeat split.
    + split; [done|]. split; [done|]. by intros ? [= <-].
  - destruct (PGMonitorSecret.GetConfigMap r _) as [existing|[message []]];
      cbn [IvyUpgrade.IgnoreNotFound IvyUpgrade.IsNotFound].
    + split; [done|]. split; [done|]. cbn [PGMonitorSecret.ReturnedErr].
      destruct (PGMonitorSecret.answer r _) as [[? []]|]; by intros ? [= <-].
    + by repeat split.
    + split; [done|]. split; [done|]. by intros ? [= <-].
Qed.

(** ** The watch on the clusters *)

Section Watch.
Import Metav1 V1beta1 UpgradeWatch.
Context (List : string → list IvyUpgrade + IvyUpgrade.Error).

Lemma matchingItems_filter items cluster matching :
  matchingItems items cluster matching =
  (matching ++
   filter (λ item, IvoryClusterName (UpgradeSpec item) = cluster.2) items)%list.
Proof.
  revert matching. induction items as [|item items IH]; intros matching.
  { cbn [matchingItems]. by rewrite filter_nil, app_nil_r. }
  cbn [matchingItems]. rewrite IH, filter_cons. case_bool_decide.
  - rewrite decide_True by done. by rewrite <- app_assoc.
  - by rewrite decide_False by done.
Qed.

Lemma handle_added cluster q :
  handle List cluster q =
  (q ++ ((λ upgrade, ObjectKeyFromObject (UpgradeMeta upgrade)) <$>
         findUpgradesForIvoryCluster List (ObjectKeyFromObject (ClusterMeta cluster))))%list.
Proof.
  unfold handle. revert q.
  induction (findUpgradesForIvoryCluster List _) as [|upgrade found IH]; intros q.
  { cbn [foldl fmap list_fmap]. by rewrite app_nil_r. }
  cbn [foldl]. rewrite IH, fmap_cons. by rewrite <- app_assoc.
Qed.

End Watch.

(** X23. For an event of creation, update or deletion of a cluster (for an
    update, the new object), the watch adds to the queue, after what the
    queue has, the requests of the upgrades that the API lists in the
    namespace of the cluster and that name the cluster as theirs, each
    under its own namespace and name; it adds nothing when the API cannot
    list the upgrades. *)
Theorem X23_watch_enqueues_the_upgrades_of_the_cluster
    (List : string → list V1beta1.IvyUpgrade + IvyUpgrade.Error)
    (event : UpgradeWatch.Event) (cluster : V1beta1.IvoryCluster)
    (q : list UpgradeWatch.Request) :
  UpgradeWatch.handled event = Some cluster →
  ∃ added,
    UpgradeWatch.watchIvoryClusters List event q = (q ++ added)%list ∧
    match List (Metav1.Namespace (V1beta1.ClusterMeta cluster)) with
    | inl items =>
        added =
        (λ upgrade, (Metav1.Namespace (V1beta1.UpgradeMeta upgrade),
                     Metav1.Name (V1beta1.UpgradeMeta upgrade))) <$>
        filter (λ upgrade,
                  V1beta1.IvoryClusterName (V1beta1.UpgradeSpec upgrade)
                  = Metav1.Name (V1beta1.ClusterMeta cluster)) items
    | inr _ => added = []
    end.
Proof.
  intros Hevent.
  assert (UpgradeWatch.watchIvoryClusters List event q
          = UpgradeWatch.handle List cluster q) as ->
    by (destruct event; cbn [UpgradeWatch.handled] in Hevent; by simplify_eq).
  rewrite handle_added. eexists. split; [reflexivity|].
  unfold UpgradeWatch.findUpgradesForIvoryCluster. cbn [fst snd UpgradeWatch.ObjectKeyFromObject].
  destruct (List _) as [items|]; [|done].
  by rewrite matchingItems_filter.
Qed.

(** X23 at the update of the cluster "hippo". *)
Lemma X23_watch_enqueues_the_upgrades_of_the_cluster_witness :
  UpgradeWatch.watchIvoryClusters WatchSamples.List
    (UpgradeWatch.UpdateEvent (Samples.cluster 14) (Samples.cluster 15))
    [("ivory", "other")]
  = [("ivory", "other"); ("ivory", "hippo-upgrade"); ("ivory", "hippo-again")].
Proof.
  destruct (X23_watch_enqueues_the_upgrades_of_the_cluster WatchSamples.List
              (UpgradeWatch.UpdateEvent (Samples.cluster 14) (Samples.cluster 15))
              (Samples.cluster 15) [("ivory", "other")] eq_refl)
    as (added & -> & Hadded).
  vm_compute in Hadded. by rewrite Hadded.
Defined.

(** ** The config map of the configuration files *)

(** X24. The config map that CreatePGBackRestConfigMapIntent returns always
    has the file of the instance, the file of the TLS server and the hash
    it was given, and it has the file of the repository host exactly when
    a dedicated host is enabled and named; without one the file of the TLS
    server is empty.  When the name of the host is empty the config map
    does not depend on the names of the service, of its namespace and of
    the instances, nor on the order of the ranges of the builder of the
    repository host, which is not run; the order of the ranges of the
    builder of the instance is the same on both sides. *)
Theorem X24_config_map_files
    (K : PGBackRest.Names) (I : PGBackRestIntent.IntentNames)
    (instance repoHost : GoMap.Schedule) (ivoryCluster : V1beta1.IvoryCluster)
    (repoHostName configHash serviceName serviceNamespace : string)
    (instanceNames : list string) :
  let intent :=
    PGBackRestIntent.CreatePGBackRestConfigMapIntent K I instance repoHost
      ivoryCluster repoHostName configHash serviceName serviceNamespace
      instanceNames in
  let data := PGMonitorSecret.ConfigMapData intent in
  let hosted :=
    PGBackRestIntent.DedicatedRepoHostEnabled I ivoryCluster &&
    bool_decide (repoHostName ≠ "") in
  dom data =
    {[ PGBackRestIntent.CMInstanceKey; PGBackRestIntent.serverConfigMapKey;
       PGBackRestIntent.ConfigHashKey ]} ∪
    (if hosted then {[ PGBackRestIntent.CMRepoKey ]} else ∅) ∧
  data !! PGBackRestIntent.ConfigHashKey = Some configHash ∧
  (hosted = false → data !! PGBackRestIntent.serverConfigMapKey = Some "") ∧
  (repoHostName = "" →
   ∀ (otherRepoHost : GoMap.Schedule)
     (otherName otherNamespace : string) (otherInstances : list string),
     intent =
     PGBackRestIntent.CreatePGBackRestConfigMapIntent K I instance otherRepoHost
       ivoryCluster "" configHash otherName otherNamespace otherInstances).
Proof.
  cbv zeta. unfold PGBackRestIntent.CreatePGBackRestConfigMapIntent.
  cbn [PGMonitorSecret.ConfigMapData]. repeat split.
  - destruct (_ && _); rewrite !dom_insert_L, dom_empty_L; set_solver.
  - by rewrite lookup_insert_eq.
  - intros ->. rewrite lookup_insert_ne by done. by rewrite lookup_insert_eq.
  - intros -> otherRepoHost otherName otherNamespace otherInstances.
    rewrite (bool_decide_eq_false_2 ("" ≠ "")) by (by intros H).
    rewrite andb_false_r.
    by rewrite (populatePGInstanceConfigurationMap_no_host K instance serviceName
                  serviceNamespace "" _ _ _ _ (or_introl eq_refl)
                  otherName otherNamespace).
Qed.

(** ** The properties of the configuration at sample inputs *)

(** X12 at the cluster with the repositories S3("a"), Volume("b"),
    Volume("c"). *)
Lemma X12_MakePGBackrestLogDir_makes_the_log_path_witness :
  ∃ container,
    Corev1.InitContainers
      (PGBackRestPod.MakePGBackrestLogDir Samples.names PodSamples.names
         PodSamples.template PodSamples.cluster) = [container] ∧
    Corev1.Command container = ["bash"; "-c"; "mkdir -p /pgbackrest/b/log"].
Proof.
  destruct (X12_MakePGBackrestLogDir_makes_the_log_path Samples.names
              PodSamples.names GoMap.inOrder "hippo-hosts" "ivory" "/pgdata/pg15" 5432
              ["hippo-instance1"] PodSamples.template PodSamples.cluster
              inOrder_fair eq_refl)
    as (container & path & Hinit & Hcommand & Hlog).
  - intros repo Hin.
    repeat (apply elem_of_cons in Hin as [->|Hin]; [discriminate|]).
    by apply elem_of_nil in Hin.
  - vm_compute in Hlog. injection Hlog as <-.
    exists container. split; [exact Hinit|exact Hcommand].
Defined.

(** X13 at a cluster that declares its own log-path. *)
Lemma X13_declared_global_settings_win_witness :
  Keys.globalSection
    (PGBackRest.populateRepoHostConfigurationMap Samples.names GoMap.backwards
       "hippo-hosts" "ivory" "/pgdata/pg15" 5432 ["hippo-instance1"]
       Samples.repos_a_b_c {[ "log-path" := "/tmp/log" ]})
    !! "log-path" = Some ["/tmp/log"].
Proof.
  exact (proj1 (proj2
    (X13_declared_global_settings_win Samples.names GoMap.backwards
       "hippo-hosts" "ivory" "hippo-repo-host" "/pgdata/pg15" 5432 ["hippo-instance1"]
       Samples.repos_a_b_c {[ "log-path" := "/tmp/log" ]} "log-path" "/tmp/log"
       backwards_fair eq_refl))).
Defined.

(** X14 at a cluster with one repository, in the cloud. *)
Lemma X14_no_repository_host_without_a_volume_witness :
  PGBackRest.populatePGInstanceConfigurationMap Samples.names GoMap.inOrder
    "hippo-hosts" "ivory" "hippo-repo-host" "/pgdata/pg15" 5432 [Samples.s3 "a"] ∅ =
  PGBackRest.populatePGInstanceConfigurationMap Samples.names GoMap.inOrder
    "other" "elsewhere" "" "/pgdata/pg15" 5432 [Samples.s3 "a"] ∅.
Proof.
  apply (X14_no_repository_host_without_a_volume Samples.names GoMap.inOrder
           "hippo-hosts" "ivory" "hippo-repo-host" "/pgdata/pg15" 5432
           [Samples.s3 "a"] ∅).
  right. repeat constructor.
Defined.

(** X21 at a second pass over the secret that a first pass created. *)
Lemma X21_monitoring_password_is_generated_once_witness :
  ∃ intent,
    PGMonitorSecret.Returned
      (PGMonitorSecret.reconcileMonitoringSecret
         (SecretSamples.client true (inl SecretSamples.created) "second")
         (Samples.cluster 14)) = Some intent ∧
    PGMonitorSecret.SecretData intent
    = PGMonitorSecret.SecretData SecretSamples.created.
Proof.
  destruct (X21_monitoring_password_is_generated_once
              (SecretSamples.client true (inr SecretSamples.notFound) "first")
              (SecretSamples.client true (inl SecretSamples.created) "second")
              (Samples.cluster 14) (Samples.cluster 14)
              SecretSamples.created SecretSamples.created)
    as [Hreturned _]; try by vm_compute.
  eexists. split; [by vm_compute|]. apply Hreturned. by vm_compute.
Defined.

(** X22 with the exporter disabled and the secret in the store. *)
Lemma X22_monitoring_objects_are_deleted_when_disabled_witness :
  PGMonitorSecret.Calls
    (PGMonitorSecret.reconcileMonitoringSecret
       (SecretSamples.client false (inl SecretSamples.created) "unused")
       (Samples.cluster 14))
  = [PGMonitorSecret.DeleteSecret SecretSamples.created].
Proof.
  exact (proj1 (proj2 (proj1
    (X22_monitoring_objects_are_deleted_when_disabled
       (SecretSamples.client false (inl SecretSamples.created) "unused")
       (Samples.cluster 14) eq_refl)))).
Defined.

(** ** The reasons of the gates once they are open *)

Section PassReasons.
Import Metav1 V1beta1 IvyUpgrade UpgradePass.
Context (r : Reconciler).

Let progressingOf (upgrade : IvyUpgrade) : option Condition :=
  Meta.FindStatusCondition (Conditions (UpgradeStatus upgrade))
    ConditionIvyUpgradeProgressing.

(** setStatusToProgressingIfReasonWas leaves a Progressing condition whose
    reason is not the one it was called with, and is none of the reasons
    that the condition did not have before. *)
Lemma setStatusToProgressingIfReasonWas_clears reason reasons upgrade :
  "IvyUpgradeProgressing" ∉ reason :: reasons →
  (∀ found, progressingOf upgrade = Some found → Reason found ∉ reasons) →
  ∃ found,
    progressingOf (setStatusToProgressingIfReasonWas r reason upgrade) = Some found ∧
    Reason found ∉ reason :: reasons.
Proof.
  intros Hfresh Hbefore. unfold setStatusToProgressingIfReasonWas.
  assert (∃ found,
            progressingOf
              (setCondition r upgrade
                 (progressing upgrade ConditionTrue "IvyUpgradeProgressing"
                    ("Upgrade progressing for cluster " +:+
                     IvoryClusterName (UpgradeSpec upgrade)))) = Some found ∧
            Reason found ∉ reason :: reasons) as Hset.
  { destruct (setCondition_progressingIs r upgrade upgrade ConditionTrue
                "IvyUpgradeProgressing"
                ("Upgrade progressing for cluster " +:+
                 IvoryClusterName (UpgradeSpec upgrade)))
      as (found & Hfound & _ & Hreason).
    exists found. split; [exact Hfound|]. by rewrite Hreason. }
  fold (progressingOf upgrade).
  destruct (progressingOf upgrade) as [found|] eqn:Hfound; [|exact Hset].
  case_bool_decide as Hreason; [exact Hset|].
  exists found. split; [exact Hfound|].
  apply not_elem_of_cons. split; [done|]. by apply Hbefore.
Qed.

Lemma whenDriving_clears upgrade :
  ∃ found,
    progressingOf (whenDriving r upgrade) = Some found ∧
    Reason found ∉ UpgradeReasons.gateReasons.
Proof.
  unfold whenDriving, whenObserved, whenObserving, UpgradeReasons.gateReasons.
  assert (∀ reason reasons before,
            "IvyUpgradeProgressing" ∉ reason :: reasons →
            (∃ found, progressingOf before = Some found ∧ Reason found ∉ reasons) →
            ∃ found,
              progressingOf (setStatusToProgressingIfReasonWas r reason before)
                = Some found ∧
              Reason found ∉ reason :: reasons) as Hstep.
  { intros reason reasons before Hfresh (found & Hfound & Hreasons).
    apply setStatusToProgressingIfReasonWas_clears; [done|].
    intros ? Hsame. rewrite Hfound in Hsame. by injection Hsame as <-. }
  assert (∀ (reasons : list string) (found : Condition),
            Reason found ∉ reasons → ∀ others, others ≡ₚ reasons →
            Reason found ∉ others) as Hperm
    by (intros reasons found Hnot others ->; done).
  pose proof (setStatusToProgressingIfReasonWas_clears "" [] upgrade) as H0.
  destruct H0 as (found0 & H0 & Hnot0);
    [by apply (bool_decide_unpack _)|intros ? _; apply not_elem_of_nil|].
  repeat match goal with
  | H : progressingOf ?before = Some ?found, Hnot : Reason ?found ∉ ?reasons
    |- context [setStatusToProgressingIfReasonWas r ?reason ?before] =>
      let found' := fresh "found" in
      let Hfound' := fresh "Hfound" in
      let Hnot' := fresh "Hnot" in
      destruct (Hstep reason reasons before) as (found' & Hfound' & Hnot');
        [by apply (bool_decide_unpack _)|by exists found|];
      clear H Hnot
  end.
  match goal with
  | H : progressingOf _ = Some ?found |- _ => exists found; split; [exact H|]
  end.
  eapply Hperm; [eassumption|].
  apply NoDup_Permutation; [by apply (bool_decide_unpack _)..|].
  intros reason. rewrite !elem_of_cons, !elem_of_nil. tauto.
Qed.

End PassReasons.

(** X25. When Reconcile creates or deletes something or patches the status
    of the cluster, the upgrade it leaves has a Progressing condition whose
    reason is none of the reasons of the gates (not IvyUpgradeInvalid, not
    PGClusterNotShutdown, and so on): a gate that is passed takes its own
    reason back. *)
Theorem X25_Reconcile_acts_with_the_gate_reasons_cleared
    (r : IvyUpgrade.Reconciler) (sched : GoMap.Schedule) (req : string * string)
    (upgrade : V1beta1.IvyUpgrade) (call : IvyUpgrade.Call) :
  IvyUpgrade.Get r req = inl upgrade →
  call ∈ IvyUpgrade.Calls (IvyUpgrade.Reconcile r sched req) →
  UpgradePass.patchesUpgrade call = false →
  ∃ after found,
    IvyUpgrade.UpgradeAfter (IvyUpgrade.Reconcile r sched req) = Some after ∧
    Meta.FindStatusCondition (V1beta1.Conditions (V1beta1.UpgradeStatus after))
      IvyUpgrade.ConditionIvyUpgradeProgressing = Some found ∧
    Metav1.Reason found ∉ UpgradeReasons.gateReasons.
Proof.
  intros Hget Hin Hcall.
  destruct (Reconcile_deferred r sched req upgrade Hget) as (Hafter & _ & _).
  rewrite (Reconcile_calls r sched req upgrade Hget) in Hin. cbv zeta in Hin.
  assert (call ∈ IvyUpgrade.ExitCalls (IvyUpgrade.body r sched upgrade)) as Hbody.
  { apply elem_of_app in Hin as [?|Hpatch]; [done|].
    case_bool_decide; [by apply elem_of_nil in Hpatch|].
    apply list_elem_of_singleton in Hpatch. by subst call. }
  destruct (body_stop_or_drive r sched upgrade) as [[Hnone _]|(world & _ & Hdrive)].
  { rewrite Hnone in Hbody. by apply elem_of_nil in Hbody. }
  rewrite Hdrive, drive_upgrade in Hafter.
  destruct (whenDriving_clears r upgrade) as (found & Hfound & Hreason).
  by exists (UpgradePass.whenDriving r upgrade), found.
Qed.

(** X25 at the first pass over an upgrade that the gate of the shutdown had
    stopped before. *)
Lemma X25_Reconcile_acts_with_the_gate_reasons_cleared_witness :
  ∃ after found,
    IvyUpgrade.UpgradeAfter
      (IvyUpgrade.Reconcile
         (Samples.reconciler
            (Samples.upgrade 14 15
               [Samples.condition "Progressing" Metav1.ConditionFalse
                  "PGClusterNotShutdown"])
            UpgradeSamples.beforeTheJob)
         GoMap.inOrder Samples.request) = Some after ∧
    Meta.FindStatusCondition (V1beta1.Conditions (V1beta1.UpgradeStatus after))
      "Progressing" = Some found ∧
    Metav1.Reason found ≠ "PGClusterNotShutdown".
Proof.
  destruct (X25_Reconcile_acts_with_the_gate_reasons_cleared
              (Samples.reconciler
                 (Samples.upgrade 14 15
                    [Samples.condition "Progressing" Metav1.ConditionFalse
                       "PGClusterNotShutdown"])
                 UpgradeSamples.beforeTheJob)
              GoMap.inOrder Samples.request
              (Samples.upgrade 14 15
                 [Samples.condition "Progressing" Metav1.ConditionFalse
                    "PGClusterNotShutdown"])
              (IvyUpgrade.ApplyJob
                 {| IvyUpgrade.JobMeta := Samples.meta "hippo-upgrade-pgdata";
                    IvyUpgrade.JobConditions := [] |})
              eq_refl)
    as (after & found & Hafter & Hfound & Hreason).
  - apply list_elem_of_In. vm_compute. left. reflexivity.
  - reflexivity.
  - exists after, found. split; [exact Hafter|]. split; [exact Hfound|].
    intros Hsame. apply Hreason. rewrite Hsame.
    apply (bool_decide_unpack _). by vm_compute.
Defined.

(** ** The log path of an instance *)

Section InstanceLogPath.
Import V1beta1 PGBackRest Keys.
Context (K : Names).

Lemma host_key_not_log_path name : name +:+ "-host" ≠ "log-path".
Proof.
  intros H. pose proof (f_equal String.length H) as Hlen.
  rewrite append_length in Hlen. simpl in Hlen.
  destruct name as [|a [|b [|c [|d name]]]]; simpl in Hlen; try lia.
  rewrite !append_cons, append_nil_l in H. simplify_eq.
Qed.

Lemma instanceRepo_log_path (sched : GoMap.Schedule) n host fqdn repo global :
  GoMap.fair sched → Name repo ≠ "log" →
  instanceRepo K sched n host fqdn repo global !! "log-path" = global !! "log-path".
Proof.
  intros Hfair Hname. unfold instanceRepo.
  assert (Name repo +:+ "-path" ≠ "log-path") as Hpath
    by (intros H; by apply path_key_log_path in H).
  assert ((match Volume repo with
           | Some _ => Set_ (Name repo +:+ "-path") (defaultRepo1Path +:+ Name repo) global
           | None => SetAll (GoMap.range sched n (getExternalRepoConfigs repo))
                       (Set_ (Name repo +:+ "-path") (defaultRepo1Path +:+ Name repo)
                          global)
           end) !! "log-path" = global !! "log-path") as Hrepo.
  { destruct (Volume repo).
    - rewrite Set_lookup. by rewrite decide_False.
    - rewrite SetAll_range_lookup by done. rewrite getExternalRepoConfigs_log_path.
      rewrite Set_lookup. by rewrite decide_False. }
  destruct (bool_decide (host ≠ "") && _); [|exact Hrepo].
  rewrite !Set_lookup.
  rewrite !decide_False;
    first [exact Hrepo
          |apply host_key_not_log_path
          |apply long_key_not_log_path; simpl; lia].
Qed.

Lemma instanceRepos_log_path (sched : GoMap.Schedule) n host fqdn repos global :
  GoMap.fair sched → (∀ repo, repo ∈ repos → Name repo ≠ "log") →
  instanceRepos K sched n host fqdn repos global !! "log-path" = global !! "log-path".
Proof.
  intros Hfair. revert n global.
  induction repos as [|repo repos IH]; intros n global Hnames; [done|].
  cbn [instanceRepos]. rewrite IH by (intros ? ?; apply Hnames; by right).
  apply instanceRepo_log_path; [done|]. apply Hnames. by left.
Qed.

End InstanceLogPath.

(** X26. In the configuration of an instance, when the global settings of
    the cluster have no log-path and no repository is named "log", log-path
    has one value, the log directory of the data volume, whatever the
    repositories are: the log path of a repository volume is for the
    repository host alone. *)
Theorem X26_instance_logs_to_the_data_volume
    (K : PGBackRest.Names) (sched : GoMap.Schedule)
    (serviceName serviceNamespace repoHostName pgdataDir : string) (pgPort : Z)
    (repos : list V1beta1.PGBackRestRepo) (globalConfig : gmap string string) :
  GoMap.fair sched →
  globalConfig !! "log-path" = None →
  (∀ repo, repo ∈ repos → V1beta1.Name repo ≠ "log") →
  Keys.globalSection
    (PGBackRest.populatePGInstanceConfigurationMap K sched serviceName
       serviceNamespace repoHostName pgdataDir pgPort repos globalConfig)
    !! "log-path" = Some [PGBackRest.PGBackRestPGDataLogPath K].
Proof.
  intros Hfair Hglobal Hnames.
  unfold Keys.globalSection, PGBackRest.populatePGInstanceConfigurationMap.
  rewrite lookup_insert_ne by done. rewrite lookup_insert_eq. simpl.
  rewrite SetAll_range_lookup by done. rewrite Hglobal.
  rewrite instanceRepos_log_path by done.
  rewrite Set_lookup. by rewrite decide_True.
Qed.

(** X26 at the repositories S3("a"), Volume("b"), Volume("c") with a
    repository host. *)
Lemma X26_instance_logs_to_the_data_volume_witness :
  Keys.globalSection
    (PGBackRest.populatePGInstanceConfigurationMap Samples.names GoMap.backwards
       "hippo-hosts" "ivory" "hippo-repo-host" "/pgdata/pg15" 5432
       Samples.repos_a_b_c ∅)
    !! "log-path" = Some ["/pgdata/pgbackrest/log"].
Proof.
  apply (X26_instance_logs_to_the_data_volume Samples.names GoMap.backwards
           "hippo-hosts" "ivory" "hippo-repo-host" "/pgdata/pg15" 5432
           Samples.repos_a_b_c ∅ backwards_fair (lookup_empty "log-path")).
  intros repo Hin.
  repeat (apply elem_of_cons in Hin as [->|Hin]; [discriminate|]).
  by apply elem_of_nil in Hin.
Defined.
